(** * ddice: dimensions, variables, fields and the group-by engine

    A shallow embedding of [ddice/variable/variable.py] and
    [ddice/field/field.py], and the properties of the data model that the
    specification states about them.

    Conventions of the embedding.
    - The code is Python 2 ([import grouping] inside the package, [zip] and
      [map] that return lists).  A call either returns a value or raises;
      it is a [result].  Exceptions are named after the Python classes the
      code raises.
    - A [dict] is an association list with unique keys.  The list gives
      the order in which the dict is iterated; in Python 2 that is the
      order of the slots of the hash table, which depends on the keys that
      are present, so that a dict with one key less may list the others in
      another order.  A dict that a method receives is given as the list of
      its items in that order, whatever it is.  An assignment to a key that
      is present keeps its position; where the code builds a dict, a new
      key is put at the end, which is one of the orders the table may
      have.  The order of the keywords of a call is computed from the hash
      table ([kwargs_items]) where two calls are compared.
    - Numbers of coordinate and data arrays are kept abstract ([Numeric]);
      the comparisons and the arithmetic of the code are operations of that
      interface.  [ZNumeric] instantiates it with integers for the worked
      examples.
    - The array storage ([ddice.array]) is a collaborator of the code that
      is modelled here; it is an interface ([Array]) and the code is
      embedded over any implementation of it.  [numpyArray] is a dense
      implementation.
    - Objects are values.  Where a method writes into an object that it
      did not create ([apply]), the objects carry their identity and the
      writes go to a store. *)

From Stdlib Require Import ZArith QArith.QArith_base String DecimalString.
From stdpp Require Import base option list strings numbers.

#[local] Open Scope string_scope.
#[local] Open Scope Z_scope.
#[local] Open Scope list_scope.

(** ** Exceptions and results *)

Inductive exn : Set :=
  | TypeError | ValueError | IndexError | KeyError
  | AttributeError | NameError | FieldError | Exception.

Inductive result (A : Type) : Type :=
  | Ok (a : A)
  | Raise (e : exn).
Arguments Ok {A} a.
Arguments Raise {A} e.

#[global] Instance result_ret : MRet result := fun _ a => Ok a.
#[global] Instance result_bind : MBind result := fun _ _ f m =>
  match m with
  | Ok a => f a
  | Raise e => Raise e
  end.
#[global] Instance result_fmap : FMap result := fun _ _ f m =>
  match m with
  | Ok a => Ok (f a)
  | Raise e => Raise e
  end.

(** ** Python values that reach [Dimension] *)

Inductive pyval : Type :=
  | PInt (z : Z)          (* type int *)
  | PLong (z : Z)         (* type long *)
  | PBool (b : bool)      (* type bool *)
  | PFloat (q : Q)        (* type float *)
  | PStr (s : string)     (* type str *)
  | PNone.

(** [sys.maxint], the largest value of type [int]; the smallest is
    [-sys.maxint - 1].  An integer outside this range is a [long]: a literal
    that does not fit is one, and so is the result of [int] arithmetic that
    overflows.  The value is that of the 64-bit builds of CPython 2 (a
    32-bit build has [2^31 - 1]); the proofs use only that it is not
    negative. *)
Definition sys_maxint : Z := 2 ^ 63 - 1.

Definition in_int_range (z : Z) : bool :=
  (- sys_maxint - 1 <=? z)%Z && (z <=? sys_maxint)%Z.

(** The value of the integer [z]: what a literal or an integer result of
    that value is. *)
Definition py_integer (z : Z) : pyval :=
  if in_int_range z then PInt z else PLong z.

(** [type(v) == bool]: the exact type. *)
Definition type_is_bool (v : pyval) : bool :=
  match v with PBool _ => true | _ => false end.

(** [v >= 0].  Numbers compare by value, [True] and [False] are 1 and 0;
    a string is larger than any number and [None] is smaller.  (Python 3
    raises TypeError for the last two, which is what the setter raises for
    them anyway.) *)
Definition py_ge0 (v : pyval) : bool :=
  match v with
  | PInt z => (0 <=? z)%Z
  | PLong z => (0 <=? z)%Z
  | PBool _ => true
  | PFloat q => Qle_bool 0 q
  | PStr _ => true
  | PNone => false
  end.

(** ** Dimension *)

Record Dimension : Type := mkDimension {
  dim_name : string;
  _size : Z;
  fixed : bool
}.

#[global] Instance Dimension_eq_dec : EqDecision Dimension.
Proof. solve_decision. Defined.

(** [Dimension.__init__(name, size, fixed=True)].  The size is stored as it
    is given; only [fixed] is inspected. *)
Definition Dimension_init (name : string) (size : Z) (fixed : pyval)
  : result Dimension :=
  match fixed with
  | PBool b => Ok (mkDimension name size b)
  | _ => Raise TypeError
  end.

(** The [size] property. *)
Definition size (d : Dimension) : Z := _size d.

(** [Dimension.__eq__] *)
Definition Dimension_eqb (d other : Dimension) : bool :=
  (size d =? size other)%Z && bool_decide (dim_name d = dim_name other).

(** The integer of a value for which [type(v) == int]: the exact type, so
    that neither a bool nor a long is an int, and no int lies outside the
    range of the type. *)
Definition as_int (v : pyval) : option Z :=
  match v with
  | PInt z => if in_int_range z then Some z else None
  | _ => None
  end.

(** The [size] setter.  It returns the dimension as it is after the
    assignment together with the outcome, so that a raise leaves the
    object as it was. *)
Definition set_size (d : Dimension) (v : pyval) : Dimension * result unit :=
  if fixed d then (d, Raise ValueError)
  else
    (* [size >= 0 and type(size) == int] *)
    match (if py_ge0 v then as_int v else None) with
    | Some z => (mkDimension (dim_name d) z (fixed d), Ok tt)
    | None => (d, Raise TypeError)
    end.

(** ** Dictionaries *)

Definition dict (K V : Type) : Type := list (K * V).

Section Dict.
Context {K V : Type} `{EqDecision K}.

(** [d[k]], [None] when the key is missing. *)
Fixpoint dget (d : dict K V) (k : K) : option V :=
  match d with
  | [] => None
  | (k', v) :: d' => if decide (k = k') then Some v else dget d' k
  end.

(** [k in d] *)
Definition dmem (d : dict K V) (k : K) : bool :=
  match dget d k with Some _ => true | None => false end.

(** [d[k] = v] *)
Fixpoint dset (d : dict K V) (k : K) (v : V) : dict K V :=
  match d with
  | [] => [(k, v)]
  | (k', v') :: d' =>
      if decide (k = k') then (k', v) :: d' else (k', v') :: dset d' k v
  end.

Definition keys (d : dict K V) : list K := map fst d.
End Dict.

(** ** The order of a keyword dict

    CPython 2 iterates a dict in the order of the slots of its hash table.
    The [kwargs] of a call [f(k1=v1, ..., kn=vn)] of a method declared with
    [**kwargs] is a new dict into which the interpreter inserts the
    keywords from left to right, and [kwargs.items()] lists the slots that
    are in use.  The table has 8 slots at first and is rebuilt larger when
    two thirds of it are in use; the slot of a key is found from its hash
    by open addressing.  The hash of a string is that of a 64-bit build
    (hash randomisation is off unless [-R] is given). *)

Definition wrap64 (x : Z) : Z := x mod 2 ^ 64.

(** [hash(s)] of a [str], as an unsigned 64-bit number. *)
Definition string_hash (s : string) : Z :=
  match s with
  | EmptyString => 0
  | String c _ =>
      let code (c : Ascii.ascii) := Z.of_N (Ascii.N_of_ascii c) in
      let x := fold_left (fun x c => Z.lxor (wrap64 (1000003 * x)) (code c))
                         (list_ascii_of_string s) (Z.shiftl (code c) 7) in
      let x := Z.lxor x (Z.of_nat (String.length s)) in
      if x =? 2 ^ 64 - 1 then 2 ^ 64 - 2 else x
  end.

Section HashTable.
Context {V : Type}.

Definition hash_table : Type := list (option (string * V)).

(** The probe sequence of [lookdict_string]: slot [i & mask], then
    [i = 5 * i + perturb + 1] with [perturb] shifted right by 5 after
    each step.  It stops at a free slot or at the slot of the key. *)
Fixpoint lookdict (fuel : nat) (table : hash_table) (key : string)
    (i perturb : Z) : option nat :=
  match fuel with
  | O => None
  | S fuel =>
      let slot := Z.to_nat (Z.land i (Z.of_nat (length table) - 1)) in
      match table !! slot with
      | Some None => Some slot
      | Some (Some (k, _)) =>
          if decide (k = key) then Some slot
          else lookdict fuel table key (wrap64 (5 * i + perturb + 1))
                        (Z.shiftr perturb 5)
      | None => None
      end
  end.

(** [insertdict], without the growth of the table.  After 13 steps
    [perturb] is 0 and the sequence visits every slot in turn, so that a
    table with a free slot always gives one. *)
Definition insertdict (table : hash_table) (key : string) (v : V)
  : hash_table :=
  let h := string_hash key in
  match lookdict (14 + length table) table key h h with
  | Some slot => <[slot := Some (key, v)]> table
  | None => table
  end.

Definition used (table : hash_table) : Z :=
  Z.of_nat (length (omap id table)).

(** [dictresize(minused)]: the smallest power of two above [minused], 8 at
    least, and the entries inserted again in the order of their slots. *)
Definition dictresize (table : hash_table) (minused : Z) : hash_table :=
  let newsize := Z.max 8 (2 ^ (Z.log2 minused + 1)) in
  foldl (fun t kv => insertdict t kv.1 kv.2)
        (replicate (Z.to_nat newsize) None) (omap id table).

(** [PyDict_SetItem]: the table grows when a new key fills two thirds of
    it. *)
Definition PyDict_SetItem (table : hash_table) (key : string) (v : V)
  : hash_table :=
  let n_used := used table in
  let table' := insertdict table key v in
  if (n_used <? used table') && (2 * Z.of_nat (length table') <=? 3 * used table')
  then dictresize table' ((if 50000 <? used table' then 2 else 4) * used table')
  else table'.

(** [kwargs.items()] of a call with the keywords [kw], left to right. *)
Definition kwargs_items (kw : list (string * V)) : list (string * V) :=
  omap id (foldl (fun t kv => PyDict_SetItem t kv.1 kv.2)
                 (replicate 8 None) kw).
End HashTable.

(** ** Numbers of the arrays *)

Class Numeric (num : Type) : Type := {
  nzero : num;
  nadd : num -> num -> num;
  nsub : num -> num -> num;
  (** [np.power(x, 2)] *)
  npow2 : num -> num;
  (** [np.sqrt(x)] *)
  nsqrt : num -> num;
  (** [x / 2] *)
  nhalf : num -> num;
  (** [x < y] and [x == y] *)
  nltb : num -> num -> bool;
  neqb : num -> num -> bool;
  (** the number of a 0/1 integer, as [astype] and the mixed arithmetic of
      numpy produce it *)
  nofbool : bool -> num;
  (** [float(s)] of a string: [None] when it raises ValueError *)
  nparse : string -> option num
}.

(** Elements of the arrays that variables hold: numbers, strings and the
    content of a slot that was never written. *)
Inductive scalar (num : Type) : Type :=
  | SNum (x : num)
  | SStr (s : string)
  | SEmpty.
Arguments SNum {num} x.
Arguments SStr {num} s.
Arguments SEmpty {num}.

Inductive dtype : Set := DFloat | DInt | DStr | DObject.

#[global] Instance dtype_eq_dec : EqDecision dtype.
Proof. solve_decision. Defined.

(** ** Dense arrays (numpy.ndarray)

    A shape and the elements in row-major order. *)

Record ndarray (A : Type) : Type := mkNd {
  nd_shape : list nat;
  nd_data : list A
}.
Arguments mkNd {A} nd_shape nd_data.
Arguments nd_shape {A} n.
Arguments nd_data {A} n.

Definition prod_shape (shape : list nat) : nat := foldr Nat.mul 1%nat shape.

(** [x[k]] on a Python sequence of length [n]: negative subscripts count
    from the end. *)
Definition norm_index (n : nat) (k : Z) : option nat :=
  if (0 <=? k) && (k <? Z.of_nat n) then Some (Z.to_nat k)
  else if (k <? 0) && (- Z.of_nat n <=? k) then Some (Z.to_nat (k + Z.of_nat n))
  else None.

Definition py_index {A} (l : list A) (k : Z) : result A :=
  match norm_index (length l) k with
  | Some p => match l !! p with Some x => Ok x | None => Raise IndexError end
  | None => Raise IndexError
  end.

(** [l[k] = x] on a Python list. *)
Definition py_setitem {A} (l : list A) (k : Z) (x : A) : result (list A) :=
  match norm_index (length l) k with
  | Some p => Ok (<[p := x]> l)
  | None => Raise IndexError
  end.

(** The bound of [slice(start, stop)] on an axis of length [n]. *)
Definition clip_bound (n : nat) (dflt : nat) (b : option Z) : nat :=
  match b with
  | None => dflt
  | Some k =>
      if k <? 0 then Z.to_nat (Z.max 0 (k + Z.of_nat n))
      else Z.to_nat (Z.min k (Z.of_nat n))
  end.

Definition slice_positions (n : nat) (start stop : option Z) : list nat :=
  let a := clip_bound n 0%nat start in
  let b := clip_bound n n stop in
  seq a (b - a).

(** Subscripts.  [Slice] has no step: the code builds none. *)
Inductive index : Type :=
  | Slice (start stop : option Z)
  | Int (i : Z)
  | List (l : list Z)          (* a Python list of positions *)
  | Arr (l : list Z).          (* a numpy array of positions *)

#[global] Instance index_eq_dec : EqDecision index.
Proof. solve_decision. Defined.

(** What is written between the brackets: one subscript, or a Python list
    of subscripts. *)
Inductive subscript : Type :=
  | Sub1 (i : index)
  | SubSeq (l : list index).

Definition slice_None : index := Slice None None.

(** The positions that a subscript selects on an axis of length [n]. *)
Definition positions (n : nat) (i : index) : result (list nat) :=
  match i with
  | Slice a b => Ok (slice_positions n a b)
  | Int k =>
      match norm_index n k with
      | Some p => Ok [p]
      | None => Raise IndexError
      end
  | List l | Arr l =>
      match mapM (norm_index n) l with
      | Some ps => Ok ps
      | None => Raise IndexError
      end
  end.

(** One selection per axis; axes without a subscript are taken whole, more
    subscripts than axes is an IndexError. *)
Fixpoint selections (shape : list nat) (key : list index)
  : result (list (list nat)) :=
  match shape, key with
  | [], [] => Ok []
  | [], _ :: _ => Raise IndexError
  | n :: sh, [] => rest ← selections sh []; Ok (seq 0 n :: rest)
  | n :: sh, i :: key' =>
      ps ← positions n i; rest ← selections sh key'; Ok (ps :: rest)
  end.

(** Orthogonal selection on row-major data. *)
Fixpoint take_nd {A} (shape : list nat) (sel : list (list nat))
    (data : list A) : list A :=
  match shape, sel with
  | _ :: sh, ps :: sel' =>
      let stride := prod_shape sh in
      flat_map (fun p => take_nd sh sel' (take stride (drop (p * stride) data))) ps
  | _, _ => data
  end.

(** Broadcasting of [data], of shape [src], to the shape [tgt] of the same
    rank. *)
Fixpoint bcast {A} (src tgt : list nat) (data : list A) : option (list A) :=
  match src, tgt with
  | [], [] => Some data
  | s :: src', t :: tgt' =>
      let stride := prod_shape src' in
      if decide (s = t) then
        mjoin <$> mapM (fun p => bcast src' tgt' (take stride (drop (p * stride) data)))
                       (seq 0 s)
      else if decide (s = 1%nat) then
        b ← bcast src' tgt' data; Some (mjoin (replicate t b))
      else None
  | _, _ => None
  end.

Fixpoint strip_ones (n : nat) (shape : list nat) : list nat :=
  match n, shape with
  | S n', 1%nat :: sh => strip_ones n' sh
  | _, _ => shape
  end.

(** The elements of an array of shape [src] in the shape [tgt]; missing
    leading axes are added. *)
Definition broadcast {A} (src tgt : list nat) (data : list A) : result (list A) :=
  let src := (replicate (length tgt - length src) 1%nat ++ src)%list in
  match bcast src tgt data with
  | Some l => Ok l
  | None => Raise ValueError
  end.

(** [np.broadcast_to(a, shape)], also for the operand of an operation
    whose result has the shape [tgt]. *)
Definition broadcast_to {A} (a : ndarray A) (tgt : list nat) : result (list A) :=
  broadcast (nd_shape a) tgt (nd_data a).

(** The values of an assignment to a selection of shape [tgt]: leading
    axes of length 1 in excess are dropped first. *)
Definition assigned_values {A} (a : ndarray A) (tgt : list nat)
  : result (list A) :=
  broadcast (strip_ones (length (nd_shape a) - length tgt) (nd_shape a)) tgt
            (nd_data a).

(** [np.unravel_index(k, shape)] *)
Fixpoint unravel (shape : list nat) (k : nat) : list nat :=
  match shape with
  | [] => []
  | _ :: sh =>
      let stride := prod_shape sh in
      (k / stride)%nat :: unravel sh (k mod stride)%nat
  end.

Definition unravel_index (k : nat) (shape : list nat) : result (list nat) :=
  if (k <? prod_shape shape)%nat then Ok (unravel shape k) else Raise ValueError.

(** Writes [vals] at the positions [ps], in order. *)
Fixpoint scatter {A} (data : list A) (ps : list nat) (vals : list A) : list A :=
  match ps, vals with
  | p :: ps', v :: vals' => scatter (<[p := v]> data) ps' vals'
  | _, _ => data
  end.

(** The subscripts that a bracket expression denotes: a Python list that
    holds only integers is one list of positions on the first axis. *)
Definition all_ints (l : list index) : option (list Z) :=
  mapM (fun i => match i with Int k => Some k | _ => None end) l.

Definition key_of (s : subscript) : list index :=
  match s with
  | Sub1 i => [i]
  | SubSeq l =>
      match all_ints l with
      | Some ks => [List ks]
      | None => l
      end
  end.

(** [a[s]] of a dense array; an integer subscript keeps its axis, with
    length 1. *)
Definition nd_getitem {A} (a : ndarray A) (s : subscript) : result (ndarray A) :=
  sel ← selections (nd_shape a) (key_of s);
  Ok (mkNd (map length sel) (take_nd (nd_shape a) sel (nd_data a))).

(** [a[s] = v] *)
Definition nd_setitem {A} (a : ndarray A) (s : subscript) (v : ndarray A)
  : result (ndarray A) :=
  sel ← selections (nd_shape a) (key_of s);
  vals ← assigned_values v (map length sel);
  let ps := take_nd (nd_shape a) sel (seq 0 (prod_shape (nd_shape a))) in
  Ok (mkNd (nd_shape a) (scatter (nd_data a) ps vals)).

(** ** Array storage (ddice.array) *)

(** Storage objects have an identity and a class. *)
Abbreviation oid := nat (only parsing).
Definition storage_class : Set := string.

(** Modelled from the spec: the class [Array] of [ddice.array], the
    storage capability of section 6: an N-dimensional array with a shape,
    an element type, index-get and index-set, and the conversion to a
    dense array.  [arr_id] is the identity of the Python object,
    [arr_class] its class and [arr_truthy] its truth value; [arr_new cls
    shape dtype id] is the call [cls(shape, dtype)] that creates the object
    [id]; [arr_getitem a s id] is [a[s]], a new object [id];
    [arr_setitem a s v] is the state of [a] after [a[s] = v]. *)

Class Array (num T : Type) : Type := {
  arr_class : T -> storage_class;
  arr_id : T -> oid;
  arr_shape : T -> list Z;
  arr_dtype : T -> dtype;
  arr_truthy : T -> bool;
  arr_new : storage_class -> list Z -> dtype -> oid -> result T;
  arr_getitem : T -> subscript -> oid -> result T;
  arr_setitem : T -> subscript -> ndarray (scalar num) -> result T;
  arr_ndarray : T -> ndarray (scalar num)
}.

(** The class that [Variable] and [Field] name [numpyArray]. *)
Definition numpyArray_class : storage_class := "numpyArray".

(** ** Variable *)

(** An element of the [dimensions] argument: a tuple [(name, size)] or
    [(name, size, fixed)], a [Dimension], or something else. *)
Inductive dim_arg : Type :=
  | DimTuple (name : string) (size : Z) (fixed : option pyval)
  | DimInstance (d : Dimension)
  | DimOther.

(** The [attributes] argument: a dict or something else. *)
Inductive attrs_arg : Type :=
  | AttrDict (d : dict string string)
  | AttrOther.

Section VariableModel.
Context {num T : Type} `{Array num T}.

(** The [data] argument: an [Array], a numpy array, or [None]. *)
Inductive data_arg : Type :=
  | DataArray (a : T)
  | DataNd (a : ndarray (scalar num))
  | DataNone.

(** The class [Variable].  [dataset] stands for the reference to the
    owning dataset, of which the code reads the attributes only. *)
Record Var : Type := mkVariable {
  _dimensions : list Dimension;
  _dtype : dtype;
  name : option string;
  _attributes : dict string string;
  dataset : option (dict string string);
  _data : T
}.

Definition dimensions (v : Var) : list Dimension := _dimensions v.
Definition attributes (v : Var) : dict string string := _attributes v.

(** The [shape] property of a constructed variable. *)
Definition shape (v : Var) : list Z :=
  if arr_truthy (_data v) then arr_shape (_data v)
  else map size (_dimensions v).

Definition ndarray_of (v : Var) : ndarray (scalar num) :=
  arr_ndarray (_data v).

Definition init_dimension (d : dim_arg) : result Dimension :=
  match d with
  | DimTuple n s None => Dimension_init n s (PBool true)
  | DimTuple n s (Some f) => Dimension_init n s f
  | DimInstance d => Ok d
  | DimOther => Raise TypeError
  end.

Fixpoint init_dimensions (ds : list dim_arg) : result (list Dimension) :=
  match ds with
  | [] => Ok []
  | d :: ds' =>
      d' ← init_dimension d; rest ← init_dimensions ds'; Ok (d' :: rest)
  end.

(** [Variable.__init__].  While it runs [self._data] is [False], so
    [self.shape] is the tuple of the declared sizes; [id] names the
    storage object that the call creates when it creates one. *)
Definition Variable_init (dims : list dim_arg) (dt : dtype)
    (nm : option string) (attrs : attrs_arg)
    (ds : option (dict string string)) (data : data_arg)
    (storage : storage_class) (id : oid) : result Var :=
  dims' ← init_dimensions dims;
  let self_shape := map size dims' in
  d ← match data with
      | DataArray a =>
          if bool_decide (arr_shape a = self_shape) then
            if bool_decide (arr_class a = storage) then Ok a
            else
              fresh ← arr_new storage self_shape dt id;
              if bool_decide (length self_shape ≠ 0%nat)
              then arr_setitem fresh (Sub1 slice_None) (arr_ndarray a)
              else Ok fresh
          else Raise Exception
      | DataNd a =>
          fresh ← arr_new storage self_shape dt id;
          arr_setitem fresh (Sub1 slice_None) a
      | DataNone => arr_new storage self_shape dt id
      end;
  match attrs with
  | AttrDict a => Ok (mkVariable dims' dt nm a ds d)
  | AttrOther => Raise TypeError
  end.

(** The loop of [__getitem__] over [zip(self.dimensions, data.shape)]. *)
Fixpoint getitem_dims (zs : list (Dimension * Z)) : result (list dim_arg) :=
  match zs with
  | [] => Ok []
  | (d, sz) :: zs' =>
      d' ← Dimension_init (dim_name d) sz (PBool (fixed d));
      rest ← getitem_dims zs';
      Ok (DimInstance d' :: rest)
  end.

(** [Variable.__getitem__]; [id] names the storage object [self._data[slices]]. *)
Definition Variable_getitem (self : Var) (slices : subscript) (id : oid)
  : result Var :=
  data ← arr_getitem (_data self) slices id;
  dims ← getitem_dims (zip (dimensions self) (arr_shape data));
  Variable_init dims (arr_dtype data) (name self) (AttrDict (attributes self))
                (dataset self) (DataArray data) (arr_class data) id.

(** [Variable.__setitem__]: the variable after [self[slices] = values]. *)
Definition Variable_setitem (self : Var) (slices : subscript)
    (values : ndarray (scalar num)) : result Var :=
  d ← arr_setitem (_data self) slices values;
  Ok (mkVariable (_dimensions self) (_dtype self) (name self)
                 (_attributes self) (dataset self) d).
End VariableModel.


Arguments Var T : clear implicits.

(** ** A dense storage *)

(** Modelled from the spec: the in-memory storage [numpyArray] of
    [ddice.array].  The object holds a dense array; an integer subscript
    keeps its axis (so that [V[2,1]] of a 5x3 variable has the dimensions
    [('x', 1), ('y', 1)], as the doctest of [Variable] shows), a list of
    positions selects along its own axis, and a new object is filled with
    [SEmpty]. *)

Record numpyArray (num : Type) : Type := mkNumpyArray {
  na_id : oid;
  na_dtype : dtype;
  na_arr : ndarray (scalar num)
}.
Arguments mkNumpyArray {num} na_id na_dtype na_arr.
Arguments na_id {num} n.
Arguments na_dtype {num} n.
Arguments na_arr {num} n.

Definition shape_of_nd {A} (a : ndarray A) : list Z := map Z.of_nat (nd_shape a).

Definition numpyArray_new {num} (shape : list Z) (dt : dtype) (id : oid)
  : result (numpyArray num) :=
  if forallb (fun n => 0 <=? n) shape then
    let sh := map Z.to_nat shape in
    Ok (mkNumpyArray id dt (mkNd sh (replicate (prod_shape sh) SEmpty)))
  else Raise ValueError.

#[global] Instance numpyArray_Array (num : Type) : Array num (numpyArray num) := {
  arr_class _ := numpyArray_class;
  arr_id := na_id;
  arr_shape a := shape_of_nd (na_arr a);
  arr_dtype := na_dtype;
  arr_truthy _ := true;
  arr_new _ shape dt id := numpyArray_new shape dt id;
  arr_getitem a s id :=
    nd ← nd_getitem (na_arr a) s; Ok (mkNumpyArray id (na_dtype a) nd);
  arr_setitem a s v :=
    nd ← nd_setitem (na_arr a) s v; Ok (mkNumpyArray (na_id a) (na_dtype a) nd);
  arr_ndarray := na_arr
}.

(** ** Field *)

(** The positions, among the dimensions of the data variable, that a
    coordinate variable spans. *)
Definition mapping : Set := list nat.

(** Geometries of the cells; the constructors stand for the [Point] and
    [Polygon] of shapely. *)
Inductive geometry (num : Type) : Type :=
  | Point (coords : list num)
  | Polygon (shell : list (num * num)).
Arguments Point {num} coords.
Arguments Polygon {num} shell.

Section FieldModel.
Context {num T : Type} `{Numeric num} `{Array num T}.

(** The class [Field].  [_geometries] is [None] for the [False] that
    marks an empty cache; an element of the cached array is [None] as
    long as no geometry was stored in it.  The caches [_features] and
    [_areas] are left out: none of the methods below reads them. *)
Record Field : Type := mkField {
  variable : Var T;
  coordinate_variables : dict string (mapping * Var T);
  ancil_variables : dict string (mapping * Var T);
  _geometries : option (ndarray (option (geometry num)))
}.

(** [Field.__init__] *)
Definition Field_init (v : Var T) : Field := mkField v [] [] None.

(** [Field.coordinate] *)
Definition coordinate (self : Field) (nm : string) : option (Var T) :=
  snd <$> dget (coordinate_variables self) nm.

(** The [shape] property of [Field]. *)
Definition Field_shape (self : Field) : list Z := shape (variable self).

(** *** numpy on dense arrays *)

Definition np_zeros (sh : list Z) : result (ndarray num) :=
  if forallb (fun n => 0 <=? n) sh then
    let sh' := map Z.to_nat sh in
    Ok (mkNd sh' (replicate (prod_shape sh') nzero))
  else Raise ValueError.

(** [float(v)] *)
Definition py_float (v : scalar num) : result num :=
  match v with
  | SNum x => Ok x
  | SStr s =>
      match nparse s with
      | Some x => Ok x
      | None => Raise ValueError
      end
  | SEmpty => Raise TypeError
  end.

(** [np.power(a - x, 2)]: defined on arrays of numbers. *)
Definition sq_diff (a : ndarray (scalar num)) (x : num) : result (ndarray num) :=
  d ← mapM (fun e => match e with
                     | SNum y => Ok (npow2 (nsub y x))
                     | _ => Raise TypeError
                     end) (nd_data a);
  Ok (mkNd (nd_shape a) d).

(** The running distance, with its element type: [true] when the array
    holds integers. *)
Definition distance : Type := bool * ndarray num.

(** [distance += d] for an array [d] of floats.  numpy adds in place, in
    the shape of [distance], and refuses to store floats in an array of
    integers. *)
Definition iadd (dist : distance) (d : ndarray num) : result distance :=
  if dist.1 then Raise TypeError
  else
    vals ← broadcast_to d (nd_shape dist.2);
    Ok (false, mkNd (nd_shape dist.2) (zip_with nadd (nd_data dist.2) vals)).

(** [a != v] on one element.  A number and a string do not compare. *)
Definition scalar_ne (e v : scalar num) : result bool :=
  match e, v with
  | SNum y, SNum x => Ok (negb (neqb y x))
  | SStr s, SStr t => Ok (negb (bool_decide (s = t)))
  | SEmpty, SEmpty => Ok false
  | _, _ => Raise TypeError
  end.

(** [(a != v).astype(np.int)] *)
Definition ne_int (a : ndarray (scalar num)) (v : scalar num)
  : result (ndarray num) :=
  d ← mapM (fun e => nofbool <$> scalar_ne e v) (nd_data a);
  Ok (mkNd (nd_shape a) d).

Definition np_sqrt (a : ndarray num) : ndarray num :=
  mkNd (nd_shape a) (map nsqrt (nd_data a)).

Fixpoint argmin_from (best : nat) (bv : num) (i : nat) (l : list num) : nat :=
  match l with
  | [] => best
  | x :: l' =>
      if nltb x bv then argmin_from i x (S i) l'
      else argmin_from best bv (S i) l'
  end.

(** [np.argmin(a)]: the first position of the smallest element of the
    flattened array, by the order [nltb] of the numbers. *)
Definition np_argmin (a : ndarray num) : result nat :=
  match nd_data a with
  | [] => Raise ValueError
  | x :: l => Ok (argmin_from 0 x 1 l)
  end.

(** *** [Field.map] *)

(** The inner loop over [self.coordinate_variables.items()] that collects
    the other keywords of the same mapping. *)
Definition complementary (self : Field) (kwargs : dict string (scalar num))
    (arg : string) (dims : mapping) (args : dict string (mapping * Var T))
  : dict string (mapping * Var T) :=
  foldl (fun args '(nm, other) =>
           if dmem kwargs nm && bool_decide (nm ≠ arg)
              && bool_decide (other.1 = dims)
           then dset args nm other else args)
        args (coordinate_variables self).

(** One turn of the loop over [args.items()], with its two [try]. *)
Definition accumulate (kwargs : dict string (scalar num)) (dist : distance)
    (item : string * (mapping * Var T)) : distance :=
  let '(nm, m) := item in
  let v := match dget kwargs nm with
           | Some v => Ok v
           | None => Raise KeyError
           end in
  let numeric :=
    v ← v; x ← py_float v; d ← sq_diff (ndarray_of m.2) x; iadd dist d in
  match numeric with
  | Ok dist' => dist'
  | Raise _ =>
      match (v ← v; ne_int (ndarray_of m.2) v) with
      | Ok d => (true, d)
      | Raise _ => dist
      end
  end.

(** The loop [for index in np.unravel_index(...)] with its counter [i]. *)
Fixpoint write_indices (dims : mapping) (i : nat) (idxs : list nat)
    (res : list index) : result (list index) :=
  match idxs with
  | [] => Ok res
  | ix :: rest =>
      match dims !! i with
      | None => Raise IndexError
      | Some d =>
          if (d <? length res)%nat
          then write_indices dims (S i) rest (<[d := Int (Z.of_nat ix)]> res)
          else Raise IndexError
      end
  end.

(** The body of the loop of [map] once the keyword is resolved. *)
Definition map_resolved (kwargs : dict string (scalar num))
    (dims : mapping) (shp : list Z) (args : dict string (mapping * Var T))
    (res : list index) : result (list index) :=
  zeros ← np_zeros shp;
  let dist := foldl (accumulate kwargs) (false, zeros) args in
  let dist := np_sqrt dist.2 in
  k ← np_argmin dist;
  idxs ← unravel_index k (map Z.to_nat shp);
  write_indices dims 0 idxs res.

(** One turn of the loop over [kwargs.items()]; the state is the result
    list and the list [done]. *)
Definition map_step (self : Field) (kwargs : dict string (scalar num))
    (st : list index * list string) (item : string * scalar num)
  : result (list index * list string) :=
  let '(res, done) := st in
  let arg := item.1 in
  if bool_decide (arg ∈ ["_method"]) then Ok st
  else if bool_decide (arg ∈ done) then Ok st
  else
    match dget (coordinate_variables self) arg with
    | Some m =>
        let args := complementary self kwargs arg m.1 (dset [] arg m) in
        res' ← map_resolved kwargs m.1 (shape m.2) args res;
        Ok (res', (done ++ keys args)%list)
    | None =>
        match dget (ancil_variables self) arg with
        | Some m =>
            let args := dset [] arg m in
            res' ← map_resolved kwargs m.1 (shape m.2) args res;
            Ok (res', (done ++ keys args)%list)
        | None => Ok st
        end
    end.

Fixpoint map_loop (self : Field) (kwargs : dict string (scalar num))
    (items : list (string * scalar num)) (st : list index * list string)
  : result (list index * list string) :=
  match items with
  | [] => Ok st
  | item :: items' =>
      st' ← map_step self kwargs st item; map_loop self kwargs items' st'
  end.

(** [Field.map] *)
Definition Field_map (self : Field) (kwargs : dict string (scalar num))
  : result (list index) :=
  let res := replicate (length (shape (variable self))) slice_None in
  fst <$> map_loop self kwargs kwargs (res, []).
End FieldModel.

Arguments Field num T : clear implicits.

(** Modelled from the spec: the class [Dataset] of [ddice.dataset], which
    is constructed from dimensions, attributes and a mapping from names to
    variables; the constructor stores its three arguments. *)
Record Dataset (T : Type) : Type := mkDataset {
  ds_dimensions : list Dimension;
  ds_attributes : dict string string;
  ds_variables : dict (option string) (Var T)
}.
Arguments mkDataset {T} ds_dimensions ds_attributes ds_variables.
Arguments ds_dimensions {T} d.
Arguments ds_attributes {T} d.
Arguments ds_variables {T} d.

(** A keyword value of [subset]: a tuple or a list, or a single value. *)
Inductive subset_arg (num : Type) : Type :=
  | Bounds (l : list (scalar num))
  | Single (v : scalar num).
Arguments Bounds {num} l.
Arguments Single {num} v.

Section FieldSubset.
Context {num T : Type} `{Numeric num} `{Array num T}.

(** [x < y] on elements. *)
Definition scalar_lt (x y : scalar num) : result bool :=
  match x, y with
  | SNum a, SNum b => Ok (nltb a b)
  | SStr s, SStr t => Ok (String.ltb s t)
  | _, _ => Raise TypeError
  end.

(** [vals < v] and [vals > v] *)
Definition nd_lt (vals : ndarray (scalar num)) (v : scalar num)
  : result (ndarray bool) :=
  d ← mapM (fun e => scalar_lt e v) (nd_data vals); Ok (mkNd (nd_shape vals) d).
Definition nd_gt (vals : ndarray (scalar num)) (v : scalar num)
  : result (ndarray bool) :=
  d ← mapM (fun e => scalar_lt v e) (nd_data vals); Ok (mkNd (nd_shape vals) d).

(** [len(a)]: the length of the first axis. *)
Definition nd_len {A} (a : ndarray A) : result nat :=
  match nd_shape a with
  | [] => Raise TypeError
  | n :: _ => Ok n
  end.

Fixpoint bshape_rev (a b : list nat) : option (list nat) :=
  match a, b with
  | [], _ => Some b
  | _, [] => Some a
  | x :: a', y :: b' =>
      r ← bshape_rev a' b';
      if decide (x = y) then Some (x :: r)
      else if decide (x = 1%nat) then Some (y :: r)
      else if decide (y = 1%nat) then Some (x :: r)
      else None
  end.

Definition broadcast_shapes (a b : list nat) : option (list nat) :=
  reverse <$> bshape_rev (reverse a) (reverse b).

(** [np.logical_or(a, b)] *)
Definition logical_or (a b : ndarray bool) : result (ndarray bool) :=
  match broadcast_shapes (nd_shape a) (nd_shape b) with
  | None => Raise ValueError
  | Some sh =>
      da ← broadcast_to a sh; db ← broadcast_to b sh;
      Ok (mkNd sh (zip_with orb da db))
  end.

(** The exclusion mask of one keyword (lines 319 to 323). *)
Definition keyword_mask (vals : ndarray (scalar num))
    (value : list (scalar num)) : result (ndarray bool) :=
  v0 ← py_index value 0;
  mask ← nd_lt vals v0;
  n ← nd_len mask;
  if (1 <? n)%nat && (1 <? length value)%nat then
    v1 ← py_index value 1;
    hi ← nd_gt vals v1;
    logical_or mask hi
  else Ok mask.

(** One turn of the first loop of [subset]. *)
Definition subset_step (self : Field num T)
    (mappings : dict mapping (ndarray bool))
    (item : string * subset_arg num)
  : result (dict mapping (ndarray bool)) :=
  let '(nm, value) := item in
  let value := match value with
               | Bounds l => l
               | Single v => [v]
               end in
  let found :=
    match dget (coordinate_variables self) nm with
    | Some m => Some m
    | None => dget (ancil_variables self) nm
    end in
  match found with
  | None => Ok mappings
  | Some (m, var) =>
      mask ← keyword_mask (ndarray_of var) value;
      match dget mappings m with
      | Some old =>
          mask' ← logical_or old mask; Ok (dset mappings m mask')
      | None => Ok (dset mappings m mask)
      end
  end.

Fixpoint subset_mappings (self : Field num T)
    (items : list (string * subset_arg num))
    (mappings : dict mapping (ndarray bool))
  : result (dict mapping (ndarray bool)) :=
  match items with
  | [] => Ok mappings
  | item :: items' =>
      m' ← subset_step self mappings item; subset_mappings self items' m'
  end.

(** [np.nonzero(~mask)]: for each axis, the positions along it of the
    elements that are not excluded, in row-major order. *)
Definition flat_nonzero (m : list bool) : list nat :=
  omap (fun p : nat * bool => if p.2 then None else Some p.1)
       (imap (fun i b => (i, b)) m).

Definition np_nonzero_not (m : ndarray bool) : list (list nat) :=
  let multi := map (unravel (nd_shape m)) (flat_nonzero (nd_data m)) in
  map (fun ax => map (fun ix => nth ax ix 0%nat) multi)
      (seq 0 (length (nd_shape m))).

(** [a.min()] and [a.max()] of an array of positions. *)
Definition np_min (a : list nat) : result nat :=
  match a with
  | [] => Raise ValueError
  | x :: l => Ok (foldl Nat.min x l)
  end.
Definition np_max (a : list nat) : result nat :=
  match a with
  | [] => Raise ValueError
  | x :: l => Ok (foldl Nat.max x l)
  end.

(** One turn of [for i in range(0, len(nonzero))]. *)
Definition subset_axis (m : mapping) (nonzero : list (list nat))
    (subset : list index) (i : nat) : result (list index) :=
  match nonzero !! i with
  | None => Raise IndexError
  | Some nz =>
      start ← np_min nz;
      stop ← np_max nz;
      if bool_decide (length nonzero = 1%nat) then
        if (length (default [] (nonzero !! 0%nat)) <? stop - start + 1)%nat then
          match m !! i with
          | None => Raise IndexError
          | Some d =>
              py_setitem subset (Z.of_nat d)
                         (Arr (map Z.of_nat (default [] (nonzero !! 0%nat))))
          end
        else Ok subset
      else
        match m !! i with
        | None => Raise IndexError
        | Some d =>
            py_setitem subset (Z.of_nat d)
              (Slice (Some (Z.of_nat start)) (Some (Z.of_nat stop + 1)))
        end
  end.

Fixpoint subset_axes (m : mapping) (nonzero : list (list nat))
    (range : list nat) (subset : list index) : result (list index) :=
  match range with
  | [] => Ok subset
  | i :: range' =>
      s' ← subset_axis m nonzero subset i; subset_axes m nonzero range' s'
  end.

(** The second loop of [subset], over [mappings.items()]. *)
Fixpoint subset_masks (items : list (mapping * ndarray bool))
    (subset : list index) : result (list index) :=
  match items with
  | [] => Ok subset
  | (m, mask) :: items' =>
      let nonzero := np_nonzero_not mask in
      s' ← subset_axes m nonzero (seq 0 (length nonzero)) subset;
      subset_masks items' s'
  end.

(** The list [subset] of the method, as it stands when the data variable
    is sliced (lines 297 to 353). *)
Definition subset_slices (self : Field num T)
    (kwargs : dict string (subset_arg num)) : result (list index) :=
  mappings ← subset_mappings self kwargs [];
  let subset := map (fun sz => Slice (Some 0) (Some sz)) (Field_shape self) in
  subset_masks mappings subset.

(** The subscripts of a coordinate or ancillary variable: those of the
    dimensions of the data variable that it has. *)
Definition coord_slice (self : Field num T) (subset : list index) (var : Var T)
  : list index :=
  omap (fun '(d, s) =>
          if existsb (Dimension_eqb d) (dimensions var) then Some s else None)
       (zip (dimensions (variable self)) subset).

(** The loops that slice the coordinate and the ancillary variables; the
    storage objects they create are numbered from [id]. *)
Fixpoint slice_variables (self : Field num T) (subset : list index)
    (items : list (string * (mapping * Var T)))
    (variables : dict (option string) (Var T)) (id : oid)
  : result (dict (option string) (Var T)) :=
  match items with
  | [] => Ok variables
  | (_, map_var) :: items' =>
      v ← Variable_getitem map_var.2
            (SubSeq (coord_slice self subset map_var.2)) id;
      slice_variables self subset items'
                      (dset variables (name map_var.2) v) (S id)
  end.

(** [Field.subset]; it returns the new field, the dataset is local. *)
Definition Field_subset (self : Field num T)
    (kwargs : dict string (subset_arg num)) (id : oid) : result (Field num T) :=
  subset ← subset_slices self kwargs;
  var ← Variable_getitem (variable self) (SubSeq subset) id;
  let variables := dset [] (name (variable self)) var in
  let cvs := coordinate_variables self in
  variables ← slice_variables self subset cvs variables (S id);
  variables ← slice_variables self subset (ancil_variables self) variables
                (S id + length cvs)%nat;
  match dataset (variable self) with
  | None => Raise AttributeError
  | Some attrs =>
      let dataset := mkDataset (dimensions var) attrs variables in
      Ok (Field_init var)
  end.
End FieldSubset.

(** ** Integers as numbers

    The instance of the worked examples: exact integers, the integer
    square root (exact on the squares that the examples take it of) and
    the half by floor division (exact on the even numbers they halve). *)

#[global] Instance ZNumeric : Numeric Z := {
  nzero := 0;
  nadd := Z.add;
  nsub := Z.sub;
  npow2 x := x * x;
  nsqrt := Z.sqrt;
  nhalf x := x / 2;
  nltb := Z.ltb;
  neqb := Z.eqb;
  nofbool b := if b then 1 else 0;
  nparse s := Z.of_int <$> DecimalString.NilZero.int_of_string s
}.

Section FieldGeometries.
Context {num T : Type} `{Numeric num} `{Array num T}.
#[local] Open Scope nat_scope.

Definition as_number (e : scalar num) : result num :=
  match e with
  | SNum x => Ok x
  | _ => Raise TypeError
  end.

Definition require {A} (o : option A) (e : exn) : result A :=
  match o with
  | Some a => Ok a
  | None => Raise e
  end.

(** The test that the properties [latitudes] and [longitudes] share:
    [cvs['latitude'][0][0] != cvs['longitude'][0][0]] *)
Definition on_distinct_axes (self : Field num T) : result bool :=
  lat ← require (dget (coordinate_variables self) "latitude") KeyError;
  a ← require (lat.1 !! 0) IndexError;
  lon ← require (dget (coordinate_variables self) "longitude") KeyError;
  b ← require (lon.1 !! 0) IndexError;
  Ok (bool_decide (a ≠ b)).

(** The two-dimensional variable that both properties build, before it
    is filled; [id] names its storage object. *)
Definition grid_variable (lat lon : Var T) (id : oid) : result (Var T) :=
  dlat ← require (dimensions lat !! 0) IndexError;
  dlon ← require (dimensions lon !! 0) IndexError;
  Variable_init [DimInstance dlat; DimInstance dlon] (_dtype lat) None
                (AttrDict []) None DataNone numpyArray_class id.

(** [a.T] of a dense array of [r] rows and [c] columns. *)
Definition transpose2 {A} (r c : nat) (data : list A) : list A :=
  flat_map (fun j => omap (fun i => data !! (i * c + j)) (seq 0 r)) (seq 0 c).

(** The [latitudes] property.  [self.coordinate('latitude')] is [None]
    when the field has no latitude; the subscript of [cvs] then raises. *)
Definition latitudes (self : Field num T) (id : oid) : result (Var T) :=
  distinct ← on_distinct_axes self;
  latv ← require (coordinate self "latitude") KeyError;
  if distinct && bool_decide (length (shape latv) = 1) then
    lonv ← require (coordinate self "longitude") KeyError;
    v ← grid_variable latv lonv id;
    nlon ← Z.to_nat <$> require (shape lonv !! 0) IndexError;
    nlat ← Z.to_nat <$> require (shape latv !! 0) IndexError;
    (* np.broadcast_to(latitudes.ndarray().T, (nlon, nlat)).T *)
    b ← broadcast_to (ndarray_of latv) [nlon; nlat];
    Variable_setitem v (Sub1 slice_None)
                     (mkNd [nlat; nlon] (transpose2 nlon nlat b))
  else Ok latv.

(** The [longitudes] property. *)
Definition longitudes (self : Field num T) (id : oid) : result (Var T) :=
  distinct ← on_distinct_axes self;
  lonv ← require (coordinate self "longitude") KeyError;
  if distinct && bool_decide (length (shape lonv) = 1) then
    latv ← require (coordinate self "latitude") KeyError;
    v ← grid_variable latv lonv id;
    nlat ← Z.to_nat <$> require (shape latv !! 0) IndexError;
    nlon ← Z.to_nat <$> require (shape lonv !! 0) IndexError;
    (* np.broadcast_to(longitudes.ndarray().T, (nlat, nlon)) *)
    b ← broadcast_to (ndarray_of lonv) [nlat; nlon];
    Variable_setitem v (Sub1 slice_None) (mkNd [nlat; nlon] b)
  else Ok lonv.

(** The [times] property. *)
Definition times (self : Field num T) : result (ndarray (scalar num)) :=
  v ← require (coordinate self "time") AttributeError; Ok (ndarray_of v).

(** *** Cell corners of a rectangular grid

    A bounds array of [rows] by [cols] is a function of the row and the
    column; an assignment to a part of it overrides the function there.
    The array that [np.ndarray] returns is not initialised: what it
    holds is the argument [junk] of [grid_interior]. *)

Definition grid2 : Type := nat -> nat -> num.

(** Element [i, j] of a dense array of [cols] columns. *)
Definition at2 (cols : nat) (data : list num) (i j : nat) : num :=
  default nzero (data !! (i * cols + j)).

Definition inside (lo hi k : nat) : bool := (lo <=? k) && (k <? hi).

(** [(a[0:-1, 0:-1] + a[1:, 1:]) / 2] for [a] of shape [(n, m)] *)
Definition midpoints (n m : nat) (a : list num) : ndarray num :=
  mkNd [n - 1; m - 1]
    (flat_map (fun i =>
       map (fun j => nhalf (nadd (at2 m a i j) (at2 m a (S i) (S j))))
           (seq 0 (m - 1)))
       (seq 0 (n - 1))).

(** [var[1:-1, 1:-1] = (a[0:-1, 0:-1] + a[1:, 1:]) / 2] for the bounds
    [var] of a grid of [n] by [m] cells and a coordinate [a] of shape
    [shp] (lines 444 to 448).  A coordinate of fewer than two axes has too
    few for the subscripts; one of more axes is taken not to fit the
    bounds. *)
Definition grid_interior (n m : nat) (shp : list nat) (a : list num)
    (junk : grid2) : result grid2 :=
  mid ← match shp with
        | [n'; m'] => assigned_values (midpoints n' m' a) [n - 1; m - 1]
        | [] | [_] => Raise IndexError
        | _ => Raise ValueError
        end;
  Ok (fun i j =>
        if inside 1 n i && inside 1 m j
        then at2 (m - 1) mid (i - 1) (j - 1) else junk i j).

(** The body of [for var in (latitude_bounds, longitude_bounds)] (lines
    452 to 456): the outer rows and columns are extrapolated. *)
Definition grid_edges (n m : nat) (b1 : grid2) : result grid2 :=
  let rows := S n in
  let cols := S m in
  (* the rows 1, 2, -2 and -3 and the columns 1, 2, -2 and -3 exist *)
  if (rows <? 3) || (cols <? 3) then Raise IndexError
  else
    (* var[0, 1:-1] = var[1, 1:-1] - (var[2, 1:-1] - var[1, 1:-1]) *)
    let b2 : grid2 := fun i j =>
      if bool_decide (i = 0) && inside 1 m j
      then nsub (b1 1 j) (nsub (b1 2 j) (b1 1 j)) else b1 i j in
    (* var[-1, 1:-1] = var[-2, 1:-1] + (var[-2, 1:-1] - var[-3, 1:-1]) *)
    let b3 : grid2 := fun i j =>
      if bool_decide (i = n) && inside 1 m j
      then nadd (b2 (n - 1) j) (nsub (b2 (n - 1) j) (b2 (n - 2) j))
      else b2 i j in
    (* var[:, 0] = var[:, 1] - (var[:, 2] - var[:, 1]) *)
    let b4 : grid2 := fun i j =>
      if inside 0 rows i && bool_decide (j = 0)
      then nsub (b3 i 1) (nsub (b3 i 2) (b3 i 1)) else b3 i j in
    (* var[:, -1] = var[:, -2] + (var[:, -2] - var[:, -3]) *)
    let b5 : grid2 := fun i j =>
      if inside 0 rows i && bool_decide (j = m)
      then nadd (b4 i (m - 1)) (nsub (b4 i (m - 1)) (b4 i (m - 2)))
      else b4 i j in
    Ok b5.

(** The polygon of the cell [(i, j)]: its corners at the offsets
    [[0,0], [1,0], [1,1], [0,1], [0,0]], longitude first. *)
Definition cell_polygon (lat_b lon_b : grid2) (i j : nat) : geometry num :=
  Polygon (map (fun '(di, dj) => (lon_b (i + di) (j + dj), lat_b (i + di) (j + dj)))
               [(0, 0); (1, 0); (1, 1); (0, 1); (0, 0)]).

(** [list(a)]: the elements of an array of one axis.  An array without
    axis is not iterable; an element of the list of an array of more axes
    is a row, which is no number: it is given as a slot that [as_number]
    refuses. *)
Definition list_1d (a : ndarray (scalar num)) : result (list (scalar num)) :=
  match nd_shape a with
  | [] => Raise TypeError
  | [_] => Ok (nd_data a)
  | n :: _ => Ok (replicate n SEmpty)
  end.

(** [result[:] = map(lambda loc: Point( *loc), locations)] into an array of
    [n] elements: a list of one element is repeated. *)
Definition assign_points (n : nat) (pts : list (geometry num))
  : result (list (option (geometry num))) :=
  if bool_decide (length pts = n) then Ok (Some <$> pts)
  else match pts with
       | [p] => Ok (replicate n (Some p))
       | _ => Raise ValueError
       end.

(** [Field.geometries].  It returns the field with its cache and the
    array.  [id] numbers the storage objects of the broadcast
    coordinates; [lat_junk] and [lon_junk] are the initial contents of
    the two bounds arrays. *)
Definition Field_geometries (self : Field num T) (id : oid)
    (lat_junk lon_junk : grid2)
  : result (Field num T * ndarray (option (geometry num))) :=
  match _geometries self with
  | Some g => Ok (self, g)
  | None =>
      latv ← latitudes self id;
      let lats := ndarray_of latv in
      lonv ← longitudes self (S id);
      let lons := ndarray_of lonv in
      vertical ← (if dmem (coordinate_variables self) "vertical"
                  then v ← require (coordinate self "vertical") KeyError;
                       Ok (Some (ndarray_of v))
                  else Ok None);
      let shp := nd_shape lats in
      let empty := mkNd shp (replicate (prod_shape shp) None) in
      res ←
        match shp with
        | [n] =>
            (* discrete point geometries *)
            lon ← list_1d lons;
            lat ← list_1d lats;
            locations ←
              match vertical with
              | Some vs =>
                  z ← list_1d vs;
                  Ok (zip_with (fun xy z => [xy.1; xy.2; z]) (zip lon lat) z)
              | None => Ok (zip_with (fun x y => [x; y]) lon lat)
              end;
            pts ← mapM (fun loc => Point <$> mapM as_number loc) locations;
            cells ← assign_points n pts;
            Ok (mkNd shp cells)
        | [n; m] =>
            (* rectangular grid *)
            lat ← mapM as_number (nd_data lats);
            lat_b ← grid_interior n m (nd_shape lats) lat lat_junk;
            lon ← mapM as_number (nd_data lons);
            lon_b ← grid_interior n m (nd_shape lons) lon lon_junk;
            lat_b ← grid_edges n m lat_b;
            lon_b ← grid_edges n m lon_b;
            Ok (mkNd shp (flat_map (fun i =>
                            map (fun j => Some (cell_polygon lat_b lon_b i j))
                                (seq 0 m)) (seq 0 n)))
        | _ => Ok empty
        end;
      Ok (mkField (variable self) (coordinate_variables self)
                  (ancil_variables self) (Some res), res)
  end.
End FieldGeometries.

(** ** GroupBy *)

(** The class [GroupBy] for group keys of type [K] and weights of type [W];
    a group is a Python list of subscripts. *)
Record GroupBy (K W : Type) : Type := mkGroupBy {
  gb_coordinate : string;
  groups : dict K (list index);
  weights : W
}.
Arguments mkGroupBy {K W} gb_coordinate groups weights.
Arguments gb_coordinate {K W} g.
Arguments groups {K W} g.
Arguments weights {K W} g.

(** What [groupby] hands to the grouping function: the dense array of the
    times, the coordinate variable sliced by [[:]], or the geometries. *)
Inductive coordinate_values (num T : Type) : Type :=
  | TimeValues (a : ndarray (scalar num))
  | VariableValues (v : Var T)
  | GeometryValues (g : ndarray (option (geometry num))).
Arguments TimeValues {num T} a.
Arguments VariableValues {num T} v.
Arguments GeometryValues {num T} g.

Section FieldGroupBy.
Context {num T : Type} `{Numeric num} `{Array num T}.
Context {K W : Type} `{EqDecision K}.

(** [t.index(x)] of a tuple *)
Fixpoint tuple_index (t : list nat) (x : nat) : option nat :=
  match t with
  | [] => None
  | y :: t' => if decide (x = y) then Some 0%nat else S <$> tuple_index t' x
  end.

(** [for dim in mapping: s[dim] = group[mapping.index(dim)]] *)
Fixpoint assign_group (m : mapping) (dims : list nat) (group s : list index)
  : result (list index) :=
  match dims with
  | [] => Ok s
  | dim :: dims' =>
      k ← require (tuple_index m dim) ValueError;
      g ← py_index group (Z.of_nat k);
      s' ← py_setitem s (Z.of_nat dim) g;
      assign_group m dims' group s'
  end.

(** One turn of the loop that turns a run of positions into a slice. *)
Definition simplify_dim (s : list index) (dim : nat) : result (list index) :=
  e ← py_index s (Z.of_nat dim);
  match e with
  | List l =>
      last ← py_index l (-1);
      first ← py_index l 0;
      if last - first + 1 =? Z.of_nat (length l)
      then py_setitem s (Z.of_nat dim) (Slice (Some first) (Some (last + 1)))
      else Ok s
  | _ => Ok s
  end.

Fixpoint simplify_group (dims : list nat) (s : list index)
  : result (list index) :=
  match dims with
  | [] => Ok s
  | dim :: dims' => s' ← simplify_dim s dim; simplify_group dims' s'
  end.

(** The loop over [groups.items()]: the list [s] is shared by all the
    turns, each turn stores a copy of it under its key. *)
Fixpoint groupby_loop (m : mapping) (items : list (K * list index))
    (s : list index) (grps : dict K (list index))
  : result (dict K (list index)) :=
  match items with
  | [] => Ok grps
  | (key, group) :: items' =>
      s ← assign_group m m group s;
      s ← simplify_group m s;
      groupby_loop m items' s (dset grps key s)
  end.

(** [self.coordinate_variables['latitude'] ==
    self.coordinate_variables['longitude'][0]]: a pair of a tuple and a
    variable against a tuple of integers, which are never equal. *)
Definition pair_eq_tuple (p : mapping * Var T) (t : mapping) : bool := false.

(** [Field.groupby].  [func] is the grouping function with its keyword
    arguments.  The method returns the field too, whose cache the call of
    [geometries] may have filled. *)
Definition Field_groupby (self : Field num T) (coord : string)
    (func : coordinate_values num T -> result (dict K (list index) * W))
    (id : oid) (lat_junk lon_junk : grid2)
  : result (Field num T * GroupBy K W) :=
  '(self', m, values) ←
    match dget (coordinate_variables self) coord with
    | Some (m, coordinate_variable) =>
        if bool_decide (coord = "time") then
          ts ← times self; Ok (self, m, TimeValues ts)
        else
          v ← Variable_getitem coordinate_variable (Sub1 slice_None) id;
          Ok (self, m, VariableValues v)
    | None =>
        if bool_decide (coord = "geometry") then
          lat ← require (dget (coordinate_variables self) "latitude") KeyError;
          lon ← require (dget (coordinate_variables self) "longitude") KeyError;
          let m := if pair_eq_tuple lat lon.1 then lat.1
                   else (lat.1 ++ lon.1)%list in
          '(self', g) ← Field_geometries self id lat_junk lon_junk;
          Ok (self', m, GeometryValues g)
        else Raise FieldError
    end;
  '(grps, wts) ← func values;
  let s := replicate (length (Field_shape self)) slice_None in
  grps' ← groupby_loop m grps s grps;
  Ok (self', mkGroupBy coord grps' wts).
End FieldGroupBy.

(** ** apply

    [apply] writes into storage objects.  The objects it writes to are
    looked up by name in a dict that also holds variables of the field, so
    the writes are kept in a store that maps the identity of a storage
    object to its present state, and every read goes through the store. *)

Section FieldApply.
Context {num T : Type} `{Numeric num} `{Array num T}.
Context {K W : Type} `{EqDecision K}.

Definition store : Type := dict oid T.

(** The variable [v] with the present state of its storage. *)
Definition current (st : store) (v : Var T) : Var T :=
  match dget st (arr_id (_data v)) with
  | Some d => mkVariable (_dimensions v) (_dtype v) (name v) (_attributes v)
                         (dataset v) d
  | None => v
  end.

(** [v[s] = values] *)
Definition write (st : store) (v : Var T) (s : subscript)
    (values : ndarray (scalar num)) : result store :=
  v' ← Variable_setitem (current st v) s values;
  Ok (dset st (arr_id (_data v)) (_data v')).

(** The loop over the coordinate variables that fills [variables]; the
    grouped coordinate gets a new variable on the new dimension [dim],
    whose storage is the object [id]. *)
Fixpoint apply_coordinates (coord : string) (dim : Dimension)
    (items : list (string * (mapping * Var T)))
    (variables : dict (option string) (Var T)) (id : oid)
  : result (dict (option string) (Var T)) :=
  match items with
  | [] => Ok variables
  | (nm, var) :: items' =>
      if bool_decide (nm = coord) then
        v ← Variable_init [DimInstance dim] (_dtype var.2) None
               (AttrDict (attributes var.2)) None DataNone numpyArray_class id;
        apply_coordinates coord dim items' (dset variables (name var.2) v) id
      else
        apply_coordinates coord dim items' (dset variables (name var.2) var.2) id
  end.

(** The loop over the ancillary variables. *)
Definition apply_ancil (items : list (string * (mapping * Var T)))
    (variables : dict (option string) (Var T))
  : dict (option string) (Var T) :=
  foldl (fun vars '(nm, var) => dset vars (Some nm) var.2) variables items.

(** The right-hand side of the assignment to the new coordinate: the
    last coordinate value of the group.  [id] names the storage objects
    of the intermediate variables. *)
Definition last_coordinate (st : store) (coordinate_variable : Var T)
    (g : index) (id : oid) : result (ndarray (scalar num)) :=
  match g with
  | Slice _ stop =>
      stop ← require stop TypeError;
      c ← Variable_getitem (current st coordinate_variable)
                           (Sub1 (Int (stop - 1))) id;
      Ok (ndarray_of c)
  | _ =>
      c ← Variable_getitem (current st coordinate_variable) (Sub1 g) id;
      c ← Variable_getitem c (Sub1 (Int (-1))) (S id);
      Ok (ndarray_of c)
  end.

(** The loop over [groupby.groups.items()] with its counter [i]. *)
Fixpoint apply_loop (self : Field num T) (coord : string) (m0 : nat)
    (coordinate_variable new_variable : Var T)
    (variables : dict (option string) (Var T))
    (func : ndarray (scalar num) -> nat -> result (ndarray (scalar num)))
    (id : oid) (items : list (K * list index)) (i : nat) (st : store)
  : result store :=
  match items with
  | [] => Ok st
  | (key, group) :: items' =>
      sub ← Variable_getitem (current st (variable self))
                             (SubSeq group) id;
      r ← func (ndarray_of sub) m0;
      st ← write st new_variable (Sub1 (Int (Z.of_nat i))) r;
      g ← py_index group (Z.of_nat m0);
      c ← last_coordinate st coordinate_variable g id;
      target ← require (dget variables (Some coord)) KeyError;
      st ← write st target (Sub1 (Int (Z.of_nat i))) c;
      apply_loop self coord m0 coordinate_variable new_variable variables func
                 id items' (S i) st
  end.

(** [Field.apply].  [func] is the reducing function with its keyword
    arguments; the storage objects that the call creates are numbered
    from [id].  The method returns the dataset and the new field; they
    are given as they are when it returns, together with the store. *)
Definition Field_apply (self : Field num T) (groupby : GroupBy K W)
    (func : ndarray (scalar num) -> nat -> result (ndarray (scalar num)))
    (id : oid) : result (Dataset T * Field num T * store) :=
  let coord := gb_coordinate groupby in
  match dget (coordinate_variables self) coord with
  | None => Raise NameError
  | Some (m, coordinate_variable) =>
      if (1 <? length m)%nat then Raise FieldError
      else
        let dims := dimensions (variable self) in
        m0 ← require (m !! 0%nat) IndexError;
        old ← py_index dims (Z.of_nat m0);
        dim ← Dimension_init (dim_name old)
                (Z.of_nat (length (groups groupby))) (PBool true);
        dims ← py_setitem dims (Z.of_nat m0) dim;
        var ← Variable_init (DimInstance <$> dims) (_dtype (variable self))
                (name (variable self))
                (AttrDict (attributes (variable self))) None DataNone
                numpyArray_class id;
        let variables := dset [] (name (variable self)) var in
        dim' ← py_index dims (Z.of_nat m0);
        variables ← apply_coordinates coord dim' (coordinate_variables self)
                      variables (S id);
        let variables := apply_ancil (ancil_variables self) variables in
        st ← apply_loop self coord m0 coordinate_variable var variables func
               (S (S id)) (groups groupby) 0 [];
        attrs ← require (dataset (variable self)) AttributeError;
        Ok (mkDataset dims attrs ((fun kv => (kv.1, current st kv.2)) <$> variables),
            Field_init (current st var), st)
  end.
End FieldApply.

(** ** Features

    [Field.feature_collection(values)] for a [values] that is neither
    ['last'] nor ['last_valid'], as the default [None] is: the two
    branches that read the data and the times are not taken. *)

(** A feature: the coordinates of its point and its properties.  The
    constant entries of the dicts (the types [Feature] and [Point]) are
    left out.  A property is a numpy value: an array, or a scalar as an
    array without axes. *)
Record feature (num : Type) : Type := mkFeature {
  ft_coordinates : list num;
  ft_properties : dict string (ndarray (scalar num))
}.
Arguments mkFeature {num} ft_coordinates ft_properties.
Arguments ft_coordinates {num} f.
Arguments ft_properties {num} f.

(** What the method returns: the collection of the features, or the dict
    [{'featureType': 'gridded'}]. *)
Inductive feature_collection (num : Type) : Type :=
  | FeatureCollection (features : list (feature num))
  | Gridded.
Arguments FeatureCollection {num} features.
Arguments Gridded {num}.

(** [a[k]] of a numpy array for an integer [k]: the element, or the
    sub-array, at the position [k] of the first axis. *)
Definition nd_item {A} (a : ndarray A) (k : Z) : result (ndarray A) :=
  match nd_shape a with
  | [] => Raise IndexError
  | n :: sh =>
      match norm_index n k with
      | None => Raise IndexError
      | Some p =>
          let stride := prod_shape sh in
          Ok (mkNd sh (take stride (drop (p * stride) (nd_data a))))
      end
  end.

Section FieldFeatures.
Context {num T : Type} `{Numeric num} `{Array num T}.

(** [float(a)] of a numpy value: defined on one element. *)
Definition float_of (a : ndarray (scalar num)) : result num :=
  match nd_data a with
  | [e] => py_float e
  | _ => Raise TypeError
  end.

(** The list [coordinates] of the feature [feature_id]. *)
Definition feature_coordinates (self : Field num T) (feature_id : nat)
    (id : oid) : result (list num) :=
  lonv ← longitudes self id;
  lon ← nd_item (ndarray_of lonv) (Z.of_nat feature_id);
  x ← float_of lon;
  latv ← latitudes self id;
  lat ← nd_item (ndarray_of latv) (Z.of_nat feature_id);
  y ← float_of lat;
  if dmem (coordinate_variables self) "vertical" then
    v ← require (coordinate self "vertical") AttributeError;
    z ← nd_item (ndarray_of v) (Z.of_nat feature_id);
    z ← float_of z;
    Ok [x; y; z]
  else Ok [x; y].

(** The loop over [self.ancil_variables.items()] that fills [properties];
    the storage objects that the subscripts create are numbered from
    [id]. *)
Fixpoint feature_properties (items : list (string * (mapping * Var T)))
    (feature_id : nat) (properties : dict string (ndarray (scalar num)))
    (id : oid) : result (dict string (ndarray (scalar num))) :=
  match items with
  | [] => Ok properties
  | (nm, m) :: items' =>
      v ← Variable_getitem m.2 (Sub1 (Int (Z.of_nat feature_id))) id;
      x ← nd_item (ndarray_of v) 0;
      feature_properties items' feature_id (dset properties nm x) (S id)
  end.

(** The loop over [range(self.longitudes.shape[0])]. *)
Fixpoint features_loop (self : Field num T) (range : list nat) (id : oid)
    (features : list (feature num)) : result (list (feature num)) :=
  match range with
  | [] => Ok features
  | feature_id :: range' =>
      coordinates ← feature_coordinates self feature_id id;
      properties ← feature_properties (ancil_variables self) feature_id [] id;
      features_loop self range' (id + length (ancil_variables self))%nat
                    (features ++ [mkFeature coordinates properties])
  end.

(** The test [len(self.latitudes.shape) == 1 and
    len(self.longitudes.shape) == 1 and (self.coordinate_variables
    ['latitude'][0] == self.coordinate_variables['longitude'][0])]. *)
Definition discrete_points (self : Field num T) (id : oid) : result bool :=
  latv ← latitudes self id;
  if bool_decide (length (shape latv) = 1%nat) then
    lonv ← longitudes self (S id);
    if bool_decide (length (shape lonv) = 1%nat) then
      lat ← require (dget (coordinate_variables self) "latitude") KeyError;
      lon ← require (dget (coordinate_variables self) "longitude") KeyError;
      Ok (bool_decide (lat.1 = lon.1))
    else Ok false
  else Ok false.

(** [Field.feature_collection] *)
Definition Field_feature_collection (self : Field num T) (id : oid)
  : result (feature_collection num) :=
  points ← discrete_points self id;
  if (points : bool) then
    lat ← require (dget (coordinate_variables self) "latitude") KeyError;
    feature_dim ← require (lat.1 !! 0%nat) IndexError;
    lonv ← longitudes self (S (S id));
    n ← require (shape lonv !! 0%nat) IndexError;
    features ← features_loop self (seq 0 (Z.to_nat n)) (S (S (S id))) [];
    Ok (FeatureCollection features)
  else Ok Gridded.
End FieldFeatures.

(** ** Other methods of [Dimension] *)

(** [Dimension.__ne__] *)
Definition Dimension_neb (d other : Dimension) : bool :=
  negb (Dimension_eqb d other).

(** [Dimension.asjson]: the dict [{'name': self.name, 'size': self.size}]. *)
Definition Dimension_asjson (d : Dimension) : dict string pyval :=
  [("name", PStr (dim_name d)); ("size", PInt (size d))].

(** ** Vocabulary of the statements *)

(** A keyword is ignored by [map] when it names no coordinate variable and
    either names no ancillary variable or is [_method]; [subset] resolves a
    keyword among the coordinate and the ancillary variables. *)
Definition ignored_by_map {num T : Type} (self : Field num T) (k : string)
  : Prop :=
  dget (coordinate_variables self) k = None /\
  (k = "_method" \/ dget (ancil_variables self) k = None).

Definition ignored_by_subset {num T : Type} (self : Field num T) (k : string)
  : Prop :=
  dget (coordinate_variables self) k = None /\
  dget (ancil_variables self) k = None.

(** The variable that a keyword of [map] or of [subset] names: a
    coordinate variable, or else an ancillary variable. *)
Definition resolve {num T : Type} (self : Field num T) (nm : string)
  : option (mapping * Var T) :=
  match dget (coordinate_variables self) nm with
  | Some found => Some found
  | None => dget (ancil_variables self) nm
  end.

(** An element [e] at the position [j] of the list that [map] returns for
    the keywords [kws]: [slice(None)], or an integer that is a valid
    position on an axis [t] of the variable of a keyword whose mapping
    sends [t] to [j]. *)
Definition map_entry {num T : Type} `{Array num T} (self : Field num T)
    (kws : list string) (j : nat) (e : index) : Prop :=
  e = slice_None \/
  exists (k t : nat) (nm : string) (m : mapping) (var : Var T) (n : Z),
    e = Int (Z.of_nat k) /\ nm ∈ kws /\ resolve self nm = Some (m, var) /\
    m !! t = Some j /\ shape var !! t = Some n /\ Z.of_nat k < n.

(** The distance that [map] computes for a single numeric keyword of
    value [x] at an element [y] of the coordinate:
    [sqrt(0 + (y - x) ** 2)]. *)
Definition distance_to {num : Type} `{Numeric num} (x y : num) : num :=
  nsqrt (nadd nzero (npow2 (nsub y x))).

(** [k] is the first position of a smallest element of [l], by the order
    [nltb] of the numbers. *)
Definition first_smallest {num : Type} `{Numeric num} (l : list num) (k : nat)
  : Prop :=
  exists xk, l !! k = Some xk /\
    (forall j xj, l !! j = Some xj -> nltb xj xk = false) /\
    (forall j xj, (j < k)%nat -> l !! j = Some xj -> nltb xk xj = true).


(** A list of positions in increasing order. *)
Fixpoint increasing (l : list Z) : Prop :=
  match l with
  | a :: (b :: _) as l' => a < b /\ increasing l'
  | _ => True
  end.

(** The four assignments of the loop over the bounds arrays of
    [geometries], one after the other: the first row, the last row, the
    first column and the last column of the bounds of [n] by [m] cells. *)
Definition first_row {num : Type} `{Numeric num} (m : nat) (b : grid2)
  : grid2 :=
  fun i j =>
    if bool_decide (i = 0%nat) && inside 1 m j
    then nsub (b 1%nat j) (nsub (b 2%nat j) (b 1%nat j)) else b i j.

Definition last_row {num : Type} `{Numeric num} (n m : nat) (b : grid2)
  : grid2 :=
  fun i j =>
    if bool_decide (i = n) && inside 1 m j
    then nadd (b (n - 1)%nat j) (nsub (b (n - 1)%nat j) (b (n - 2)%nat j))
    else b i j.

Definition first_column {num : Type} `{Numeric num} (n : nat) (b : grid2)
  : grid2 :=
  fun i j =>
    if inside 0 (S n) i && bool_decide (j = 0%nat)
    then nsub (b i 1%nat) (nsub (b i 2%nat) (b i 1%nat)) else b i j.

Definition last_column {num : Type} `{Numeric num} (n m : nat) (b : grid2)
  : grid2 :=
  fun i j =>
    if inside 0 (S n) i && bool_decide (j = m)
    then nadd (b i (m - 1)%nat) (nsub (b i (m - 1)%nat) (b i (m - 2)%nat))
    else b i j.

(** The dimension-index-tuple that [groupby] resolves for a coordinate:
    the mapping of the coordinate variable, or the mappings of latitude
    and longitude one after the other for [geometry]. *)
Definition groupby_mapping {num T : Type} (self : Field num T)
    (coord : string) : option mapping :=
  match dget (coordinate_variables self) coord with
  | Some (m, _) => Some m
  | None =>
      if bool_decide (coord = "geometry") then
        lat ← dget (coordinate_variables self) "latitude";
        lon ← dget (coordinate_variables self) "longitude";
        Some (lat.1 ++ lon.1)
      else None
  end.

(** The invariant of a group: one subscript for each of the [rank]
    dimensions of the data, and [slice(None)] wherever the mapping [m] has
    no dimension. *)
Definition group_invariant (m : mapping) (rank : nat) (spec : list index)
  : Prop :=
  length spec = rank /\
  forall j, (j < rank)%nat -> j ∉ m -> spec !! j = Some slice_None.

(** The dimension that [__getitem__] derives from a dimension and an
    extent. *)
Definition resized (p : Dimension * Z) : Dimension :=
  mkDimension (dim_name p.1) p.2 (fixed p.1).

(** The position of the last coordinate value of a group, as the
    specification gives it: [stop - 1] for a slice, the last listed
    position for a list (or an array) of positions, the position itself
    for a single one. *)
Definition last_position (g : index) : option Z :=
  match g with
  | Slice _ (Some stop) => Some (stop - 1)
  | Slice _ None => None
  | Int k => Some k
  | List l | Arr l => list.last l
  end.

(** The coordinate variable of the role [coord] carries the name of the
    role, no other coordinate variable does, and no ancillary variable is
    registered under it: the dataset of [apply] then holds the new
    coordinate variable under that name. *)
Definition stored_under_role {num T : Type} (self : Field num T)
    (coord : string) : bool :=
  forallb (fun item : string * (mapping * Var T) =>
             eqb (bool_decide (name item.2.2 = Some coord))
                 (bool_decide (item.1 = coord)))
          (coordinate_variables self)
  && negb (dmem (ancil_variables self) coord).

(** The array of a variable as the store has it. *)
Definition array_in {num : Type} (st : dict nat (numpyArray num))
    (v : Var (numpyArray num)) : ndarray (scalar num) :=
  na_arr (_data (current st v)).

(** The new coordinate variable of [apply] before the loop: the object
    [id], an array of [G] slots that were never written. *)
Definition is_label {num : Type} (id G : nat) (v : Var (numpyArray num))
  : Prop :=
  na_id (_data v) = id /\ na_arr (_data v) = mkNd [G] (replicate G SEmpty).

(** The dimension after the assignments [d.size = v] for the values [vs],
    one after the other, each of which may raise. *)
Definition resize_all (d : Dimension) (vs : list pyval) : Dimension :=
  foldl (fun d v => (set_size d v).1) d vs.

(** ** Worked fields

    The inputs of the examples: variables with dense storage and integer
    numbers. *)

Definition example_variable (id : oid) (nm : string) (dims : list Dimension)
    (a : ndarray (scalar Z)) : Var (numpyArray Z) :=
  mkVariable dims DFloat (Some nm) [] (Some []) (mkNumpyArray id DFloat a).

Definition example_labels (id : oid) (nm : string) (dims : list Dimension)
    (a : ndarray (scalar Z)) : Var (numpyArray Z) :=
  mkVariable dims DStr (Some nm) [] (Some []) (mkNumpyArray id DStr a).

Definition numbers (l : list Z) : ndarray (scalar Z) :=
  mkNd [length l] (SNum <$> l).

Definition texts (l : list string) : ndarray (scalar Z) :=
  mkNd [length l] (SStr <$> l).

(** [range(lo, lo + n)] *)
Definition zrange (lo : Z) (n : nat) : list Z :=
  (fun k => lo + Z.of_nat k) <$> seq 0 n.

(** A latitude axis from -40 to 0 in steps of one degree, and a data
    variable along it. *)
Definition lat_dim : Dimension := mkDimension "lat" 41 true.
Definition lat_field : Field Z (numpyArray Z) :=
  mkField (example_variable 0 "tas" [lat_dim] (numbers (zrange 250 41)))
          [("latitude", ([0%nat], example_variable 1 "lat" [lat_dim]
                                    (numbers (zrange (-40) 41))))]
          [] None.

(** Three stations with a latitude and a label, both along the one
    dimension of the data. *)
Definition station_dim : Dimension := mkDimension "station" 3 true.
Definition station_field : Field Z (numpyArray Z) :=
  mkField (example_variable 0 "pr" [station_dim] (numbers [5; 6; 7]))
          [("latitude", ([0%nat], example_variable 1 "latitude" [station_dim]
                                    (numbers [0; 10; 10])));
           ("kind", ([0%nat], example_labels 2 "kind" [station_dim]
                                (texts ["a"; "b"; "a"])))]
          [] None.

(** A field whose latitude and longitude have three axes. *)
Definition cube_dims : list Dimension :=
  [mkDimension "z" 1 true; mkDimension "y" 1 true; mkDimension "x" 1 true].
Definition cube_field : Field Z (numpyArray Z) :=
  mkField (example_variable 0 "pr" cube_dims (mkNd [1; 1; 1]%nat [SNum 5]))
          [("latitude", ([0; 1; 2]%nat,
                         example_variable 1 "lat" cube_dims
                                          (mkNd [1; 1; 1]%nat [SNum (-34)])));
           ("longitude", ([0; 1; 2]%nat,
                          example_variable 2 "lon" cube_dims
                                           (mkNd [1; 1; 1]%nat [SNum 18])))]
          [] None.

(** The memory of a new bounds array in the examples. *)
Definition zero_junk : nat -> nat -> Z := fun _ _ => 0.

(** A single station at latitude -25. *)
Definition single_dim : Dimension := mkDimension "station" 1 true.
Definition single_field : Field Z (numpyArray Z) :=
  mkField (example_variable 0 "pr" [single_dim] (numbers [5]))
          [("latitude", ([0%nat], example_variable 1 "latitude" [single_dim]
                                    (numbers [-25])))]
          [] None.

(** Three stations with a latitude, a longitude and a name. *)
Definition point_field : Field Z (numpyArray Z) :=
  mkField (example_variable 0 "pr" [station_dim] (numbers [5; 6; 7]))
          [("latitude", ([0%nat], example_variable 1 "lat" [station_dim]
                                    (numbers [-34; -33; -26])));
           ("longitude", ([0%nat], example_variable 2 "lon" [station_dim]
                                     (numbers [18; 19; 28])))]
          [("name", ([0%nat], example_labels 3 "name" [station_dim]
                                (texts ["a"; "b"; "c"])))]
          None.

(** A grid of three latitudes by four longitudes. *)
Definition y_dim : Dimension := mkDimension "y" 3 true.
Definition x_dim : Dimension := mkDimension "x" 4 true.
Definition grid_field : Field Z (numpyArray Z) :=
  mkField (example_variable 0 "pr" [y_dim; x_dim]
                            (mkNd [3; 4]%nat (SNum <$> zrange 0 12)))
          [("latitude", ([0%nat], example_variable 1 "lat" [y_dim]
                                    (numbers [0; 2; 4])));
           ("longitude", ([1%nat], example_variable 2 "lon" [x_dim]
                                     (numbers [10; 12; 14; 16])))]
          [] None.

(** A grid of one latitude by three longitudes. *)
Definition strip_field : Field Z (numpyArray Z) :=
  mkField (example_variable 0 "pr"
             [mkDimension "y" 1 true; mkDimension "x" 3 true]
             (mkNd [1; 3]%nat [SNum 1; SNum 2; SNum 3]))
          [("latitude", ([0%nat], example_variable 1 "lat"
                                    [mkDimension "y" 1 true] (numbers [0])));
           ("longitude", ([1%nat], example_variable 2 "lon"
                                     [mkDimension "x" 3 true]
                                     (numbers [10; 12; 14])))]
          [] None.

(** A grid of two latitudes by three longitudes. *)
Definition two_row_field : Field Z (numpyArray Z) :=
  mkField (example_variable 0 "pr"
             [mkDimension "y" 2 true; mkDimension "x" 3 true]
             (mkNd [2; 3]%nat (SNum <$> zrange 0 6)))
          [("latitude", ([0%nat], example_variable 1 "lat"
                                    [mkDimension "y" 2 true] (numbers [0; 2])));
           ("longitude", ([1%nat], example_variable 2 "lon"
                                     [mkDimension "x" 3 true]
                                     (numbers [10; 12; 14])))]
          [] None.

(** Two years of monthly values, the months numbered from 0. *)
Definition time_dim : Dimension := mkDimension "time" 24 true.
Definition monthly_field : Field Z (numpyArray Z) :=
  mkField (example_variable 0 "pr" [time_dim] (numbers (zrange 100 24)))
          [("time", ([0%nat], example_variable 1 "time" [time_dim]
                                (numbers (zrange 0 24))))]
          [] None.

(** A grouping function: the positions of the values, in a Python list,
    under the key that [key_of] gives to the value. *)
Definition group_positions (key_of : Z -> Z) (vals : list (scalar Z))
  : dict Z (list index) :=
  foldl (fun d (p : nat * scalar Z) =>
           match p.2 with
           | SNum t =>
               let old := match dget d (key_of t) with
                          | Some [List l] => l
                          | _ => []
                          end in
               dset d (key_of t) [List (old ++ [Z.of_nat p.1])]
           | _ => d
           end)
        [] (imap (fun i e => (i, e)) vals).

Definition grouping_by (key_of : Z -> Z)
    (values : coordinate_values Z (numpyArray Z))
  : result (dict Z (list index) * unit) :=
  match values with
  | TimeValues a => Ok (group_positions key_of (nd_data a), tt)
  | VariableValues v => Ok (group_positions key_of (nd_data (ndarray_of v)), tt)
  | GeometryValues _ => Raise TypeError
  end.

(** By calendar year, and by the parity of the month. *)
Definition by_year := grouping_by (fun t => 1980 + t / 12).
Definition by_parity := grouping_by (fun t => t mod 2).

(** A grouping function for geometries: one group, of all the cells. *)
Definition all_in_one (values : coordinate_values Z (numpyArray Z))
  : result (dict Z (list index) * unit) :=
  match values with
  | GeometryValues g =>
      Ok ([(0, [List (Z.of_nat <$> seq 0 (length (nd_data g)))])], tt)
  | _ => Raise TypeError
  end.

(** [np.sum(a, axis=0)] of an array of one axis. *)
Definition sum_1d (a : ndarray (scalar Z)) (axis : nat)
  : result (ndarray (scalar Z)) :=
  match nd_shape a, axis with
  | [_], 0%nat =>
      xs ← mapM as_number (nd_data a);
      Ok (mkNd [] [SNum (foldr Z.add 0 xs)])
  | _, _ => Raise ValueError
  end.

(** The groups of the two years, as [groupby] returns them. *)
Definition yearly_groups : GroupBy Z unit :=
  mkGroupBy "time" [(1980, [Slice (Some 0) (Some 12)]);
                    (1981, [Slice (Some 12) (Some 24)])] tt.

(** The groups of the even and of the odd months. *)
Definition parity_groups : GroupBy Z unit :=
  mkGroupBy "time" [(0, [List [0; 2; 4; 6; 8; 10; 12; 14; 16; 18; 20; 22]]);
                    (1, [List [1; 3; 5; 7; 9; 11; 13; 15; 17; 19; 21; 23]])] tt.

(** The data and the labels of the dataset that [apply] returns. *)
Definition applied_values (gb : GroupBy Z unit) (nm : string)
  : result (option (list (scalar Z))) :=
  fmap (M:=result)
       (fun r : Dataset (numpyArray Z) * Field Z (numpyArray Z)
                * dict nat (numpyArray Z) =>
          fmap (M:=option) (fun v : Var (numpyArray Z) => nd_data (ndarray_of v))
               (dget (ds_variables r.1.1) (Some nm)))
       (Field_apply monthly_field gb sum_1d 20).

(** The same for any field of the examples. *)
Definition applied_values_of (self : Field Z (numpyArray Z))
    (gb : GroupBy Z unit) (nm : string)
  : result (option (list (scalar Z))) :=
  fmap (M:=result)
       (fun r : Dataset (numpyArray Z) * Field Z (numpyArray Z)
                * dict nat (numpyArray Z) =>
          fmap (M:=option) (fun v : Var (numpyArray Z) => nd_data (ndarray_of v))
               (dget (ds_variables r.1.1) (Some nm)))
       (Field_apply self gb sum_1d 20).

(** Bands of 20 degrees of latitude, and the groups of [lat_field] by
    band as [groupby] returns them. *)
Definition by_band := grouping_by (fun t => t / 20).
Definition band_groups : GroupBy Z unit :=
  mkGroupBy "latitude" [(-2, [Slice (Some 0) (Some 20)]);
                        (-1, [Slice (Some 20) (Some 40)]);
                        (0, [Slice (Some 40) (Some 41)])] tt.

(** Two years of monthly values whose time coordinate is the variable
    [t], with an ancillary variable that is registered as [time]. *)
Definition shadowed_field : Field Z (numpyArray Z) :=
  mkField (example_variable 0 "pr" [time_dim] (numbers (zrange 100 24)))
          [("time", ([0%nat], example_variable 1 "t" [time_dim]
                                (numbers (zrange 0 24))))]
          [("time", ([0%nat], example_variable 2 "time" [time_dim]
                                (numbers (zrange 500 24))))]
          None.

(** * Properties *)

Arguments subset_step : simpl never.
Arguments map_step : simpl never.
Arguments take_nd : simpl never.

(** ** Dimension *)

Lemma set_size_fixed (d : Dimension) (v : pyval) :
  fixed d = true -> set_size d v = (d, Raise ValueError).
Proof. intros Hf. unfold set_size. now rewrite Hf. Qed.

Lemma sys_maxint_nonneg : 0 <= sys_maxint.
Proof. discriminate. Qed.

Lemma in_int_range_spec (z : Z) :
  in_int_range z = true <-> - sys_maxint - 1 <= z <= sys_maxint.
Proof. unfold in_int_range. rewrite andb_true_iff, !Z.leb_le. tauto. Qed.

Lemma set_size_valid (d : Dimension) (n : Z) :
  fixed d = false -> 0 <= n <= sys_maxint ->
  set_size d (PInt n) = (mkDimension (dim_name d) n false, Ok tt).
Proof.
  intros Hf Hn. unfold set_size. rewrite Hf. cbn [py_ge0 as_int].
  destruct (Z.leb_spec 0 n) as [_|Hlt]; [|lia].
  assert (in_int_range n = true) as ->; [|reflexivity].
  apply in_int_range_spec. pose proof sys_maxint_nonneg. lia.
Qed.

Lemma set_size_invalid (d : Dimension) (v : pyval) :
  fixed d = false -> (forall n, 0 <= n <= sys_maxint -> v <> PInt n) ->
  set_size d v = (d, Raise TypeError).
Proof.
  intros Hf Hv. unfold set_size. rewrite Hf.
  destruct v as [z|z| |q| |]; cbn [py_ge0 as_int]; try reflexivity.
  - destruct (Z.leb_spec 0 z) as [Hz|_]; [|reflexivity].
    destruct (in_int_range z) eqn:Hr; [|reflexivity].
    apply in_int_range_spec in Hr. destruct (Hv z); [lia | reflexivity].
  - now destruct (0 <=? z).
  - now destruct (Qle_bool 0 q).
Qed.

(** A long is no valid size, whatever its value. *)
Lemma set_size_long (d : Dimension) (z : Z) :
  fixed d = false -> set_size d (PLong z) = (d, Raise TypeError).
Proof.
  intros Hf. unfold set_size. rewrite Hf. cbn [py_ge0 as_int].
  now destruct (0 <=? z).
Qed.

(** An integer beyond [sys.maxint] is a long. *)
Lemma py_integer_large (z : Z) : sys_maxint < z -> py_integer z = PLong z.
Proof.
  intros Hz. unfold py_integer.
  destruct (in_int_range z) eqn:Hr; [|reflexivity].
  apply in_int_range_spec in Hr. lia.
Qed.

Lemma py_integer_small (z : Z) :
  0 <= z <= sys_maxint -> py_integer z = PInt z.
Proof.
  intros Hz. unfold py_integer.
  assert (in_int_range z = true) as ->; [|reflexivity].
  apply in_int_range_spec. lia.
Qed.

(** C5, as the code has it.  Setting the size of a fixed dimension raises
    (ValueError, the immutable-dimension failure) and leaves the dimension
    as it was.  On a dimension that is not fixed, setting the size to a
    value of type [int] that is not negative, an integer [n] with
    [0 <= n <= sys.maxint], succeeds and the size is [n] afterwards.  Every
    other value raises (TypeError, the invalid-size failure) and leaves the
    dimension as it was; among them is every integer above [sys.maxint],
    which is a long, not negative though it is. *)
Theorem set_size_spec (d : Dimension) :
  (fixed d = true ->
     forall v, set_size d v = (d, Raise ValueError)) /\
  (fixed d = false ->
     (forall n, 0 <= n <= sys_maxint ->
        (set_size d (py_integer n)).2 = Ok tt /\
        size (set_size d (py_integer n)).1 = n) /\
     (forall v, (forall n, 0 <= n <= sys_maxint -> v <> PInt n) ->
        set_size d v = (d, Raise TypeError)) /\
     (forall n, sys_maxint < n ->
        set_size d (py_integer n) = (d, Raise TypeError))).
Proof.
  split.
  - intros Hf v. now apply set_size_fixed.
  - intros Hf. split; [|split].
    + intros n Hn. now rewrite py_integer_small, set_size_valid.
    + intros v Hv. now apply set_size_invalid.
    + intros n Hn. rewrite py_integer_large by exact Hn.
      now apply set_size_long.
Qed.

Lemma set_size_spec_witness :
  set_size (mkDimension "time" 10 true) (PInt 20)
    = (mkDimension "time" 10 true, Raise ValueError) /\
  size (set_size (mkDimension "test2" 10 false) (py_integer 20)).1 = 20 /\
  set_size (mkDimension "test2" 10 false) (PBool true)
    = (mkDimension "test2" 10 false, Raise TypeError) /\
  set_size (mkDimension "test2" 10 false) (py_integer (2 ^ 64))
    = (mkDimension "test2" 10 false, Raise TypeError).
Proof.
  split; [|split; [|split]].
  - apply (proj1 (set_size_spec (mkDimension "time" 10 true))); reflexivity.
  - apply (proj1 (proj2 (set_size_spec (mkDimension "test2" 10 false)) eq_refl)).
    split; discriminate.
  - apply (proj1 (proj2 (proj2 (set_size_spec (mkDimension "test2" 10 false))
                               eq_refl))).
    intros n _; discriminate.
  - apply (proj2 (proj2 (proj2 (set_size_spec (mkDimension "test2" 10 false))
                               eq_refl))).
    reflexivity.
Defined.

(** The sizes of C5 that are refused: [d.size = 5L] and [d.size = 2**63]
    assign a non-negative integer to a dimension that is not fixed, and
    both raise TypeError and leave the size at 10, because the value is a
    long and [type(size) == int] is false. *)
Lemma set_size_refuses_long :
  fixed (mkDimension "test2" 10 false) = false /\
  0 <= 5 /\
  set_size (mkDimension "test2" 10 false) (PLong 5)
    = (mkDimension "test2" 10 false, Raise TypeError) /\
  0 <= 2 ^ 63 /\
  py_integer (2 ^ 63) = PLong (2 ^ 63) /\
  set_size (mkDimension "test2" 10 false) (py_integer (2 ^ 63))
    = (mkDimension "test2" 10 false, Raise TypeError).
Proof. repeat split; discriminate. Qed.

(** The constructor rejects a [fixed] that is not a boolean. *)
Lemma Dimension_init_not_bool (nm : string) (sz : Z) (v : pyval) :
  type_is_bool v = false -> Dimension_init nm sz v = Raise TypeError.
Proof. now destruct v. Qed.

(** The constructor accepts any size when [fixed] is a boolean. *)
Lemma Dimension_init_any_size (nm : string) (sz : Z) (b : bool) :
  Dimension_init nm sz (PBool b) = Ok (mkDimension nm sz b).
Proof. reflexivity. Qed.

(** C6.  The constructor does not look at the size: [Dimension('x', -1)]
    returns a dimension of size -1, where the specification has a
    failure. *)
Theorem Dimension_init_negative_size :
  Dimension_init "x" (-1) (PBool true) = Ok (mkDimension "x" (-1) true) /\
  size (mkDimension "x" (-1) true) < 0.
Proof. split; [reflexivity | reflexivity]. Qed.

(** ** Coordinate lookup *)

(** A comparison term takes the place of the running distance, whatever
    was accumulated in it. *)
Lemma accumulate_categorical {num T : Type} `{Numeric num} `{Array num T}
    (kwargs : dict string (scalar num)) (dist : distance) (nm s : string)
    (m : mapping) (var : Var T) (d : ndarray num) :
  dget kwargs nm = Some (SStr s) ->
  nparse s = None ->
  ne_int (ndarray_of var) (SStr s) = Ok d ->
  accumulate kwargs dist (nm, (m, var)) = (true, d).
Proof.
  intros Hget Hparse Hne. unfold accumulate. rewrite Hget. simpl.
  rewrite Hparse. simpl in Hne |- *. now rewrite Hne.
Qed.

(** C3.  [map(latitude=10, kind='a')] on three stations of latitudes 0, 10
    and 10 and kinds a, b and a.  The squared differences of the latitude
    are 100, 0 and 0 and the comparison of the kind gives 0, 1 and 0; the
    distance after both keywords is the comparison alone, so the lookup
    answers station 0, which is 10 degrees away, and not station 2, which
    matches both keywords and is where the sum of the two terms is
    smallest.  With the keywords in the other order the
    latitude is compared for equality and the kind is lost. *)
Theorem map_label_overrides_distance :
  let lat := example_variable 1 "latitude" [station_dim] (numbers [0; 10; 10]) in
  let kind := example_labels 2 "kind" [station_dim] (texts ["a"; "b"; "a"]) in
  let kwargs := [("latitude", SNum 10); ("kind", SStr "a")] in
  sq_diff (ndarray_of lat) 10 = Ok (mkNd [3%nat] [100; 0; 0]) /\
  ne_int (ndarray_of kind) (SStr "a") = Ok (mkNd [3%nat] [0; 1; 0]) /\
  foldl (accumulate kwargs) (false, mkNd [3%nat] [0; 0; 0])
        (coordinate_variables station_field)
    = (true, mkNd [3%nat] [0; 1; 0]) /\
  np_argmin (np_sqrt (mkNd [3%nat] (zip_with Z.add [100; 0; 0] [0; 1; 0])))
    = Ok 2%nat /\
  Field_map station_field kwargs = Ok [Int 0] /\
  Field_map station_field [("kind", SStr "a"); ("latitude", SNum 10)]
    = Ok [Int 1].
Proof. repeat split; vm_compute; reflexivity. Qed.

(** ** Geometries *)

(** With an empty cache and coordinates of a rank other than 1 and 2, no
    branch fills the array: the method returns it as it was created. *)
Lemma geometries_other_rank {num T : Type} `{Numeric num} `{Array num T}
    (self : Field num T) (id : oid) (lat_junk lon_junk : grid2)
    (latv lonv : Var T) :
  _geometries self = None ->
  latitudes self id = Ok latv ->
  longitudes self (S id) = Ok lonv ->
  dmem (coordinate_variables self) "vertical" = false ->
  (2 < length (nd_shape (ndarray_of latv)))%nat ->
  let shp := nd_shape (ndarray_of latv) in
  let res := mkNd shp (replicate (prod_shape shp) None) in
  Field_geometries self id lat_junk lon_junk
    = Ok (mkField (variable self) (coordinate_variables self)
                  (ancil_variables self) (Some res), res).
Proof.
  intros Hcache Hlat Hlon Hvert Hrank. cbv zeta.
  unfold Field_geometries. rewrite Hcache, Hlat. simpl.
  rewrite Hlon. simpl. rewrite Hvert. simpl.
  destruct (nd_shape (ndarray_of latv)) as [|a [|b [|c shp]]];
    simpl in Hrank; try lia.
  reflexivity.
Qed.

(** C9.  [geometries()] on a field whose latitude and longitude have the
    shape (1, 1, 1): the call returns an array of that shape whose only
    element is [None], and caches it, where the specification has a
    failure. *)
Theorem geometries_rank3_returns :
  let res := mkNd [1; 1; 1]%nat [None] in
  Field_geometries cube_field 10 zero_junk zero_junk
    = Ok (mkField (variable cube_field) (coordinate_variables cube_field)
                  (ancil_variables cube_field) (Some res), res).
Proof. vm_compute. reflexivity. Qed.

(** ** Subsetting *)

(** C2.  [subset(latitude=(-30, -20))] on a latitude from -40 to 0 in
    steps of one degree.  The positions that are not excluded are 10 to
    20, a run of 11, and the subscript of the dimension stays
    [slice(0, 41)], the whole dimension, where the specification has
    [slice(10, 21)]. *)
Theorem subset_contiguous_keeps_full_dimension :
  let kwargs := [("latitude", Bounds [SNum (-30); SNum (-20)])] in
  fmap (M:=result)
       (fun ms : list (mapping * ndarray bool) =>
          map (fun kv => np_nonzero_not kv.2) ms)
       (subset_mappings lat_field kwargs []) = Ok [[seq 10 11]] /\
  subset_slices lat_field kwargs = Ok [Slice (Some 0) (Some 41)] /\
  fmap (M:=result) (fun f => shape (variable f))
       (Field_subset lat_field kwargs 10) = Ok [41].
Proof. repeat split; vm_compute; reflexivity. Qed.

(** A run of positions without a gap leaves the subscript of a
    one-dimensional mapping as it is. *)
Lemma subset_axis_contiguous (m : mapping) (nz : list nat)
    (subset : list index) (start stop : nat) :
  np_min nz = Ok start -> np_max nz = Ok stop ->
  (stop - start + 1 <= length nz)%nat ->
  subset_axis m [nz] subset 0 = Ok subset.
Proof.
  intros Hmin Hmax Hrun. unfold subset_axis. simpl.
  rewrite Hmin, Hmax. simpl.
  destruct (Nat.ltb_spec (length nz) (stop - start + 1)); [lia | reflexivity].
Qed.

(** ** Dictionaries *)

Section DictFacts.
Context {K V : Type} `{EqDecision K}.

Lemma dget_None_keys (d : dict K V) (k : K) :
  dget d k = None <-> k ∉ keys d.
Proof.
  induction d as [|[k' v] d IH]; simpl.
  - split; [intros _; apply not_elem_of_nil | reflexivity].
  - destruct (decide (k = k')) as [->|Hne].
    + split; [discriminate | intros Hn; destruct Hn; left].
    + rewrite IH. rewrite not_elem_of_cons. tauto.
Qed.

Lemma dget_Some_keys (d : dict K V) (k : K) (v : V) :
  dget d k = Some v -> k ∈ keys d.
Proof.
  intros Hget. destruct (decide (k ∈ keys d)) as [|Hn]; [assumption|].
  apply dget_None_keys in Hn. congruence.
Qed.

Lemma dget_dset_eq (d : dict K V) (k : K) (v : V) :
  dget (dset d k v) k = Some v.
Proof.
  induction d as [|[k' v'] d IH]; simpl.
  - now rewrite decide_True.
  - destruct (decide (k = k')) as [->|Hne]; simpl.
    + now rewrite decide_True.
    + now rewrite decide_False.
Qed.

Lemma dget_dset_ne (d : dict K V) (k k' : K) (v : V) :
  k ≠ k' -> dget (dset d k v) k' = dget d k'.
Proof.
  intros Hne. induction d as [|[k0 v0] d IH]; simpl.
  - now rewrite decide_False by congruence.
  - destruct (decide (k = k0)) as [->|Hne0]; simpl.
    + now rewrite !decide_False by congruence.
    + destruct (decide (k' = k0)); [reflexivity | assumption].
Qed.

Lemma keys_dset (d : dict K V) (k k' : K) (v : V) :
  k' ∈ keys (dset d k v) -> k' = k ∨ k' ∈ keys d.
Proof.
  induction d as [|[k0 v0] d IH]; simpl.
  - rewrite list_elem_of_singleton. tauto.
  - destruct (decide (k = k0)) as [->|Hne]; simpl.
    + tauto.
    + rewrite !elem_of_cons. intros [->|Hin]; [tauto|].
      destruct (IH Hin); tauto.
Qed.

(** A binding that is added to a dict, or taken out of it, does not show
    in the lookups of the other keys. *)
Lemma dget_insert_middle (d1 d2 : dict K V) (k k' : K) (v : V) :
  k' ≠ k -> dget (d1 ++ (k, v) :: d2) k' = dget (d1 ++ d2) k'.
Proof.
  intros Hne. induction d1 as [|[k0 v0] d1 IH]; simpl.
  - now rewrite decide_False.
  - now rewrite IH.
Qed.

Lemma dmem_insert_middle (d1 d2 : dict K V) (k k' : K) (v : V) :
  k' ≠ k -> dmem (d1 ++ (k, v) :: d2) k' = dmem (d1 ++ d2) k'.
Proof. intros Hne. unfold dmem. now rewrite dget_insert_middle. Qed.
End DictFacts.

Lemma foldl_ext_in {A B : Type} (f g : A -> B -> A) (l : list B) (a : A) :
  (forall x a', x ∈ l -> f a' x = g a' x) -> foldl f a l = foldl g a l.
Proof.
  revert a. induction l as [|x l IH]; intros a Hfg; simpl; [reflexivity|].
  rewrite (Hfg x a) by left. apply IH. intros y a' Hy. apply Hfg. now right.
Qed.

(** ** Keywords that name no variable *)

Section IgnoredKeywords.
Context {num T : Type} `{Numeric num} `{Array num T}.
Variable self : Field num T.

Lemma map_step_ignored (kwargs : dict string (scalar num))
    (st : list index * list string) (k : string) (v : scalar num) :
  ignored_by_map self k -> map_step self kwargs st (k, v) = Ok st.
Proof.
  intros [Hcv Hanc]. unfold map_step. destruct st as [res done]. simpl.
  case_bool_decide; [reflexivity|].
  case_bool_decide; [reflexivity|].
  rewrite Hcv. destruct Hanc as [->|Hanc].
  - exfalso. apply H1. left.
  - now rewrite Hanc.
Qed.

Lemma complementary_keys (kwargs : dict string (scalar num)) (arg : string)
    (dims : mapping) (args : dict string (mapping * Var T)) (nm : string) :
  nm ∈ keys (complementary self kwargs arg dims args) ->
  nm ∈ keys args \/ nm ∈ keys (coordinate_variables self).
Proof.
  unfold complementary.
  generalize (coordinate_variables self) as cvs.
  intros cvs. revert args.
  induction cvs as [|[nm' other] cvs IH]; intros args; simpl; [tauto|].
  intros Hin. apply IH in Hin. rewrite elem_of_cons.
  destruct Hin as [Hin|Hin]; [|tauto].
  destruct (_ && _); [|tauto].
  apply keys_dset in Hin. tauto.
Qed.

Section Removed.
Variables (kw1 kw2 : dict string (scalar num)) (k : string) (v : scalar num).
Hypothesis Hk : ignored_by_map self k.

Let kwargs := kw1 ++ (k, v) :: kw2.
Let kwargs' := kw1 ++ kw2.

Lemma complementary_removed (arg : string) (dims : mapping)
    (args : dict string (mapping * Var T)) :
  complementary self kwargs arg dims args
  = complementary self kwargs' arg dims args.
Proof.
  unfold complementary. apply foldl_ext_in.
  intros [nm other] args' Hin.
  assert (nm ≠ k) as Hne.
  { intros ->. destruct Hk as [Hcv _]. apply dget_None_keys in Hcv.
    apply Hcv. unfold keys. apply list_elem_of_fmap. now exists (k, other). }
  subst kwargs kwargs'. now rewrite dmem_insert_middle.
Qed.

Lemma accumulate_removed (dist : distance) (nm : string)
    (m : mapping * Var T) :
  nm ≠ k ->
  accumulate kwargs dist (nm, m) = accumulate kwargs' dist (nm, m).
Proof.
  intros Hne. unfold accumulate. subst kwargs kwargs'.
  now rewrite dget_insert_middle.
Qed.

Lemma map_resolved_removed (dims : mapping) (shp : list Z)
    (args : dict string (mapping * Var T)) (res : list index) :
  k ∉ keys args ->
  map_resolved kwargs dims shp args res = map_resolved kwargs' dims shp args res.
Proof.
  intros Hnin. unfold map_resolved.
  destruct (np_zeros shp) as [zeros|e]; [simpl|reflexivity].
  rewrite (foldl_ext_in (accumulate kwargs) (accumulate kwargs')); [reflexivity|].
  intros [nm m] dist Hin. apply accumulate_removed.
  intros ->. apply Hnin. unfold keys. apply list_elem_of_fmap. now exists (k, m).
Qed.

Lemma map_step_removed (st : list index * list string)
    (item : string * scalar num) :
  map_step self kwargs st item = map_step self kwargs' st item.
Proof.
  destruct item as [arg value].
  destruct (decide (arg = k)) as [->|Hne].
  { now rewrite !map_step_ignored. }
  unfold map_step. destruct st as [res done]. simpl.
  case_bool_decide; [reflexivity|].
  case_bool_decide; [reflexivity|].
  assert (k ∉ keys (coordinate_variables self)) as Hcv.
  { apply dget_None_keys. apply Hk. }
  destruct (dget (coordinate_variables self) arg) as [m|].
  - rewrite complementary_removed.
    rewrite map_resolved_removed; [reflexivity|].
    intros Hin. apply complementary_keys in Hin. simpl in Hin.
    destruct Hin as [Hin|Hin]; [|contradiction].
    apply list_elem_of_singleton in Hin. congruence.
  - destruct (dget (ancil_variables self) arg) as [m|]; [|reflexivity].
    rewrite map_resolved_removed; [reflexivity|].
    simpl. rewrite list_elem_of_singleton. congruence.
Qed.

Lemma map_loop_same_items (items : list (string * scalar num))
    (st : list index * list string) :
  map_loop self kwargs items st = map_loop self kwargs' items st.
Proof.
  revert st. induction items as [|item items IH]; intros st; simpl; [reflexivity|].
  rewrite map_step_removed.
  destruct (map_step self kwargs' st item) as [st'|e]; simpl; [apply IH | reflexivity].
Qed.

Lemma map_loop_skip (kw : dict string (scalar num))
    (items1 items2 : list (string * scalar num))
    (st : list index * list string) :
  map_loop self kw (items1 ++ (k, v) :: items2) st
  = map_loop self kw (items1 ++ items2) st.
Proof.
  revert st. induction items1 as [|item items1 IH]; intros st; simpl.
  - now rewrite map_step_ignored.
  - destruct (map_step self kw st item) as [st'|e]; simpl; [apply IH | reflexivity].
Qed.

Lemma Field_map_removed :
  Field_map self (kw1 ++ (k, v) :: kw2) = Field_map self (kw1 ++ kw2).
Proof.
  unfold Field_map. fold kwargs kwargs'.
  rewrite map_loop_same_items. subst kwargs.
  now rewrite map_loop_skip.
Qed.
End Removed.

Lemma subset_step_ignored (mappings : dict mapping (ndarray bool))
    (k : string) (v : subset_arg num) :
  ignored_by_subset self k -> subset_step self mappings (k, v) = Ok mappings.
Proof. intros [Hcv Hanc]. unfold subset_step. now rewrite Hcv, Hanc. Qed.

Lemma subset_mappings_skip (k : string) (v : subset_arg num)
    (kw1 kw2 : dict string (subset_arg num))
    (mappings : dict mapping (ndarray bool)) :
  ignored_by_subset self k ->
  subset_mappings self (kw1 ++ (k, v) :: kw2) mappings
  = subset_mappings self (kw1 ++ kw2) mappings.
Proof.
  intros Hk. revert mappings.
  induction kw1 as [|item kw1 IH]; intros mappings; simpl.
  - now rewrite subset_step_ignored.
  - destruct (subset_step self mappings item) as [m'|e]; simpl;
      [apply IH | reflexivity].
Qed.

Lemma Field_subset_removed (k : string) (v : subset_arg num)
    (kw1 kw2 : dict string (subset_arg num)) (id : oid) :
  ignored_by_subset self k ->
  Field_subset self (kw1 ++ (k, v) :: kw2) id = Field_subset self (kw1 ++ kw2) id.
Proof.
  intros Hk. unfold Field_subset, subset_slices.
  now rewrite subset_mappings_skip.
Qed.
End IgnoredKeywords.

(** C8, as the code has it.  A keyword that names neither a coordinate
    variable nor an ancillary variable is passed over by the loops of
    [map] and of [subset], wherever it stands among the items of [kwargs]:
    the call returns, or raises, what the loops give on the other items
    taken in the same order.  The same holds in [map] for the keyword
    [_method], also when an ancillary variable has that name; [_method] is
    not one of the coordinate roles.  The lists are the items of [kwargs]
    in the order of the iteration; the items of the call without the
    keyword need not come in that order. *)
Theorem unrecognized_keywords_are_skipped {num T : Type}
    `{Numeric num} `{Array num T} (self : Field num T) :
  (forall k v kw1 kw2,
     dget (coordinate_variables self) k = None ->
     dget (ancil_variables self) k = None ->
     Field_map self (kw1 ++ (k, v) :: kw2) = Field_map self (kw1 ++ kw2)) /\
  (forall k v kw1 kw2 id,
     dget (coordinate_variables self) k = None ->
     dget (ancil_variables self) k = None ->
     Field_subset self (kw1 ++ (k, v) :: kw2) id
     = Field_subset self (kw1 ++ kw2) id) /\
  (forall v kw1 kw2,
     dget (coordinate_variables self) "_method" = None ->
     Field_map self (kw1 ++ ("_method", v) :: kw2) = Field_map self (kw1 ++ kw2)).
Proof.
  split; [|split].
  - intros k v kw1 kw2 Hcv Hanc. apply Field_map_removed. split; auto.
  - intros k v kw1 kw2 id Hcv Hanc. apply Field_subset_removed. split; auto.
  - intros v kw1 kw2 Hcv. apply Field_map_removed. split; auto.
Qed.

Lemma unrecognized_keywords_are_skipped_witness :
  Field_map station_field
            ([("latitude", SNum 10)] ++ ("colour", SStr "red") :: [])
  = Field_map station_field ([("latitude", SNum 10)] ++ []) /\
  Field_subset lat_field
     ([] ++ ("depth", Single (SNum 3))
         :: [("latitude", Bounds [SNum (-30); SNum (-20)])]) 10
  = Field_subset lat_field
     ([] ++ [("latitude", Bounds [SNum (-30); SNum (-20)])]) 10 /\
  Field_map station_field
            ([("latitude", SNum 10)]
               ++ ("_method", SStr "nearest_neighbour") :: [])
  = Field_map station_field ([("latitude", SNum 10)] ++ []).
Proof.
  split; [|split].
  - apply (proj1 (unrecognized_keywords_are_skipped station_field));
      reflexivity.
  - apply (proj1 (proj2 (unrecognized_keywords_are_skipped lat_field)));
      reflexivity.
  - apply (proj2 (proj2 (unrecognized_keywords_are_skipped station_field)));
      reflexivity.
Defined.

(** The call of C8 that differs from the call without the keyword.  On
    the three stations of [point_field], [vertical] names no variable.
    [map(longitude=18, name='c')] iterates [name] before [longitude], so
    that the longitude decides and the answer is station 0;
    [map(vertical=1500, longitude=18, name='c')] iterates [longitude],
    [vertical], [name], so that the name decides and the answer is
    station 2. *)
Lemma unrecognized_keyword_changes_map :
  dget (coordinate_variables point_field) "vertical" = None /\
  dget (ancil_variables point_field) "vertical" = None /\
  kwargs_items [("longitude", SNum 18); ("name", SStr (num:=Z) "c")]
    = [("name", SStr "c"); ("longitude", SNum 18)] /\
  kwargs_items [("vertical", SNum 1500); ("longitude", SNum 18);
                ("name", SStr (num:=Z) "c")]
    = [("longitude", SNum 18); ("vertical", SNum 1500); ("name", SStr "c")] /\
  Field_map point_field
    (kwargs_items [("longitude", SNum 18); ("name", SStr "c")])
    = Ok [Int 0] /\
  Field_map point_field
    (kwargs_items [("vertical", SNum 1500); ("longitude", SNum 18);
                   ("name", SStr "c")])
    = Ok [Int 2].
Proof. repeat split; vm_compute; reflexivity. Qed.

(** ** Bounds on an array of one element *)

Section OneElement.
Context {num T : Type} `{Numeric num} `{Array num T}.

(** On an array whose first axis has length 1 the mask of a keyword is
    the comparison with its first value. *)
Lemma keyword_mask_length_one (vals : ndarray (scalar num))
    (low : scalar num) (rest : list (scalar num)) (sh : list nat) :
  nd_shape vals = 1%nat :: sh ->
  keyword_mask vals (low :: rest) = nd_lt vals low.
Proof.
  intros Hshape. unfold keyword_mask. simpl. unfold nd_lt.
  destruct (mapM _ (nd_data vals)) as [d|e]; simpl; [|reflexivity].
  unfold nd_len. simpl. now rewrite Hshape.
Qed.

Lemma one_element_first_axis (shp : list nat) :
  prod_shape shp = 1%nat -> shp <> [] -> exists sh, shp = 1%nat :: sh.
Proof.
  destruct shp as [|n sh]; [congruence|]. simpl. intros Hprod _.
  exists sh. f_equal. apply Nat.eq_mul_1 in Hprod. tauto.
Qed.

Lemma subset_step_upper_bound_unused (self : Field num T)
    (mappings : dict mapping (ndarray bool)) (nm : string)
    (m : mapping) (var : Var T) (low high : scalar num) (sh : list nat) :
  (match dget (coordinate_variables self) nm with
   | Some found => Some found
   | None => dget (ancil_variables self) nm
   end) = Some (m, var) ->
  nd_shape (ndarray_of var) = 1%nat :: sh ->
  subset_step self mappings (nm, Bounds [low; high])
  = subset_step self mappings (nm, Bounds [low]).
Proof.
  intros Hfound Hshape. unfold subset_step. rewrite Hfound.
  now rewrite !(keyword_mask_length_one _ _ _ sh Hshape).
Qed.

Lemma subset_mappings_upper_bound_unused (self : Field num T) (nm : string)
    (m : mapping) (var : Var T) (low high : scalar num) (sh : list nat)
    (kw1 kw2 : dict string (subset_arg num))
    (mappings : dict mapping (ndarray bool)) :
  (match dget (coordinate_variables self) nm with
   | Some found => Some found
   | None => dget (ancil_variables self) nm
   end) = Some (m, var) ->
  nd_shape (ndarray_of var) = 1%nat :: sh ->
  subset_mappings self (kw1 ++ (nm, Bounds [low; high]) :: kw2) mappings
  = subset_mappings self (kw1 ++ (nm, Bounds [low]) :: kw2) mappings.
Proof.
  intros Hfound Hshape. revert mappings.
  induction kw1 as [|item kw1 IH]; intros mappings; simpl.
  - now rewrite (subset_step_upper_bound_unused _ _ _ m var low high sh).
  - destruct (subset_step self mappings item) as [m'|e]; simpl;
      [apply IH | reflexivity].
Qed.
End OneElement.

(** C10.  For a keyword of [subset] that resolves to a variable whose
    array has one element, the tuple [(low, high)] is treated as [(low,)]:
    the mask of the keyword is the same and so is the call.  When the
    array has an axis, so that it has a length, that mask is [vals < low];
    the comparison with [high] is not made. *)
Theorem subset_single_element_ignores_upper_bound {num T : Type}
    `{Numeric num} `{Array num T} (self : Field num T) (nm : string)
    (m : mapping) (var : Var T) (low high : scalar num)
    (kw1 kw2 : dict string (subset_arg num)) (id : oid) :
  (match dget (coordinate_variables self) nm with
   | Some found => Some found
   | None => dget (ancil_variables self) nm
   end) = Some (m, var) ->
  prod_shape (nd_shape (ndarray_of var)) = 1%nat ->
  keyword_mask (ndarray_of var) [low; high]
    = keyword_mask (ndarray_of var) [low] /\
  (nd_shape (ndarray_of var) <> [] ->
   keyword_mask (ndarray_of var) [low; high] = nd_lt (ndarray_of var) low) /\
  Field_subset self (kw1 ++ (nm, Bounds [low; high]) :: kw2) id
  = Field_subset self (kw1 ++ (nm, Bounds [low]) :: kw2) id.
Proof.
  intros Hfound Hone.
  destruct (nd_shape (ndarray_of var)) as [|n0 sh0] eqn:Hshp.
  - (* no axis: [len(mask)] raises in both calls *)
    assert (forall value, keyword_mask (ndarray_of var) (low :: value)
                          = (mask ← nd_lt (ndarray_of var) low; Raise TypeError))
      as Hmask.
    { intros value. unfold keyword_mask. simpl. unfold nd_lt.
      destruct (mapM _ (nd_data (ndarray_of var))) as [d|e]; simpl; [|reflexivity].
      unfold nd_len. simpl. now rewrite Hshp. }
    split; [now rewrite !Hmask|]. split; [congruence|].
    unfold Field_subset, subset_slices. f_equal. f_equal.
    clear -Hfound Hmask.
    generalize (@nil (mapping * ndarray bool)) as mappings.
    induction kw1 as [|item kw1' IH]; intros mappings; simpl.
    + unfold subset_step. rewrite Hfound. now rewrite !Hmask.
    + destruct (subset_step self mappings item) as [m'|e]; simpl;
        [apply IH | reflexivity].
  - destruct (one_element_first_axis (n0 :: sh0) Hone ltac:(discriminate))
      as [sh Hshape].
    rewrite <- Hshp in Hshape.
    split; [now rewrite !(keyword_mask_length_one _ _ _ sh Hshape)|].
    split; [intros _; now apply (keyword_mask_length_one _ _ _ sh)|].
    unfold Field_subset, subset_slices.
    now rewrite (subset_mappings_upper_bound_unused self nm m var low high sh).
Qed.

Lemma subset_single_element_ignores_upper_bound_witness :
  keyword_mask (numbers [-25]) [SNum (-30); SNum (-26)]
    = keyword_mask (numbers [-25]) [SNum (-30)] /\
  keyword_mask (numbers [-25]) [SNum (-30); SNum (-26)]
    = Ok (mkNd [1%nat] [false]) /\
  Field_subset single_field
    ([] ++ ("latitude", Bounds [SNum (-30); SNum (-26)]) :: []) 10
  = Field_subset single_field ([] ++ ("latitude", Bounds [SNum (-30)]) :: []) 10.
Proof.
  destruct (subset_single_element_ignores_upper_bound single_field "latitude"
              [0%nat] (example_variable 1 "latitude" [single_dim] (numbers [-25]))
              (SNum (-30)) (SNum (-26)) [] [] 10)
    as (Hsame & Hmask & Hcall).
  - reflexivity.
  - reflexivity.
  - split; [exact Hsame|]. split; [|exact Hcall].
    apply Hmask. discriminate.
Defined.

(** ** Python lists *)

Lemma norm_index_nat (n d : nat) :
  norm_index n (Z.of_nat d) = if (d <? n)%nat then Some d else None.
Proof.
  unfold norm_index.
  destruct (Nat.ltb_spec d n) as [Hlt|Hge].
  - replace (0 <=? Z.of_nat d) with true by (symmetry; apply Z.leb_le; lia).
    replace (Z.of_nat d <? Z.of_nat n) with true by (symmetry; apply Z.ltb_lt; lia).
    simpl. now rewrite Nat2Z.id.
  - replace (Z.of_nat d <? Z.of_nat n) with false by (symmetry; apply Z.ltb_ge; lia).
    replace (Z.of_nat d <? 0) with false by (symmetry; apply Z.ltb_ge; lia).
    now rewrite andb_false_r.
Qed.

Lemma norm_index_bound (n : nat) (k : Z) (p : nat) :
  norm_index n k = Some p -> (p < n)%nat.
Proof.
  unfold norm_index.
  destruct (0 <=? k) eqn:E1, (k <? Z.of_nat n) eqn:E2; simpl;
    try (destruct (k <? 0) eqn:E3, (- Z.of_nat n <=? k) eqn:E4; simpl);
    intros [= <-]; lia.
Qed.

Lemma py_setitem_nat {A} (l l' : list A) (d : nat) (x : A) :
  py_setitem l (Z.of_nat d) x = Ok l' ->
  l' = <[d := x]> l /\ (d < length l)%nat.
Proof.
  unfold py_setitem. rewrite norm_index_nat.
  destruct (Nat.ltb_spec d (length l)); [|discriminate].
  intros [= <-]. auto.
Qed.

Lemma py_setitem_nat_ok {A} (l : list A) (d : nat) (x : A) :
  (d < length l)%nat -> py_setitem l (Z.of_nat d) x = Ok (<[d := x]> l).
Proof.
  intros Hlt. unfold py_setitem. rewrite norm_index_nat.
  now destruct (Nat.ltb_spec d (length l)); [|lia].
Qed.

Lemma py_index_nat {A} (l : list A) (d : nat) (x : A) :
  py_index l (Z.of_nat d) = Ok x <-> l !! d = Some x.
Proof.
  unfold py_index. rewrite norm_index_nat.
  destruct (Nat.ltb_spec d (length l)) as [Hlt|Hge].
  - destruct (l !! d); split; congruence.
  - rewrite (lookup_ge_None_2 l d Hge). split; discriminate.
Qed.

(** ** Groups *)

Section GroupInvariant.
Context {K : Type} `{EqDecision K}.
Variables (m : mapping) (rank : nat).

Lemma group_invariant_insert (s : list index) (d : nat) (x : index) :
  d ∈ m -> group_invariant m rank s -> group_invariant m rank (<[d := x]> s).
Proof.
  intros Hd [Hlen Hfree]. split.
  - now rewrite length_insert.
  - intros j Hj Hjm. rewrite list_lookup_insert_ne; [now apply Hfree|].
    intros ->. contradiction.
Qed.

Lemma assign_group_invariant (dims : list nat) (group s s' : list index) :
  (forall d, d ∈ dims -> d ∈ m) ->
  assign_group m dims group s = Ok s' ->
  group_invariant m rank s -> group_invariant m rank s'.
Proof.
  revert s. induction dims as [|d dims IH]; intros s Hdims; simpl.
  - now intros [= <-].
  - destruct (require _ _) as [k|]; [simpl|discriminate].
    destruct (py_index group _) as [g|]; [simpl|discriminate].
    destruct (py_setitem s _ g) as [s1|] eqn:Hset; [simpl|discriminate].
    apply py_setitem_nat in Hset as [-> _].
    intros Hrest Hinv. apply (IH _ (fun d' Hd' => Hdims d' (list_elem_of_further _ _ _ Hd')) Hrest).
    apply group_invariant_insert; [apply Hdims; left | assumption].
Qed.

Lemma simplify_dim_invariant (s s' : list index) (d : nat) :
  d ∈ m -> simplify_dim s d = Ok s' ->
  group_invariant m rank s -> group_invariant m rank s'.
Proof.
  intros Hd. unfold simplify_dim.
  destruct (py_index s _) as [e|]; [simpl|discriminate].
  destruct e as [a b|i|l|l]; try (now intros [= <-]).
  destruct (py_index l (-1)) as [last|]; [simpl|discriminate].
  destruct (py_index l 0) as [first|]; [simpl|discriminate].
  destruct (_ =? _); [|now intros [= <-]].
  intros Hset Hinv. apply py_setitem_nat in Hset as [-> _].
  now apply group_invariant_insert.
Qed.

Lemma simplify_group_invariant (dims : list nat) (s s' : list index) :
  (forall d, d ∈ dims -> d ∈ m) ->
  simplify_group dims s = Ok s' ->
  group_invariant m rank s -> group_invariant m rank s'.
Proof.
  revert s. induction dims as [|d dims IH]; intros s Hdims; simpl.
  - now intros [= <-].
  - destruct (simplify_dim s d) as [s1|] eqn:Hs; [simpl|discriminate].
    intros Hrest Hinv. apply (IH s1); auto using list_elem_of_further.
    apply (simplify_dim_invariant s s1 d); auto. apply Hdims. left.
Qed.

(** After the loop every key of the items is bound to a group that has
    the invariant, and the other keys are bound as before. *)
Lemma groupby_loop_invariant (items : list (K * list index))
    (s : list index) (grps grps' : dict K (list index)) :
  groupby_loop m items s grps = Ok grps' ->
  group_invariant m rank s ->
  forall key spec, dget grps' key = Some spec ->
    (key ∈ keys items -> group_invariant m rank spec) /\
    (key ∉ keys items -> dget grps key = Some spec).
Proof.
  revert s grps. induction items as [|[k group] items IH]; intros s grps; simpl.
  - intros [= <-] _ key spec Hget. split; [|auto].
    intros Hin. now apply elem_of_nil in Hin.
  - destruct (assign_group m m group s) as [s1|] eqn:Ha; [simpl|discriminate].
    destruct (simplify_group m s1) as [s2|] eqn:Hs; [simpl|discriminate].
    intros Hloop Hinv key spec Hget.
    assert (group_invariant m rank s2) as Hinv2.
    { apply (simplify_group_invariant m s1 s2); auto.
      apply (assign_group_invariant m group s s1); auto. }
    destruct (IH _ _ Hloop Hinv2 key spec Hget) as [Hin Hout].
    destruct (decide (key ∈ keys items)) as [Hk|Hk].
    + split; [auto | intros Hn; exfalso; apply Hn; now right].
    + specialize (Hout Hk). destruct (decide (key = k)) as [->|Hne].
      * rewrite dget_dset_eq in Hout. injection Hout as <-.
        split; [auto | intros Hn; exfalso; apply Hn; left].
      * rewrite dget_dset_ne in Hout by congruence.
        split; [|auto]. rewrite elem_of_cons. intros [?|?]; [congruence|contradiction].
Qed.
End GroupInvariant.

Lemma replicate_group_invariant (m : mapping) (rank : nat) :
  group_invariant m rank (replicate rank slice_None).
Proof.
  split; [apply length_replicate|].
  intros j Hj _. now apply lookup_replicate_2.
Qed.

(** C7.  In the [GroupBy] that [groupby] returns, every group is a list of
    as many subscripts as the data variable has dimensions, and its
    subscript is [slice(None)] at every dimension that is not in the
    dimension-index-tuple of the grouped coordinate. *)
Theorem groupby_groups_invariant {num T K W : Type}
    `{Numeric num} `{Array num T} `{EqDecision K}
    (self self' : Field num T) (coord : string)
    (func : coordinate_values num T -> result (dict K (list index) * W))
    (id : oid) (lat_junk lon_junk : grid2) (gb : GroupBy K W) :
  Field_groupby self coord func id lat_junk lon_junk = Ok (self', gb) ->
  exists m, groupby_mapping self coord = Some m /\
    forall key spec, dget (groups gb) key = Some spec ->
      group_invariant m (length (shape (variable self))) spec.
Proof.
  unfold Field_groupby, groupby_mapping.
  set (rank := length (Field_shape self)).
  intros Hrun.
  assert (exists m values grps wts grps',
            match dget (coordinate_variables self) coord with
            | Some (m', _) => Some m'
            | None =>
                if bool_decide (coord = "geometry") then
                  lat ← dget (coordinate_variables self) "latitude";
                  lon ← dget (coordinate_variables self) "longitude";
                  Some (lat.1 ++ lon.1)
                else None
            end = Some m /\
            func values = Ok (grps, wts) /\
            groupby_loop m grps (replicate rank slice_None) grps = Ok grps' /\
            groups gb = grps') as (m & values & grps & wts & grps' & Hm & Hf & Hloop & Hgb).
  { destruct (dget (coordinate_variables self) coord) as [[m cv]|].
    - destruct (bool_decide (coord = "time")).
      + destruct (times self) as [ts|]; [simpl in Hrun|discriminate].
        destruct (func (TimeValues ts)) as [[grps wts]|] eqn:Hf; [simpl in Hrun|discriminate].
        destruct (groupby_loop m grps _ grps) as [grps'|] eqn:Hl; [simpl in Hrun|discriminate].
        injection Hrun as _ <-. now exists m, (TimeValues ts), grps, wts, grps'.
      + destruct (Variable_getitem cv _ id) as [v|]; [simpl in Hrun|discriminate].
        destruct (func (VariableValues v)) as [[grps wts]|] eqn:Hf; [simpl in Hrun|discriminate].
        destruct (groupby_loop m grps _ grps) as [grps'|] eqn:Hl; [simpl in Hrun|discriminate].
        injection Hrun as _ <-. now exists m, (VariableValues v), grps, wts, grps'.
    - destruct (bool_decide (coord = "geometry")); [|discriminate].
      destruct (dget (coordinate_variables self) "latitude") as [lat|];
        [simpl in Hrun|discriminate].
      destruct (dget (coordinate_variables self) "longitude") as [lon|];
        [simpl in Hrun|discriminate].
      destruct (Field_geometries self id lat_junk lon_junk) as [[self1 g]|];
        [simpl in Hrun|discriminate].
      destruct (func (GeometryValues g)) as [[grps wts]|] eqn:Hf; [simpl in Hrun|discriminate].
      destruct (groupby_loop _ grps _ grps) as [grps'|] eqn:Hl; [simpl in Hrun|discriminate].
      injection Hrun as _ <-.
      now exists (lat.1 ++ lon.1), (GeometryValues g), grps, wts, grps'. }
  exists m. split; [assumption|].
  intros key spec Hget. rewrite Hgb in Hget.
  destruct (groupby_loop_invariant m rank grps _ grps grps' Hloop
              (replicate_group_invariant m rank) key spec Hget) as [Hin Hout].
  destruct (decide (key ∈ keys grps)) as [Hk|Hk]; [now apply Hin|].
  specialize (Hout Hk). apply dget_Some_keys in Hout. contradiction.
Qed.

(** ** Slices of a variable *)

Section VariableFacts.
Context {num T : Type} `{Array num T}.

Lemma getitem_dims_resized (zs : list (Dimension * Z)) :
  exists das, getitem_dims zs = Ok das /\
              init_dimensions das = Ok (resized <$> zs).
Proof.
  induction zs as [|[d sz] zs (das & Hd & Hi)]; simpl.
  - now exists [].
  - rewrite Hd. simpl. eexists. split; [reflexivity|].
    simpl. now rewrite Hi.
Qed.

Lemma sizes_resized (ds : list Dimension) (shp : list Z) :
  size <$> (resized <$> zip ds shp) = take (length ds) shp.
Proof.
  revert shp. induction ds as [|d ds IH]; intros [|sz shp]; simpl; try reflexivity.
  now rewrite IH.
Qed.

Lemma lookup_resized (ds : list Dimension) (shp : list Z) (i : nat)
    (d' : Dimension) :
  (resized <$> zip ds shp) !! i = Some d' ->
  exists d, ds !! i = Some d /\ dim_name d' = dim_name d /\
            fixed d' = fixed d /\ shp !! i = Some (size d').
Proof.
  rewrite list_lookup_fmap. intros Hl.
  destruct (zip ds shp !! i) as [[d sz]|] eqn:Hz; [|discriminate].
  injection Hl as <-.
  apply lookup_zip_with_Some in Hz as (d0 & sz0 & [= <- <-] & Hd & Hs).
  exists d. auto.
Qed.

(** What a call of [__getitem__] that returns has done. *)
Lemma Variable_getitem_inv (v r : Var T) (slices : subscript) (id : oid) :
  Variable_getitem v slices id = Ok r ->
  exists data,
    arr_getitem (_data v) slices id = Ok data /\
    r = mkVariable (resized <$> zip (dimensions v) (arr_shape data))
                   (arr_dtype data) (name v) (attributes v) (dataset v) data /\
    arr_shape data = size <$> (resized <$> zip (dimensions v) (arr_shape data)).
Proof.
  unfold Variable_getitem.
  destruct (arr_getitem (_data v) slices id) as [data|]; [simpl|discriminate].
  destruct (getitem_dims_resized (zip (dimensions v) (arr_shape data)))
    as (das & Hd & Hi).
  rewrite Hd. simpl. unfold Variable_init. rewrite Hi. simpl.
  case_bool_decide as Hshape; [|discriminate].
  rewrite bool_decide_true by reflexivity. simpl.
  intros [= <-]. now exists data.
Qed.

(** A call of [__getitem__] returns when the storage returns an array of
    no more axes than the variable has dimensions. *)
Lemma Variable_getitem_ok (v : Var T) (slices : subscript) (id : oid) (data : T) :
  arr_getitem (_data v) slices id = Ok data ->
  (length (arr_shape data) <= length (dimensions v))%nat ->
  Variable_getitem v slices id
  = Ok (mkVariable (resized <$> zip (dimensions v) (arr_shape data))
                   (arr_dtype data) (name v) (attributes v) (dataset v) data).
Proof.
  intros Hget Hrank. unfold Variable_getitem. rewrite Hget. simpl.
  destruct (getitem_dims_resized (zip (dimensions v) (arr_shape data)))
    as (das & Hd & Hi).
  rewrite Hd. simpl. unfold Variable_init. rewrite Hi. simpl.
  rewrite bool_decide_true.
  - now rewrite bool_decide_true by reflexivity.
  - change (map size ?l) with (size <$> l).
    rewrite sizes_resized. now rewrite take_ge.
Qed.
End VariableFacts.

(** C4.  The variable [r] that [v[s]] returns holds the storage
    [v._data[s]], and the sizes of its dimensions are the shape of that
    storage, which is also what [r.shape] gives; each of its dimensions
    has the name and the fixedness of the dimension of [v] at the same
    position.  When the storage keeps its shape, as for a full slice, and
    [v] reports that shape, [r.shape] is [v.shape]. *)
Theorem getitem_dimensions_match_storage {num T : Type} `{Array num T}
    (v r : Var T) (s : subscript) (id : oid) :
  Variable_getitem v s id = Ok r ->
  arr_getitem (_data v) s id = Ok (_data r) /\
  size <$> dimensions r = arr_shape (_data r) /\
  shape r = arr_shape (_data r) /\
  (forall i d', dimensions r !! i = Some d' ->
     exists d, dimensions v !! i = Some d /\
               dim_name d' = dim_name d /\ fixed d' = fixed d) /\
  (arr_shape (_data r) = arr_shape (_data v) ->
   shape v = arr_shape (_data v) -> shape r = shape v).
Proof.
  intros Hget.
  destruct (Variable_getitem_inv v r s id Hget) as (data & Hdata & -> & Hshape).
  simpl. repeat split.
  - assumption.
  - now rewrite <- Hshape.
  - unfold shape. simpl. destruct (arr_truthy data); [reflexivity|].
    change (map size ?l) with (size <$> l). now rewrite <- Hshape.
  - intros i d' Hl. unfold dimensions in Hl. simpl in Hl.
    destruct (lookup_resized _ _ _ _ Hl) as (d & Hd & Hn & Hf & _).
    now exists d.
  - intros Hsame Hv. unfold shape at 1. simpl.
    destruct (arr_truthy data); [congruence|].
    change (map size ?l) with (size <$> l). rewrite <- Hshape. congruence.
Qed.

(** The dense storage keeps its shape under the full slice [[:]]. *)
Lemma selections_rest (shp : list nat) :
  selections shp [] = Ok ((fun n => seq 0 n) <$> shp).
Proof.
  induction shp as [|n shp IH]; simpl; [reflexivity|]. now rewrite IH.
Qed.

Lemma nd_getitem_full_slice {A : Type} (a : ndarray A) :
  nd_shape a <> [] ->
  exists a', nd_getitem a (Sub1 slice_None) = Ok a' /\ nd_shape a' = nd_shape a.
Proof.
  intros Hrank. unfold nd_getitem. simpl.
  destruct (nd_shape a) as [|n shp]; [congruence|]. simpl.
  rewrite selections_rest. simpl. eexists. split; [reflexivity|]. simpl.
  unfold slice_positions. simpl. rewrite length_seq, Nat.sub_0_r. f_equal.
  clear. induction shp as [|k shp IH]; [reflexivity|].
  rewrite fmap_cons. cbn [map]. rewrite length_seq. f_equal. exact IH.
Qed.

(** [v[:].shape == v.shape] for a variable with dense storage that has as
    many dimensions as its storage has axes. *)
Lemma Variable_getitem_full_slice {num : Type} (v : Var (numpyArray num))
    (id : nat) :
  nd_shape (na_arr (_data v)) <> [] ->
  length (nd_shape (na_arr (_data v))) = length (dimensions v) ->
  exists r, Variable_getitem v (Sub1 slice_None) id = Ok r /\ shape r = shape v.
Proof.
  intros Hrank Hdims.
  destruct (nd_getitem_full_slice (na_arr (_data v)) Hrank) as (a' & Ha & Hshape).
  eexists. split.
  - apply Variable_getitem_ok; simpl.
    + rewrite Ha. reflexivity.
    + unfold shape_of_nd. simpl. rewrite length_fmap, Hshape, Hdims. reflexivity.
  - unfold shape. simpl. unfold shape_of_nd. simpl. now rewrite Hshape.
Qed.

Lemma getitem_dimensions_match_storage_witness :
  exists r,
    Variable_getitem (variable lat_field) (Sub1 (Slice (Some 10) (Some 21))) 7
      = Ok r /\
    size <$> dimensions r = arr_shape (_data r) /\
    shape r = [11].
Proof.
  eexists. split; [reflexivity|].
  split; [|reflexivity].
  apply (getitem_dimensions_match_storage (variable lat_field) _
           (Sub1 (Slice (Some 10) (Some 21))) 7).
  reflexivity.
Defined.

Lemma groupby_groups_invariant_witness :
  exists m, groupby_mapping monthly_field "time" = Some m /\
    forall key spec, dget (groups yearly_groups) key = Some spec ->
      group_invariant m (length (shape (variable monthly_field))) spec.
Proof.
  apply (groupby_groups_invariant monthly_field monthly_field "time" by_year 10
           zero_junk zero_junk yearly_groups).
  vm_compute. reflexivity.
Defined.

(** ** Arrays of one axis *)

Section OneAxis.
Context {A : Type}.

Lemma take_1_drop (data : list A) (p : nat) (x : A) :
  data !! p = Some x -> take 1 (drop p data) = [x].
Proof. intros Hl. now rewrite (drop_S _ _ _ Hl). Qed.

Lemma take_nd_one_axis (n : nat) (ps : list nat) (data : list A) :
  take_nd [n] [ps] data = flat_map (fun p => take 1 (drop p data)) ps.
Proof.
  unfold take_nd. simpl. induction ps as [|p ps IH]; simpl; [reflexivity|].
  now rewrite IH, Nat.mul_1_r.
Qed.

(** The elements that a list of valid positions selects. *)
Lemma flat_map_lookup (data : list A) (ps : list nat) :
  Forall (fun p => (p < length data)%nat) ps ->
  Forall2 (fun p x => data !! p = Some x) ps
          (flat_map (fun p => take 1 (drop p data)) ps).
Proof.
  induction 1 as [|p ps Hp _ IH]; simpl; [constructor|].
  destruct (lookup_lt_is_Some_2 data p Hp) as [x Hx].
  rewrite (take_1_drop _ _ _ Hx). simpl. now constructor.
Qed.

Lemma py_index_norm (data : list A) (k : Z) (p : nat) (x : A) :
  norm_index (length data) k = Some p -> data !! p = Some x ->
  py_index data k = Ok x.
Proof. intros Hn Hl. unfold py_index. now rewrite Hn, Hl. Qed.

(** [a[k]] on one axis: the element at [k], kept in an array of length 1. *)
Lemma nd_getitem_int (n : nat) (data : list A) (k : Z) (r : ndarray A) :
  length data = n ->
  nd_getitem (mkNd [n] data) (Sub1 (Int k)) = Ok r ->
  exists x, py_index data k = Ok x /\ r = mkNd [1%nat] [x].
Proof.
  intros Hlen. unfold nd_getitem. simpl.
  destruct (norm_index n k) as [p|] eqn:Hn; [simpl|discriminate].
  intros [= <-].
  assert (p < length data)%nat as Hp by (rewrite Hlen; eapply norm_index_bound; eauto).
  destruct (lookup_lt_is_Some_2 data p Hp) as [x Hx].
  exists x. split.
  - apply (py_index_norm data k p); [now rewrite Hlen | assumption].
  - rewrite take_nd_one_axis. simpl. rewrite (take_1_drop _ _ _ Hx). reflexivity.
Qed.

(** [a[l]] on one axis, for a list or an array [l] of positions. *)
Lemma nd_getitem_positions (n : nat) (data : list A) (g : index) (l : list Z)
    (r : ndarray A) :
  length data = n ->
  g = List l \/ g = Arr l ->
  nd_getitem (mkNd [n] data) (Sub1 g) = Ok r ->
  exists xs, r = mkNd [length xs] xs /\
             Forall2 (fun k x => py_index data k = Ok x) l xs.
Proof.
  intros <- Hg. unfold nd_getitem. cbn [nd_shape nd_data].
  assert (selections [length data] (key_of (Sub1 g))
          = match mapM (norm_index (length data)) l with
            | Some ps => Ok [ps]
            | None => Raise IndexError
            end) as ->.
  { destruct Hg as [-> | ->]; simpl; now destruct (mapM _ l). }
  destruct (mapM (norm_index (length data)) l) as [ps|] eqn:Hps;
    [simpl|discriminate].
  intros [= <-]. apply mapM_Some in Hps.
  rewrite take_nd_one_axis.
  assert (Forall (fun p => (p < length data)%nat) ps) as Hbound.
  { clear -Hps. induction Hps; constructor; eauto using norm_index_bound. }
  pose proof (flat_map_lookup data ps Hbound) as Hxs.
  exists (flat_map (fun p => take 1 (drop p data)) ps). split.
  - f_equal. simpl. f_equal. exact (Forall2_length Hxs).
  - clear Hbound Hg. revert Hxs.
    generalize (flat_map (fun p => take 1 (drop p data)) ps).
    induction Hps as [|k p l ps Hk _ IH]; intros xs Hxs; inversion Hxs; subst;
      constructor; auto.
    now apply (py_index_norm data k p).
Qed.

End OneAxis.

(** [a[i] = [x]] on one axis. *)
Lemma nd_setitem_int {A : Type} (n : nat) (data : list A) (i : nat) (x : A) :
  length data = n -> (i < n)%nat ->
  nd_setitem (mkNd [n] data) (Sub1 (Int (Z.of_nat i))) (mkNd [1%nat] [x])
  = Ok (mkNd [n] (<[i := x]> data)).
Proof.
  intros Hlen Hi. unfold nd_setitem. simpl.
  rewrite norm_index_nat.
  destruct (Nat.ltb_spec i n); [simpl|lia].
  rewrite take_nd_one_axis. simpl. rewrite Nat.mul_1_r.
  assert (seq 0 n !! i = Some i) as Hseq by (now apply lookup_seq_lt).
  now rewrite (take_1_drop _ _ _ Hseq).
Qed.

Lemma py_index_minus_one {A : Type} (l : list A) (x : A) :
  py_index l (-1) = Ok x -> list.last l = Some x.
Proof.
  unfold py_index, norm_index. simpl.
  destruct l as [|y l]; [discriminate|].
  replace (- Z.of_nat (length (y :: l)) <=? -1) with true
    by (symmetry; apply Z.leb_le; simpl length; lia).
  simpl andb. cbv iota.
  replace (Z.to_nat (-1 + Z.of_nat (length (y :: l)))) with (length l)
    by (simpl length; lia).
  rewrite last_lookup. simpl.
  destruct ((y :: l) !! length l); congruence.
Qed.

(** ** Labels of the groups *)

Section ApplyFacts.
Context {num : Type} `{Numeric num} {K W : Type} `{EqDecision K}.

#[local] Abbreviation T := (numpyArray num).

Lemma dget_fmap_values {V V' : Type} (f : V -> V')
    (d : dict (option string) V) (k : option string) :
  dget ((fun kv => (kv.1, f kv.2)) <$> d) k = f <$> dget d k.
Proof.
  induction d as [|[k' v] d IH]; simpl; [reflexivity|].
  destruct (decide (k = k')); [reflexivity | assumption].
Qed.

Lemma current_untouched (st : store) (v : Var T) :
  dget st (na_id (_data v)) = None -> current st v = v.
Proof. intros Hget. unfold current. simpl. now rewrite Hget. Qed.

Lemma write_other (st st' : store) (v : Var T) (s : subscript)
    (vals : ndarray (scalar num)) (k : nat) :
  write st v s vals = Ok st' -> k <> na_id (_data v) ->
  dget st' k = dget st k.
Proof.
  unfold write.
  destruct (Variable_setitem _ s vals) as [v'|]; [simpl|discriminate].
  intros [= <-] Hne. now rewrite dget_dset_ne by congruence.
Qed.

Lemma array_in_other (st st' : store) (v w : Var T) (s : subscript)
    (vals : ndarray (scalar num)) :
  write st v s vals = Ok st' -> na_id (_data w) <> na_id (_data v) ->
  array_in st' w = array_in st w.
Proof.
  intros Hw Hne. unfold array_in, current. simpl.
  now rewrite (write_other _ _ _ _ _ _ Hw Hne).
Qed.

Lemma write_label (st st' : store) (v : Var T) (n i : nat) (x : scalar num) :
  nd_shape (array_in st v) = [n] -> length (nd_data (array_in st v)) = n ->
  (i < n)%nat ->
  write st v (Sub1 (Int (Z.of_nat i))) (mkNd [1%nat] [x]) = Ok st' ->
  array_in st' v = mkNd [n] (<[i := x]> (nd_data (array_in st v))).
Proof.
  intros Hshape Hlen Hi. unfold write, Variable_setitem. simpl.
  fold (array_in st v).
  destruct (array_in st v) as [shp data] eqn:Harr. simpl in Hshape, Hlen.
  subst shp. rewrite (nd_setitem_int n data i x Hlen Hi). simpl.
  intros [= <-]. unfold array_in, current. simpl.
  now rewrite dget_dset_eq.
Qed.

(** The right-hand side of the assignment is the coordinate value at the
    last position of the group. *)
Lemma last_coordinate_value (st : store) (cvar : Var T) (g : index)
    (id n : nat) (c : ndarray (scalar num)) :
  dget st (na_id (_data cvar)) = None ->
  nd_shape (na_arr (_data cvar)) = [n] ->
  length (nd_data (na_arr (_data cvar))) = n ->
  last_coordinate st cvar g id = Ok c ->
  exists k x, last_position g = Some k /\
              py_index (nd_data (na_arr (_data cvar))) k = Ok x /\
              c = mkNd [1%nat] [x].
Proof.
  intros Hst Hshape Hlen. unfold last_coordinate.
  rewrite (current_untouched _ _ Hst).
  destruct (na_arr (_data cvar)) as [shp data] eqn:Harr.
  simpl in Hshape, Hlen. subst shp.
  assert (forall s id' r, Variable_getitem cvar s id' = Ok r ->
            exists nd, nd_getitem (mkNd [n] data) s = Ok nd /\
                       na_arr (_data r) = nd) as Hread.
  { intros s id' r Hr.
    destruct (Variable_getitem_inv _ _ _ _ Hr) as (d & Hd & -> & _).
    simpl in Hd. rewrite Harr in Hd.
    destruct (nd_getitem (mkNd [n] data) s) as [nd|]; [|discriminate].
    injection Hd as <-. now exists nd. }
  assert (forall (r : Var T) (r' : scalar num) id',
            na_arr (_data r) = mkNd [1%nat] [r'] ->
            forall r2, Variable_getitem r (Sub1 (Int (-1))) id' = Ok r2 ->
            na_arr (_data r2) = mkNd [1%nat] [r']) as Hone.
  { intros r r' id' Hr r2 Hr2.
    destruct (Variable_getitem_inv _ _ _ _ Hr2) as (d & Hd & -> & _).
    simpl in Hd. rewrite Hr in Hd. simpl in Hd. now injection Hd as <-. }
  destruct g as [a [stop|]|k|l|l]; simpl.
  - destruct (Variable_getitem cvar _ id) as [r|] eqn:Hr; [simpl|discriminate].
    intros [= <-]. destruct (Hread _ _ _ Hr) as (nd & Hnd & Hdata).
    destruct (nd_getitem_int n data _ nd Hlen Hnd) as (x & Hx & ->).
    exists (stop - 1), x. unfold ndarray_of. simpl. auto.
  - discriminate.
  - destruct (Variable_getitem cvar _ id) as [r|] eqn:Hr; [simpl|discriminate].
    destruct (Variable_getitem r _ (S id)) as [r2|] eqn:Hr2; [simpl|discriminate].
    intros [= <-]. destruct (Hread _ _ _ Hr) as (nd & Hnd & Hdata).
    destruct (nd_getitem_int n data _ nd Hlen Hnd) as (x & Hx & ->).
    exists k, x. unfold ndarray_of. simpl. rewrite (Hone _ _ _ Hdata _ Hr2). auto.
  - destruct (Variable_getitem cvar _ id) as [r|] eqn:Hr; [simpl|discriminate].
    destruct (Variable_getitem r _ (S id)) as [r2|] eqn:Hr2; [simpl|discriminate].
    intros [= <-]. destruct (Hread _ _ _ Hr) as (nd & Hnd & Hdata).
    destruct (nd_getitem_positions n data (List l) l nd Hlen (or_introl eq_refl) Hnd)
      as (xs & -> & Hxs).
    destruct (Variable_getitem_inv _ _ _ _ Hr2) as (d & Hd & -> & _).
    simpl in Hd. rewrite Hdata in Hd.
    destruct (nd_getitem (mkNd [length xs] xs) _) as [nd2|] eqn:Hnd2; [|discriminate].
    injection Hd as <-.
    destruct (nd_getitem_int (length xs) xs _ nd2 eq_refl Hnd2) as (x & Hx & ->).
    apply py_index_minus_one in Hx.
    pose proof (Forall2_last _ _ _ Hxs) as Hlast. rewrite Hx in Hlast.
    inversion Hlast as [k x' Hk Hkl Hxl|]; subst.
    exists k, x. unfold ndarray_of. simpl. auto.
  - destruct (Variable_getitem cvar _ id) as [r|] eqn:Hr; [simpl|discriminate].
    destruct (Variable_getitem r _ (S id)) as [r2|] eqn:Hr2; [simpl|discriminate].
    intros [= <-]. destruct (Hread _ _ _ Hr) as (nd & Hnd & Hdata).
    destruct (nd_getitem_positions n data (Arr l) l nd Hlen (or_intror eq_refl) Hnd)
      as (xs & -> & Hxs).
    destruct (Variable_getitem_inv _ _ _ _ Hr2) as (d & Hd & -> & _).
    simpl in Hd. rewrite Hdata in Hd.
    destruct (nd_getitem (mkNd [length xs] xs) _) as [nd2|] eqn:Hnd2; [|discriminate].
    injection Hd as <-.
    destruct (nd_getitem_int (length xs) xs _ nd2 eq_refl Hnd2) as (x & Hx & ->).
    apply py_index_minus_one in Hx.
    pose proof (Forall2_last _ _ _ Hxs) as Hlast. rewrite Hx in Hlast.
    inversion Hlast as [k x' Hk Hkl Hxl|]; subst.
    exists k, x. unfold ndarray_of. simpl. auto.
Qed.
End ApplyFacts.

Section ApplyLoop.
Context {num : Type} `{Numeric num} {K W : Type} `{EqDecision K}.

#[local] Abbreviation T := (numpyArray num).

Variables (self : Field num T) (coord : string) (m0 : nat).
Variables (cvar new_variable target : Var T).
Variable variables : dict (option string) (Var T).
Variable func : ndarray (scalar num) -> nat -> result (ndarray (scalar num)).
Variables (id n G : nat).

Hypothesis Htarget : dget variables (Some coord) = Some target.
Hypothesis Hcv : na_id (_data cvar) <> na_id (_data new_variable).
Hypothesis Hct : na_id (_data cvar) <> na_id (_data target).
Hypothesis Htv : na_id (_data target) <> na_id (_data new_variable).
Hypothesis Hshape : nd_shape (na_arr (_data cvar)) = [n].
Hypothesis Hlen : length (nd_data (na_arr (_data cvar))) = n.

(** The loop writes, at the position of each group, the coordinate value
    at the last position of the group, and leaves the earlier positions of
    the new coordinate as they are. *)
Lemma apply_loop_labels (items : list (K * list index)) :
  forall (i : nat) (st st' : store),
  apply_loop self coord m0 cvar new_variable variables func id items i st
    = Ok st' ->
  dget st (na_id (_data cvar)) = None ->
  nd_shape (array_in st target) = [G] ->
  length (nd_data (array_in st target)) = G ->
  (i + length items <= G)%nat ->
  nd_shape (array_in st' target) = [G] /\
  length (nd_data (array_in st' target)) = G /\
  (forall j, (j < i)%nat ->
     nd_data (array_in st' target) !! j = nd_data (array_in st target) !! j) /\
  (forall j key group, items !! j = Some (key, group) ->
     exists g k x,
       group !! m0 = Some g /\ last_position g = Some k /\
       py_index (nd_data (na_arr (_data cvar))) k = Ok x /\
       nd_data (array_in st' target) !! (i + j)%nat = Some x).
Proof.
  induction items as [|[key group] items IH]; intros i st st'; simpl.
  - intros [= <-] _ Hs Hl _. repeat split; auto.
    intros j key group Hj. discriminate.
  - destruct (Variable_getitem _ (SubSeq group) id) as [sub|]; [simpl|discriminate].
    destruct (func _ m0) as [r|]; [simpl|discriminate].
    destruct (write st new_variable _ r) as [st1|] eqn:Hw1; [simpl|discriminate].
    destruct (py_index group (Z.of_nat m0)) as [g|] eqn:Hg; [simpl|discriminate].
    destruct (last_coordinate st1 cvar g id) as [c|] eqn:Hc; [simpl|discriminate].
    rewrite Htarget. simpl.
    destruct (write st1 target _ c) as [st2|] eqn:Hw2; [simpl|discriminate].
    intros Hloop Hst Hs Hl Hbound.
    assert (dget st1 (na_id (_data cvar)) = None) as Hst1.
    { now rewrite (write_other _ _ _ _ _ _ Hw1 Hcv). }
    assert (array_in st1 target = array_in st target) as Harr1.
    { exact (array_in_other _ _ _ _ _ _ Hw1 Htv). }
    destruct (last_coordinate_value st1 cvar g id n c Hst1 Hshape Hlen Hc)
      as (k & x & Hk & Hx & ->).
    assert (array_in st2 target
            = mkNd [G] (<[i := x]> (nd_data (array_in st target)))) as Harr2.
    { rewrite <- Harr1.
      apply (write_label st1 st2 target G i x); rewrite ?Harr1; auto. lia. }
    assert (dget st2 (na_id (_data cvar)) = None) as Hst2.
    { now rewrite (write_other _ _ _ _ _ _ Hw2 Hct). }
    destruct (IH (S i) st2 st' Hloop Hst2) as (Hs' & Hl' & Hkeep & Hnew).
    { now rewrite Harr2. }
    { rewrite Harr2. simpl. now rewrite length_insert. }
    { lia. }
    split; [assumption|]. split; [assumption|]. split.
    + intros j Hj. rewrite Hkeep by lia. rewrite Harr2. simpl.
      apply list_lookup_insert_ne. lia.
    + intros [|j] key' group' Hj; simpl in Hj.
      * injection Hj as <- <-. exists g, k, x.
        apply py_index_nat in Hg. repeat split; auto.
        rewrite Nat.add_0_r, Hkeep by lia. rewrite Harr2. simpl.
        apply list_lookup_insert_eq. lia.
      * destruct (Hnew j key' group' Hj) as (g' & k' & x' & ? & ? & ? & Hx').
        exists g', k', x'. repeat split; auto.
        now replace (i + S j)%nat with (S i + j)%nat by lia.
Qed.
End ApplyLoop.

Section ApplyVariables.
Context {num : Type} `{Numeric num}.

#[local] Abbreviation T := (numpyArray num).

Lemma Variable_init_new_id (dims : list dim_arg) (dt : dtype)
    (nm : option string) (attrs : attrs_arg) (ds : option (dict string string))
    (id : nat) (v : Var T) :
  Variable_init dims dt nm attrs ds DataNone numpyArray_class id = Ok v ->
  na_id (_data v) = id.
Proof.
  unfold Variable_init.
  destruct (init_dimensions dims) as [dims'|]; [simpl|discriminate].
  unfold numpyArray_new. destruct (forallb _ _); [simpl|discriminate].
  destruct attrs; [|discriminate]. now intros [= <-].
Qed.

(** The new coordinate variable: an array of one slot for each group,
    none of them written. *)
Lemma Variable_init_label (dim : Dimension) (dt : dtype)
    (attrs : dict string string) (id G : nat) (v : Var T) :
  Variable_init [DimInstance dim] dt None (AttrDict attrs) None DataNone
                numpyArray_class id = Ok v ->
  size dim = Z.of_nat G ->
  na_id (_data v) = id /\ na_arr (_data v) = mkNd [G] (replicate G SEmpty).
Proof.
  intros Hinit Hsize. split; [exact (Variable_init_new_id _ _ _ _ _ _ _ Hinit)|].
  revert Hinit. unfold Variable_init. simpl. unfold numpyArray_new. simpl.
  rewrite Hsize.
  replace (0 <=? Z.of_nat G) with true by (symmetry; apply Z.leb_le; lia).
  simpl. intros [= <-]. simpl. now rewrite Nat2Z.id, Nat.mul_1_r.
Qed.

Lemma apply_coordinates_label (coord : string) (dim : Dimension) (id G : nat)
    (items : list (string * (mapping * Var T))) :
  size dim = Z.of_nat G ->
  (forall nm m v, (nm, (m, v)) ∈ items -> (name v = Some coord <-> nm = coord)) ->
  forall variables variables',
  apply_coordinates coord dim items variables id = Ok variables' ->
  (exists t, dget variables (Some coord) = Some t /\ is_label id G t)
  \/ coord ∈ keys items ->
  exists t, dget variables' (Some coord) = Some t /\ is_label id G t.
Proof.
  intros Hsize. induction items as [|[nm [m v]] items IH]; intros Hnames vars vars'; simpl.
  - intros [= <-] [Hold|Hin]; [assumption|]. now apply elem_of_nil in Hin.
  - assert (forall nm' m' v', (nm', (m', v')) ∈ items ->
              (name v' = Some coord <-> nm' = coord)) as Hrest.
    { intros nm' m' v' Hin. apply (Hnames nm' m' v'). now right. }
    pose proof (Hnames nm m v (list_elem_of_here _ _)) as Hhere.
    case_bool_decide as Hnm.
    + destruct (Variable_init _ _ _ _ _ _ _ id) as [t|] eqn:Ht; [simpl|discriminate].
      intros Hloop _. apply (IH Hrest _ _ Hloop). left. exists t.
      split; [|exact (Variable_init_label _ _ _ _ _ _ Ht Hsize)].
      replace (name v) with (Some coord) by (symmetry; now apply Hhere).
      apply dget_dset_eq.
    + intros Hloop Hor. apply (IH Hrest _ _ Hloop).
      destruct Hor as [(t & Ht & Hl)|Hin].
      * left. exists t. split; [|assumption].
        rewrite dget_dset_ne; [assumption|].
        intros Heq. apply Hnm. now apply Hhere.
      * right. apply elem_of_cons in Hin as [Heq|Hin]; [|assumption].
        simpl in Heq. congruence.
Qed.

Lemma apply_ancil_other (coord : string)
    (items : list (string * (mapping * Var T))) :
  forall variables : dict (option string) (Var T),
  dget items coord = None ->
  dget (apply_ancil items variables) (Some coord) = dget variables (Some coord).
Proof.
  unfold apply_ancil.
  induction items as [|[nm [m v]] items IH]; intros vars; simpl; [reflexivity|].
  destruct (decide (coord = nm)) as [->|Hne]; [discriminate|].
  intros Hget. rewrite (IH _ Hget). apply dget_dset_ne. congruence.
Qed.
End ApplyVariables.

Lemma stored_under_role_spec {num T : Type} (self : Field num T)
    (coord : string) :
  stored_under_role self coord = true ->
  (forall nm m v, (nm, (m, v)) ∈ coordinate_variables self ->
                  (name v = Some coord <-> nm = coord)) /\
  dget (ancil_variables self) coord = None.
Proof.
  unfold stored_under_role. intros [Hcv Hanc]%andb_true_iff. split.
  - intros nm m v Hin. rewrite forallb_forall in Hcv.
    apply list_elem_of_In in Hin. specialize (Hcv _ Hin). simpl in Hcv.
    apply eqb_prop in Hcv.
    rewrite <- (bool_decide_spec (name v = Some coord)).
    rewrite <- (bool_decide_spec (nm = coord)). now rewrite Hcv.
  - unfold dmem in Hanc. now destruct (dget _ coord).
Qed.

(** Where the variable of the grouped coordinate is stored under the name
    of its role, the labels reach the new coordinate variable.  In the
    dataset that [apply] returns, it holds, at the position of each group
    in the order of the groups, the value of the coordinate at the last
    position of the group: at [stop - 1] for a group given by a slice, at
    the last listed position for a group given by a list of positions.
    The coordinate spans one dimension and has one axis, and its variable
    is an older object than those that the call creates. *)
Theorem apply_labels_last_coordinate {num K W : Type}
    `{Numeric num} `{EqDecision K}
    (self fld : Field num (numpyArray num)) (gb : GroupBy K W)
    (func : ndarray (scalar num) -> nat -> result (ndarray (scalar num)))
    (id m0 n : nat) (cvar : Var (numpyArray num))
    (ds : Dataset (numpyArray num)) (st : dict nat (numpyArray num)) :
  dget (coordinate_variables self) (gb_coordinate gb) = Some ([m0], cvar) ->
  stored_under_role self (gb_coordinate gb) = true ->
  (na_id (_data cvar) < id)%nat ->
  nd_shape (na_arr (_data cvar)) = [n] ->
  length (nd_data (na_arr (_data cvar))) = n ->
  Field_apply self gb func id = Ok (ds, fld, st) ->
  exists out,
    dget (ds_variables ds) (Some (gb_coordinate gb)) = Some out /\
    forall i key group, groups gb !! i = Some (key, group) ->
      exists g k x,
        group !! m0 = Some g /\ last_position g = Some k /\
        py_index (nd_data (na_arr (_data cvar))) k = Ok x /\
        nd_data (na_arr (_data out)) !! i = Some x.
Proof.
  intros Hcoord Hrole Hold Hshape Hlen.
  destruct (stored_under_role_spec _ _ Hrole) as [Hnames Hancil].
  unfold Field_apply.
  rewrite Hcoord. simpl.
  destruct (py_index (dimensions (variable self)) (Z.of_nat m0)) as [old|];
    [simpl|discriminate].
  set (G := length (groups gb)).
  set (dim := mkDimension (dim_name old) (Z.of_nat G) true).
  destruct (py_setitem (dimensions (variable self)) _ dim) as [dims|] eqn:Hdims;
    [simpl|discriminate].
  apply py_setitem_nat in Hdims as [-> Hm0].
  destruct (Variable_init _ _ _ _ _ _ _ id) as [var|] eqn:Hvar; [simpl|discriminate].
  destruct (py_index (<[m0:=dim]> _) (Z.of_nat m0)) as [dim'|] eqn:Hdim';
    [simpl|discriminate].
  apply py_index_nat in Hdim'. rewrite list_lookup_insert_eq in Hdim' by assumption.
  injection Hdim' as <-.
  destruct (apply_coordinates _ dim _ _ (S id)) as [vars|] eqn:Hvars;
    [simpl|discriminate].
  destruct (apply_loop _ _ _ _ _ _ _ _ _ _ _) as [st'|] eqn:Hloop;
    [simpl|discriminate].
  destruct (dataset (variable self)) as [attrs|]; [simpl|discriminate].
  intros [= <- <- <-].
  destruct (apply_coordinates_label (gb_coordinate gb) dim (S id) G
              (coordinate_variables self) eq_refl Hnames _ _ Hvars)
    as (target & Htarget & Hid & Harr).
  { right. eapply dget_Some_keys; eauto. }
  assert (dget (apply_ancil (ancil_variables self) vars) (Some (gb_coordinate gb))
          = Some target) as Htarget'.
  { now rewrite apply_ancil_other. }
  pose proof (Variable_init_new_id _ _ _ _ _ _ _ Hvar) as Hvid.
  destruct (apply_loop_labels self (gb_coordinate gb) m0 cvar var target _ func
              (S (S id)) n G Htarget' ltac:(lia) ltac:(lia) ltac:(lia)
              Hshape Hlen (groups gb) 0%nat [] st' Hloop)
    as (_ & _ & _ & Hnew).
  { reflexivity. }
  { unfold array_in, current. simpl. now rewrite Harr. }
  { unfold array_in, current. simpl. rewrite Harr. simpl. apply length_replicate. }
  { simpl. unfold G. lia. }
  exists (current st' target). simpl. split.
  - rewrite dget_fmap_values. now rewrite Htarget'.
  - intros i key group Hi. exact (Hnew i key group Hi).
Qed.

Lemma apply_labels_last_coordinate_witness :
  match Field_apply monthly_field parity_groups sum_1d 20 with
  | Ok (ds, _, _) =>
      exists out,
        dget (ds_variables ds) (Some "time") = Some out /\
        forall i key group, groups parity_groups !! i = Some (key, group) ->
          exists g k x,
            group !! 0%nat = Some g /\ last_position g = Some k /\
            py_index (SNum <$> zrange 0 24) k = Ok x /\
            nd_data (na_arr (_data out)) !! i = Some x
  | Raise _ => False
  end.
Proof.
  destruct (Field_apply monthly_field parity_groups sum_1d 20)
    as [[[ds fld] st]|e] eqn:Happly.
  - apply (apply_labels_last_coordinate monthly_field fld parity_groups sum_1d
             20 0 24
             (example_variable 1 "time" [time_dim] (numbers (zrange 0 24)))
             ds st).
    + reflexivity.
    + reflexivity.
    + simpl. lia.
    + reflexivity.
    + reflexivity.
    + exact Happly.
  - vm_compute in Happly. discriminate.
Defined.

(** C1.  [apply] keeps the new coordinate variable under the name of the
    variable it replaces and writes the label of each group through the
    name of the role, so that the labels reach it only where the two
    names are the same.  The latitude of [lat_field] is the variable
    [lat]: [groupby] gives three bands, and [apply] on them raises
    KeyError at the label of the first.  The time of [shadowed_field] is
    the variable [t], and an ancillary variable is registered as [time]:
    [apply] on the two years returns the sums, the new coordinate [t] is
    as it was created, without a value, and the labels 11 and 23, the last
    months of the years, are written over the first two values of the
    ancillary variable of the field that was grouped. *)
Theorem apply_labels_written_by_role :
  Field_groupby lat_field "latitude" by_band 10 zero_junk zero_junk
    = Ok (lat_field, band_groups) /\
  Field_apply lat_field band_groups sum_1d 20 = Raise KeyError /\
  Field_groupby shadowed_field "time" by_year 10 zero_junk zero_junk
    = Ok (shadowed_field, yearly_groups) /\
  applied_values_of shadowed_field yearly_groups "pr"
    = Ok (Some [SNum 1266; SNum 1410]) /\
  applied_values_of shadowed_field yearly_groups "t"
    = Ok (Some [SEmpty; SEmpty]) /\
  applied_values_of shadowed_field yearly_groups "time"
    = Ok (Some (SNum 11 :: SNum 23 :: (SNum <$> zrange 502 22))).
Proof. repeat split; vm_compute; reflexivity. Qed.

(** ** The two years of monthly values *)

(** Grouping the 24 months by calendar year gives two groups, each a
    slice of 12 positions. *)
Example groupby_year :
  Field_groupby monthly_field "time" by_year 10 zero_junk zero_junk
  = Ok (monthly_field, yearly_groups).
Proof. vm_compute. reflexivity. Qed.

(** Grouping them by the parity of the month gives two groups of
    positions that are no run, and stay lists. *)
Example groupby_parity :
  Field_groupby monthly_field "time" by_parity 10 zero_junk zero_junk
  = Ok (monthly_field, parity_groups).
Proof. vm_compute. reflexivity. Qed.

(** Summing by year: each value is the sum of its twelve months, and each
    year is labelled with its last month. *)
Example apply_year :
  applied_values yearly_groups "pr" = Ok (Some [SNum 1266; SNum 1410]) /\
  applied_values yearly_groups "time" = Ok (Some [SNum 11; SNum 23]).
Proof. split; vm_compute; reflexivity. Qed.

Example apply_parity :
  applied_values parity_groups "pr" = Ok (Some [SNum 1332; SNum 1344]) /\
  applied_values parity_groups "time" = Ok (Some [SNum 22; SNum 23]).
Proof. split; vm_compute; reflexivity. Qed.

(** * Further properties *)

(** ** Dimensions *)

(** X1.  [==] on dimensions compares the name and the size and nothing
    else: it holds exactly when the two dimensions have the same JSON
    form, so a dimension equals the one that differs from it in [fixed]
    only, and [!=] holds exactly when the JSON forms differ. *)
Theorem Dimension_eq_is_asjson_eq (d other : Dimension) :
  (Dimension_eqb d other = true
   <-> Dimension_asjson d = Dimension_asjson other) /\
  (Dimension_neb d other = true
   <-> Dimension_asjson d <> Dimension_asjson other) /\
  Dimension_eqb d (mkDimension (dim_name d) (size d) (negb (fixed d))) = true.
Proof.
  assert (Dimension_eqb d other = true
          <-> Dimension_asjson d = Dimension_asjson other) as Heq.
  { unfold Dimension_eqb, Dimension_asjson.
    rewrite andb_true_iff, Z.eqb_eq, bool_decide_eq_true. split.
    - now intros [-> ->].
    - intros [= -> ->]. auto. }
  split; [exact Heq|]. split.
  - unfold Dimension_neb. rewrite negb_true_iff, <- Heq.
    now destruct (Dimension_eqb d other).
  - unfold Dimension_eqb. simpl. rewrite Z.eqb_refl.
    now rewrite bool_decide_true.
Qed.

(** X2.  Whatever values are assigned to the size of a dimension, in any
    number, the name and [fixed] stay as they are, a fixed dimension stays
    as it is, and a size that is not negative never becomes negative. *)
Theorem set_size_keeps_invariant (d : Dimension) (vs : list pyval) :
  dim_name (resize_all d vs) = dim_name d /\
  fixed (resize_all d vs) = fixed d /\
  (fixed d = true -> resize_all d vs = d) /\
  (0 <= size d -> 0 <= size (resize_all d vs)).
Proof.
  unfold resize_all. revert d. induction vs as [|v vs IH]; intros d; simpl.
  - auto.
  - assert (dim_name (set_size d v).1 = dim_name d
            /\ fixed (set_size d v).1 = fixed d
            /\ (fixed d = true -> (set_size d v).1 = d)
            /\ (0 <= size d -> 0 <= size (set_size d v).1)) as (Hn & Hf & Hd & Hs).
    { unfold set_size. destruct (fixed d) eqn:Hfix; simpl; [auto|].
      destruct v as [z|z| |q| |]; simpl; auto.
      - destruct (Z.leb_spec 0 z); simpl; auto.
        destruct (in_int_range z); simpl; auto.
        repeat split; auto; discriminate.
      - destruct (0 <=? z); simpl; auto.
      - destruct (Qle_bool 0 q); simpl; auto. }
    destruct (IH (set_size d v).1) as (IHn & IHf & IHd & IHs).
    rewrite IHn, IHf, Hn, Hf. repeat split; auto.
    intros Hfix. rewrite IHd; [now apply Hd|]. now rewrite Hf.
Qed.

Lemma set_size_keeps_invariant_witness :
  resize_all (mkDimension "t" 10 false) [PInt 20; PInt (-3); PStr "a"; PInt 5]
    = mkDimension "t" 5 false /\
  0 <= size (resize_all (mkDimension "t" 10 false) [PInt (-3); PBool true]).
Proof.
  split; [reflexivity|].
  apply (set_size_keeps_invariant (mkDimension "t" 10 false)
                                  [PInt (-3); PBool true]).
  simpl. lia.
Defined.

(** ** Variables *)

(** X3.  [v[s]] raises what the storage raises for [s]; it raises
    Exception when the storage returns an array of more axes than [v] has
    dimensions (the dimensions come from a [zip], which stops at the
    shorter sequence, and the constructor then finds the shapes
    different); in every other case it returns a variable on the sliced
    storage that has the name, the attributes and the dataset of [v], the
    element type of the storage, and the leading dimensions of [v] with
    the sizes of the storage. *)
Theorem Variable_getitem_outcome {num T : Type} `{Array num T}
    (v : Var T) (s : subscript) (id : oid) :
  Variable_getitem v s id =
  match arr_getitem (_data v) s id with
  | Raise e => Raise e
  | Ok data =>
      if bool_decide (length (arr_shape data) <= length (dimensions v))%nat
      then Ok (mkVariable (resized <$> zip (dimensions v) (arr_shape data))
                          (arr_dtype data) (name v) (attributes v) (dataset v)
                          data)
      else Raise Exception
  end.
Proof.
  destruct (arr_getitem (_data v) s id) as [data|e] eqn:Hget.
  - case_bool_decide as Hrank.
    + now apply Variable_getitem_ok.
    + unfold Variable_getitem. rewrite Hget. simpl.
      destruct (getitem_dims_resized (zip (dimensions v) (arr_shape data)))
        as (das & Hd & Hi).
      rewrite Hd. simpl. unfold Variable_init. rewrite Hi. simpl.
      rewrite bool_decide_false; [reflexivity|].
      change (map size ?l) with (size <$> l). rewrite sizes_resized.
      intros Heq. apply Hrank. rewrite Heq at 1. rewrite length_take. lia.
  - unfold Variable_getitem. now rewrite Hget.
Qed.

(** X4.  A variable that is constructed on an array of the requested
    storage class holds that very array, with the element type that the
    call names (the one of the array is not looked at), when the shape of
    the array is the tuple of the sizes of the dimensions; the constructor
    raises Exception when it is not. *)
Theorem Variable_init_given_array {num T : Type} `{Array num T}
    (dims : list dim_arg) (ds' : list Dimension) (dt : dtype)
    (nm : option string) (attrs : dict string string)
    (ds : option (dict string string)) (a : T) (id : oid) :
  init_dimensions dims = Ok ds' ->
  Variable_init dims dt nm (AttrDict attrs) ds (DataArray a) (arr_class a) id
  = if bool_decide (arr_shape a = size <$> ds')
    then Ok (mkVariable ds' dt nm attrs ds a)
    else Raise Exception.
Proof.
  intros Hdims. unfold Variable_init. rewrite Hdims. simpl.
  change (map size ds') with (size <$> ds').
  case_bool_decide; [|reflexivity].
  now rewrite bool_decide_true by reflexivity.
Qed.

Lemma Variable_init_given_array_witness :
  Variable_init [DimTuple "x" 3 None] DInt (Some "V") (AttrDict []) None
                (DataArray (mkNumpyArray 0 DFloat (numbers [1; 2; 3])))
                numpyArray_class 1
  = Ok (mkVariable [mkDimension "x" 3 true] DInt (Some "V") [] None
                   (mkNumpyArray 0 DFloat (numbers [1; 2; 3]))) /\
  Variable_init [DimTuple "x" 2 None] DInt (Some "V") (AttrDict []) None
                (DataArray (mkNumpyArray 0 DFloat (numbers [1; 2; 3])))
                numpyArray_class 1
  = Raise Exception.
Proof.
  split.
  - exact (Variable_init_given_array (num:=Z) (T:=numpyArray Z)
             [DimTuple "x" 3 None] [mkDimension "x" 3 true] DInt (Some "V") []
             None (mkNumpyArray 0 DFloat (numbers [1; 2; 3])) 1 eq_refl).
  - exact (Variable_init_given_array (num:=Z) (T:=numpyArray Z)
             [DimTuple "x" 2 None] [mkDimension "x" 2 true] DInt (Some "V") []
             None (mkNumpyArray 0 DFloat (numbers [1; 2; 3])) 1 eq_refl).
Defined.

(** ** The list that [map] returns *)

Lemma unravel_bound (shp : list nat) (k : nat) :
  (k < prod_shape shp)%nat ->
  forall t ix, unravel shp k !! t = Some ix ->
    exists n, shp !! t = Some n /\ (ix < n)%nat.
Proof.
  revert k. induction shp as [|n shp IH]; intros k Hk t ix; simpl.
  - discriminate.
  - simpl in Hk. fold (prod_shape shp) in Hk.
    assert (0 < prod_shape shp)%nat as Hpos by nia.
    destruct t as [|t]; simpl.
    + intros [= <-]. exists n. split; [reflexivity|].
      apply Nat.Div0.div_lt_upper_bound. lia.
    + intros Hix. apply (IH (k mod prod_shape shp)%nat); [|exact Hix].
      apply Nat.mod_upper_bound. lia.
Qed.

Lemma write_indices_inv (dims : mapping) (idxs : list nat) :
  forall (i : nat) (res res' : list index),
  write_indices dims i idxs res = Ok res' ->
  length res' = length res /\
  forall j e, res' !! j = Some e ->
    res !! j = Some e \/
    exists t ix, idxs !! t = Some ix /\ dims !! (i + t)%nat = Some j /\
                 e = Int (Z.of_nat ix).
Proof.
  induction idxs as [|ix idxs IH]; intros i res res'; simpl.
  - intros [= <-]. auto.
  - destruct (dims !! i) as [d|] eqn:Hd; [|discriminate].
    destruct (Nat.ltb_spec d (length res)) as [Hlt|_]; [|discriminate].
    intros Hw. apply IH in Hw as [Hlen Hentries].
    rewrite length_insert in Hlen. split; [exact Hlen|].
    intros j e He. destruct (Hentries j e He) as [Hold|(t & ix' & Ht & Hdt & ->)].
    + destruct (decide (j = d)) as [->|Hne].
      * rewrite list_lookup_insert_eq in Hold by exact Hlt.
        injection Hold as <-. right. exists 0%nat, ix.
        rewrite Nat.add_0_r. auto.
      * rewrite list_lookup_insert_ne in Hold by congruence. now left.
    + right. exists (S t), ix'. rewrite Nat.add_succ_r. auto.
Qed.

Section MapResult.
Context {num T : Type} `{Numeric num} `{Array num T}.
Variable self : Field num T.

Lemma map_resolved_inv (kwargs : dict string (scalar num)) (dims : mapping)
    (shp : list Z) (args : dict string (mapping * Var T))
    (res res' : list index) :
  map_resolved kwargs dims shp args res = Ok res' ->
  length res' = length res /\
  forall j e, res' !! j = Some e ->
    res !! j = Some e \/
    exists (k t : nat) (n : Z),
      e = Int (Z.of_nat k) /\ dims !! t = Some j /\ shp !! t = Some n /\
      Z.of_nat k < n.
Proof.
  unfold map_resolved.
  destruct (np_zeros shp) as [zeros|]; [simpl|discriminate].
  destruct (np_argmin _) as [k|]; [simpl|discriminate].
  unfold unravel_index.
  destruct (Nat.ltb_spec k (prod_shape (map Z.to_nat shp))) as [Hk|_];
    [simpl|discriminate].
  intros Hw. apply write_indices_inv in Hw as [Hlen Hentries].
  split; [exact Hlen|].
  intros j e He. destruct (Hentries j e He) as [Hold|(t & ix & Ht & Hd & ->)];
    [now left|right].
  destruct (unravel_bound _ _ Hk t ix Ht) as (n' & Hn' & Hlt).
  change (map Z.to_nat shp) with (Z.to_nat <$> shp) in Hn'.
  rewrite list_lookup_fmap in Hn'.
  destruct (shp !! t) as [n|] eqn:Hn; [|discriminate].
  injection Hn' as <-. exists ix, t, n. repeat split; auto. lia.
Qed.

Lemma map_step_inv (kwargs : dict string (scalar num)) (kws : list string)
    (st st' : list index * list string) (item : string * scalar num) :
  item.1 ∈ kws ->
  map_step self kwargs st item = Ok st' ->
  length st'.1 = length st.1 /\
  forall j e, st'.1 !! j = Some e -> st.1 !! j = Some e \/ map_entry self kws j e.
Proof.
  intros Hin. unfold map_step. destruct st as [res done].
  case_bool_decide; [intros [= <-]; auto|].
  case_bool_decide; [intros [= <-]; auto|].
  assert (forall (m : mapping * Var T) args,
            resolve self item.1 = Some m ->
            (res' ← map_resolved kwargs m.1 (shape m.2) args res;
             Ok (res', (done ++ keys args)%list)) = Ok st' ->
            length st'.1 = length (res, done).1 /\
            forall j e, st'.1 !! j = Some e ->
              (res, done).1 !! j = Some e \/ map_entry self kws j e) as Hres.
  { intros [m var] args Hm.
    destruct (map_resolved _ _ _ _ _) as [res'|] eqn:Hr; [simpl|discriminate].
    intros [= <-]. simpl.
    apply map_resolved_inv in Hr as [Hlen Hentries]. split; [exact Hlen|].
    intros j e He.
    destruct (Hentries j e He) as [Hold|(k & t & n & -> & Ht & Hn & Hlt)];
      [now left|right; right].
    exists k, t, item.1, m, var, n. auto 10. }
  destruct (dget (coordinate_variables self) item.1) as [m|] eqn:Hc.
  - apply Hres. unfold resolve. now rewrite Hc.
  - destruct (dget (ancil_variables self) item.1) as [m|] eqn:Ha.
    + apply Hres. unfold resolve. now rewrite Hc, Ha.
    + intros [= <-]. auto.
Qed.

Lemma map_loop_inv (kwargs : dict string (scalar num)) (kws : list string)
    (items : list (string * scalar num)) :
  forall st st' : list index * list string,
  (forall item, item ∈ items -> item.1 ∈ kws) ->
  map_loop self kwargs items st = Ok st' ->
  length st'.1 = length st.1 /\
  forall j e, st'.1 !! j = Some e -> st.1 !! j = Some e \/ map_entry self kws j e.
Proof.
  induction items as [|item items IH]; intros st st' Hin; simpl.
  - intros [= <-]. auto.
  - destruct (map_step self kwargs st item) as [st1|] eqn:Hstep;
      [simpl|discriminate].
    intros Hloop.
    apply (map_step_inv _ kws) in Hstep as [Hlen1 He1];
      [|apply Hin; left].
    apply IH in Hloop as [Hlen2 He2];
      [|intros it Hit; apply Hin; now right].
    split; [congruence|].
    intros j e He. destruct (He2 j e He) as [Hold|Hnew]; [|now right].
    now apply He1.
Qed.
End MapResult.

(** X5.  The list that [map] returns has one element for each dimension
    of the data variable.  Each element is [slice(None)] or an integer;
    an integer at the position [j] comes from a keyword that names a
    coordinate or an ancillary variable whose mapping sends one of its
    axes to [j], and it is a valid position on that axis of the
    variable. *)
Theorem map_result_invariant {num T : Type} `{Numeric num} `{Array num T}
    (self : Field num T) (kwargs : dict string (scalar num))
    (res : list index) :
  Field_map self kwargs = Ok res ->
  length res = length (shape (variable self)) /\
  forall j e, res !! j = Some e -> map_entry self (keys kwargs) j e.
Proof.
  unfold Field_map.
  destruct (map_loop self kwargs kwargs _) as [st'|] eqn:Hloop;
    [simpl|discriminate].
  intros [= <-].
  apply (map_loop_inv self kwargs (keys kwargs)) in Hloop as [Hlen Hentries].
  - simpl in Hlen. rewrite length_replicate in Hlen. split; [exact Hlen|].
    intros j e He. destruct (Hentries j e He) as [Hold|Hnew]; [|exact Hnew].
    simpl in Hold. apply lookup_replicate in Hold as [-> _]. now left.
  - intros item Hitem. unfold keys. apply list_elem_of_fmap. now exists item.
Qed.

Lemma map_result_invariant_witness :
  exists res,
    Field_map station_field [("latitude", SNum 10)] = Ok res /\
    length res = 1%nat /\
    forall j e, res !! j = Some e -> map_entry station_field ["latitude"] j e.
Proof.
  exists [Int 1]. split; [reflexivity|].
  exact (map_result_invariant station_field [("latitude", SNum 10)] [Int 1]
                              eq_refl).
Defined.

(** X6.  When every keyword of a call of [map] is [_method] or names
    neither a coordinate nor an ancillary variable, and so when there is
    no keyword at all, [map] returns [slice(None)] for every dimension of
    the data variable. *)
Theorem map_without_recognised_keyword {num T : Type}
    `{Numeric num} `{Array num T}
    (self : Field num T) (kwargs : dict string (scalar num)) :
  (forall k, k ∈ keys kwargs -> ignored_by_map self k) ->
  Field_map self kwargs
  = Ok (replicate (length (shape (variable self))) slice_None).
Proof.
  intros Hign. unfold Field_map.
  assert (forall (items : list (string * scalar num)) st,
            (forall k, k ∈ keys items -> ignored_by_map self k) ->
            map_loop self kwargs items st = Ok st) as Hloop.
  { induction items as [|[k v] items IH]; intros st Hitems; simpl.
    - reflexivity.
    - rewrite map_step_ignored by (apply Hitems; simpl; left).
      simpl. apply IH. intros k' Hk'. apply Hitems. simpl. now right. }
  now rewrite Hloop.
Qed.

Lemma map_without_recognised_keyword_witness :
  Field_map station_field
            [("_method", SStr "nearest_neighbour"); ("colour", SStr "red")]
  = Ok [slice_None].
Proof.
  refine (map_without_recognised_keyword station_field
            [("_method", SStr "nearest_neighbour"); ("colour", SStr "red")] _).
  intros k Hk. unfold ignored_by_map.
  apply list_elem_of_In in Hk. simpl in Hk.
  destruct Hk as [<-|[<-|[]]]; split; auto.
Defined.

(** ** Arrays of the same shape *)

Lemma chunks_join {A : Type} (s stride : nat) :
  forall data : list A,
  length data = (s * stride)%nat ->
  mjoin ((fun p => take stride (drop (p * stride) data)) <$> seq 0 s) = data.
Proof.
  induction s as [|s IH]; intros data Hlen.
  - destruct data; [reflexivity|discriminate].
  - rewrite <- cons_seq, <- fmap_S_seq. simpl.
    rewrite <- list_fmap_compose.
    transitivity (take stride data ++ drop stride data); [|apply take_drop].
    change (drop 0 data) with data.
    apply (f_equal (app (take stride data))).
    etransitivity;
      [|apply (IH (drop stride data)); rewrite length_drop; lia].
    f_equal. apply list_fmap_ext. intros _ q _. simpl.
    now rewrite drop_drop.
Qed.

Lemma bcast_same {A : Type} (shp : list nat) :
  forall data : list A,
  length data = prod_shape shp -> bcast shp shp data = Some data.
Proof.
  induction shp as [|s shp IH]; intros data Hlen; simpl.
  - reflexivity.
  - simpl in Hlen. fold (prod_shape shp) in Hlen |- *.
    rewrite decide_True by reflexivity.
    assert (mapM (fun p =>
                    bcast shp shp (take (prod_shape shp)
                                        (drop (p * prod_shape shp) data)))
                 (seq 0 s)
            = Some ((fun p => take (prod_shape shp)
                                   (drop (p * prod_shape shp) data))
                      <$> seq 0 s)) as ->.
    { apply mapM_Some. apply Forall2_fmap_r, Forall_Forall2_diag.
      apply list.Forall_forall. intros p Hp. apply IH.
      apply elem_of_seq in Hp. rewrite length_take, length_drop. nia. }
    simpl. now rewrite chunks_join.
Qed.

Lemma broadcast_same {A : Type} (shp : list nat) (data : list A) :
  length data = prod_shape shp -> broadcast shp shp data = Ok data.
Proof.
  intros Hlen. unfold broadcast. rewrite Nat.sub_diag. simpl.
  now rewrite bcast_same.
Qed.

(** ** The nearest element *)

Section NearestNeighbour.
Context {num T : Type} `{Numeric num} `{Array num T}.
Hypothesis nltb_irrefl : forall a, nltb a a = false.
Hypothesis nltb_trans :
  forall a b c, nltb a b = true -> nltb b c = true -> nltb a c = true.
Hypothesis nltb_cotrans :
  forall a b c, nltb a c = true -> nltb a b = true \/ nltb b c = true.

Lemma argmin_from_spec (l : list num) :
  forall (pre : list num) (best : nat) (bv : num),
  pre !! best = Some bv ->
  (forall j xj, pre !! j = Some xj -> nltb xj bv = false) ->
  (forall j xj, (j < best)%nat -> pre !! j = Some xj -> nltb bv xj = true) ->
  first_smallest (pre ++ l) (argmin_from best bv (length pre) l).
Proof.
  induction l as [|x l IH]; intros pre best bv Hbest Hmin Hfirst; simpl.
  - rewrite app_nil_r. now exists bv.
  - assert (length (pre ++ [x]) = S (length pre)) as Hlen
        by (rewrite length_app; simpl; lia).
    replace (pre ++ x :: l) with ((pre ++ [x]) ++ l)
      by (now rewrite <- app_assoc).
    rewrite <- Hlen.
    destruct (nltb x bv) eqn:Hx.
    + apply IH.
      * rewrite lookup_app_r, Nat.sub_diag by lia. reflexivity.
      * intros j xj Hj. apply lookup_snoc_Some in Hj as [[_ Hj]|[_ <-]].
        -- destruct (nltb xj x) eqn:Hjx; [|reflexivity].
           rewrite <- (Hmin j xj Hj). symmetry. now apply (nltb_trans _ x).
        -- apply nltb_irrefl.
      * intros j xj Hlt Hj. apply lookup_snoc_Some in Hj as [[_ Hj]|[Hj' _]];
          [|lia].
        destruct (nltb_cotrans x xj bv Hx) as [Hl|Hr]; [exact Hl|].
        now rewrite (Hmin j xj Hj) in Hr.
    + apply IH.
      * now apply lookup_app_l_Some.
      * intros j xj Hj. apply lookup_snoc_Some in Hj as [[_ Hj]|[_ <-]];
          [now apply (Hmin j)|exact Hx].
      * intros j xj Hlt Hj. apply lookup_snoc_Some in Hj as [[_ Hj]|[Hj' _]].
        -- now apply (Hfirst j).
        -- apply lookup_lt_Some in Hbest. lia.
Qed.

Lemma np_argmin_spec (shp : list nat) (x : num) (l : list num) :
  exists k, np_argmin (mkNd shp (x :: l)) = Ok k /\
            first_smallest (x :: l) k.
Proof.
  exists (argmin_from 0 x 1 l). split; [reflexivity|].
  apply (argmin_from_spec l [x] 0%nat x).
  - reflexivity.
  - intros [|j] xj; simpl; [intros [= <-]; apply nltb_irrefl|discriminate].
  - intros j xj Hlt. lia.
Qed.
End NearestNeighbour.

Lemma result_bind_Ok {A B : Type} (a : A) (f : A -> result B) :
  (Ok a ≫= f) = f a.
Proof. reflexivity. Qed.

Section SingleKeyword.
Context {num T : Type} `{Numeric num} `{Array num T}.

Lemma mapM_numbers {B : Type} (f : num -> B) (ys : list num) :
  mapM (fun e : scalar num => match e with
                              | SNum y => Ok (f y)
                              | _ => Raise TypeError
                              end) (SNum <$> ys)
  = Ok (f <$> ys).
Proof.
  induction ys as [|y ys IH]; [reflexivity|].
  rewrite !fmap_cons. simpl. now rewrite IH.
Qed.

Lemma complementary_single (self : Field num T) (nm : string) (v : scalar num)
    (dims : mapping) (args : dict string (mapping * Var T)) :
  complementary self [(nm, v)] nm dims args = args.
Proof.
  unfold complementary. revert args.
  induction (coordinate_variables self) as [|[name other] cvs IH];
    intros args; simpl; [reflexivity|].
  rewrite IH. unfold dmem. simpl.
  destruct (decide (name = nm)) as [->|Hne]; simpl.
  - now rewrite bool_decide_false by auto.
  - reflexivity.
Qed.

Lemma accumulate_numbers (nm : string) (x : num) (m : mapping) (var : Var T)
    (ys : list num) :
  ndarray_of var = mkNd [length ys] (SNum <$> ys) ->
  accumulate [(nm, SNum x)]
             (false, mkNd [length ys] (replicate (prod_shape [length ys]) nzero))
             (nm, (m, var))
  = (false, mkNd [length ys]
                 ((fun y => nadd nzero (npow2 (nsub y x))) <$> ys)).
Proof.
  intros Harr. unfold accumulate. simpl.
  rewrite decide_True by reflexivity. simpl.
  unfold sq_diff. rewrite Harr. simpl.
  rewrite (mapM_numbers (fun y => npow2 (nsub y x))). simpl.
  unfold iadd, broadcast_to. simpl.
  rewrite broadcast_same by (simpl; rewrite length_fmap; lia).
  simpl. do 2 f_equal. rewrite Nat.mul_1_r.
  rewrite zip_with_replicate_l by (rewrite length_fmap; lia).
  now rewrite <- list_fmap_compose.
Qed.
End SingleKeyword.

(** X7.  Nearest neighbour on one axis.  For a single keyword of numeric
    value [x] that names a variable of one axis with the numbers [ys],
    mapped to the dimension [d] of the data, [map] returns [slice(None)]
    everywhere but at [d], where it returns the first position at which
    the distance [sqrt(0 + (y - x) ** 2)] is smallest.  The order of the
    numbers is taken to be a strict weak order (no NaN). *)
Theorem map_nearest_neighbour {num T : Type} `{Numeric num} `{Array num T}
    (self : Field num T) (nm : string) (d : nat) (var : Var T) (x : num)
    (ys : list num) :
  (forall a, nltb a a = false) ->
  (forall a b c, nltb a b = true -> nltb b c = true -> nltb a c = true) ->
  (forall a b c, nltb a c = true -> nltb a b = true \/ nltb b c = true) ->
  nm <> "_method" ->
  resolve self nm = Some ([d], var) ->
  ndarray_of var = mkNd [length ys] (SNum <$> ys) ->
  shape var = [Z.of_nat (length ys)] ->
  ys <> [] ->
  (d < length (shape (variable self)))%nat ->
  exists k,
    Field_map self [(nm, SNum x)]
    = Ok (<[d := Int (Z.of_nat k)]>
            (replicate (length (shape (variable self))) slice_None)) /\
    first_smallest (distance_to x <$> ys) k.
Proof.
  intros Hirr Htrans Hcotrans Hnm Hres Harr Hshape Hys Hd.
  set (res := replicate (length (shape (variable self))) slice_None).
  set (kwargs := [(nm, SNum x)]).
  assert (exists k,
            np_argmin (mkNd [length ys] (distance_to x <$> ys)) = Ok k /\
            first_smallest (distance_to x <$> ys) k) as (k & Hargmin & Hk).
  { destruct ys as [|y ys']; [congruence|].
    apply (np_argmin_spec Hirr Htrans Hcotrans). }
  exists k. split; [|exact Hk].
  assert (k < length ys)%nat as Hlt.
  { destruct Hk as (xk & Hxk & _). apply lookup_lt_Some in Hxk.
    now rewrite length_fmap in Hxk. }
  assert (np_zeros (shape var)
          = Ok (mkNd [length ys] (replicate (prod_shape [length ys]) nzero)))
    as Hzeros.
  { unfold np_zeros. rewrite Hshape. simpl forallb.
    destruct (Z.leb_spec 0 (Z.of_nat (length ys))) as [_|]; [|lia].
    simpl. now rewrite Nat2Z.id. }
  assert (map_resolved kwargs [d] (shape var) [(nm, ([d], var))] res
          = Ok (<[d := Int (Z.of_nat k)]> res)) as Hresolved.
  { unfold map_resolved. rewrite Hzeros, result_bind_Ok.
    change (foldl (accumulate kwargs) ?a [?item])
      with (accumulate kwargs a item).
    unfold kwargs. rewrite (accumulate_numbers nm x [d] var ys Harr).
    unfold np_sqrt. cbn [snd nd_data nd_shape].
    change (map nsqrt ?l) with (nsqrt <$> l). rewrite <- list_fmap_compose.
    change (nsqrt ∘ (fun y0 => nadd nzero (npow2 (nsub y0 x))))
      with (distance_to x).
    rewrite Hargmin, result_bind_Ok.
    unfold unravel_index. rewrite Hshape. cbn [map prod_shape foldr].
    rewrite Nat2Z.id, Nat.mul_1_r.
    destruct (Nat.ltb_spec k (length ys)); [|lia].
    rewrite result_bind_Ok. cbn [unravel prod_shape foldr].
    rewrite Nat.div_1_r. cbn [write_indices lookup list_lookup].
    unfold res at 1. rewrite length_replicate.
    destruct (Nat.ltb_spec d (length (shape (variable self)))); [|lia].
    reflexivity. }
  assert (map_step self kwargs (res, []) (nm, SNum x)
          = Ok (<[d := Int (Z.of_nat k)]> res, [nm])) as Hstep.
  { unfold map_step. cbn [fst].
    rewrite bool_decide_false by (rewrite list_elem_of_singleton; exact Hnm).
    rewrite bool_decide_false by apply not_elem_of_nil.
    unfold resolve in Hres.
    destruct (dget (coordinate_variables self) nm) as [m|].
    - injection Hres as ->. unfold kwargs.
      rewrite !complementary_single. fold kwargs. cbn [dset fst snd].
      match goal with
      | |- ?lhs ≫= _ = _ =>
          replace lhs with (Ok (A:=list index) (<[d := Int (Z.of_nat k)]> res))
            by (symmetry; exact Hresolved)
      end.
      reflexivity.
    - rewrite Hres. cbn [dset fst snd].
      match goal with
      | |- ?lhs ≫= _ = _ =>
          replace lhs with (Ok (A:=list index) (<[d := Int (Z.of_nat k)]> res))
            by (symmetry; exact Hresolved)
      end.
      reflexivity. }
  unfold Field_map. fold res.
  change (map_loop self kwargs kwargs (res, []))
    with (st' ← map_step self kwargs (res, []) (nm, SNum x); Ok st').
  now rewrite Hstep.
Qed.

Lemma map_nearest_neighbour_witness :
  exists k,
    Field_map station_field [("latitude", SNum 7)]
    = Ok (<[0%nat := Int (Z.of_nat k)]> (replicate 1 slice_None)) /\
    first_smallest (distance_to 7 <$> [0; 10; 10]) k.
Proof.
  refine (map_nearest_neighbour (num:=Z) (T:=numpyArray Z) station_field
            "latitude" 0
            (example_variable 1 "latitude" [station_dim] (numbers [0; 10; 10]))
            7 [0; 10; 10] _ _ _ _ _ _ _ _ _).
  - intros a. apply Z.ltb_irrefl.
  - simpl. intros a b c Hab Hbc. apply Z.ltb_lt.
    apply Z.ltb_lt in Hab. apply Z.ltb_lt in Hbc. lia.
  - simpl. intros a b c Hac. apply Z.ltb_lt in Hac.
    destruct (Z.ltb_spec a b); [now left|right]. apply Z.ltb_lt. lia.
  - discriminate.
  - reflexivity.
  - reflexivity.
  - reflexivity.
  - discriminate.
  - simpl. lia.
Defined.

(** ** The subscripts that [subset] builds *)

Lemma np_min_max (nz : list nat) (start stop : nat) :
  np_min nz = Ok start -> np_max nz = Ok stop ->
  forall p, p ∈ nz -> (start <= p <= stop)%nat.
Proof.
  destruct nz as [|x l]; [discriminate|]. simpl. intros [= <-] [= <-].
  assert (forall (l : list nat) (a b : nat),
            (foldl Nat.min a l <= a)%nat /\ (b <= foldl Nat.max b l)%nat /\
            forall p, p ∈ l ->
              (foldl Nat.min a l <= p <= foldl Nat.max b l)%nat) as Hfold.
  { clear. induction l as [|y l IH]; intros a b; simpl.
    - split; [lia|]. split; [lia|]. intros p Hp. inversion Hp.
    - destruct (IH (Nat.min a y) (Nat.max b y)) as (Hlo & Hhi & Hin).
      split; [lia|]. split; [lia|].
      intros p Hp. apply elem_of_cons in Hp as [->|Hp]; [lia|].
      now apply Hin. }
  destruct (Hfold l x x) as (Hlo & Hhi & Hin).
  intros p Hp. apply elem_of_cons in Hp as [->|Hp]; [lia|]. now apply Hin.
Qed.




Section SubsetResult.
Context {num T : Type} `{Numeric num} `{Array num T}.
Variable self : Field num T.


End SubsetResult.



(** ** Bounds that exclude every element *)

Lemma flat_nonzero_all_excluded (l : list bool) :
  Forall (fun b => b = true) l -> flat_nonzero l = [].
Proof.
  unfold flat_nonzero.
  enough (forall g : nat -> nat,
            Forall (fun b => b = true) l ->
            omap (fun p : nat * bool => if p.2 then None else Some p.1)
                 (imap (fun i b => (g i, b)) l) = []) as Hg
      by exact (Hg (fun i => i)).
  induction l as [|b l IH]; intros g Hall; [reflexivity|].
  inversion Hall as [|b' l' -> Hall']; subst. simpl.
  exact (IH (fun i => g (S i)) Hall').
Qed.

Lemma np_nonzero_not_all_excluded (mask : ndarray bool) :
  Forall (fun b => b = true) (nd_data mask) ->
  nd_shape mask <> [] ->
  exists rest, np_nonzero_not mask = [] :: rest.
Proof.
  intros Hall Hshape. unfold np_nonzero_not.
  rewrite flat_nonzero_all_excluded by exact Hall. simpl.
  destruct (nd_shape mask) as [|n shp]; [congruence|]. simpl. eauto.
Qed.

Lemma subset_masks_all_excluded (m : mapping) (mask : ndarray bool)
    (items : list (mapping * ndarray bool)) (subset : list index) :
  Forall (fun b => b = true) (nd_data mask) ->
  nd_shape mask <> [] ->
  subset_masks ((m, mask) :: items) subset = Raise ValueError.
Proof.
  intros Hall Hshape. simpl.
  destruct (np_nonzero_not_all_excluded mask Hall Hshape) as [rest ->].
  reflexivity.
Qed.

(** X9.  When the bounds of the keywords exclude every element of one of
    the variables they name, [subset] does not return: no position is
    left of which to take the smallest and the largest.  The exception is
    ValueError when the mask is that of the first mapping. *)
Theorem subset_nothing_left {num T : Type} `{Numeric num} `{Array num T}
    (self : Field num T) (kwargs : dict string (subset_arg num)) (id : oid)
    (mappings : dict mapping (ndarray bool)) (m : mapping)
    (mask : ndarray bool) :
  subset_mappings self kwargs [] = Ok mappings ->
  (m, mask) ∈ mappings ->
  nd_shape mask <> [] ->
  Forall (fun b => b = true) (nd_data mask) ->
  (exists e, Field_subset self kwargs id = Raise e) /\
  (mappings !! 0%nat = Some (m, mask) ->
   Field_subset self kwargs id = Raise ValueError).
Proof.
  intros Hmaps Hin Hshape Hall. unfold Field_subset, subset_slices.
  rewrite Hmaps. simpl. split.
  - enough (forall subset, exists e, subset_masks mappings subset = Raise e)
      as Hraise.
    { destruct (Hraise (map (fun sz => Slice (Some 0) (Some sz))
                            (Field_shape self))) as [e ->].
      now exists e. }
    clear Hmaps. induction mappings as [|[m' mask'] items IH]; intros subset.
    + inversion Hin.
    + apply elem_of_cons in Hin as [[= <- <-]|Hin].
      * exists ValueError. now apply subset_masks_all_excluded.
      * simpl. destruct (subset_axes m' _ _ subset) as [s1|e].
        -- simpl. now apply IH.
        -- now exists e.
  - destruct mappings as [|item items]; [discriminate|].
    intros [= ->]. now rewrite subset_masks_all_excluded.
Qed.

Lemma subset_nothing_left_witness :
  Field_subset lat_field [("latitude", Bounds [SNum 5])] 10 = Raise ValueError.
Proof.
  refine (proj2 (subset_nothing_left lat_field [("latitude", Bounds [SNum 5])]
                   10 [([0%nat], mkNd [41%nat] (replicate 41 true))]
                   [0%nat] (mkNd [41%nat] (replicate 41 true)) _ _ _ _) _).
  - reflexivity.
  - left.
  - discriminate.
  - simpl. repeat constructor.
  - reflexivity.
Defined.

(** ** The cache of the geometries *)

Lemma Field_geometries_inv {num T : Type} `{Numeric num} `{Array num T}
    (self self' : Field num T) (id : oid) (lat_junk lon_junk : grid2)
    (g : ndarray (option (geometry num))) :
  Field_geometries self id lat_junk lon_junk = Ok (self', g) ->
  variable self' = variable self /\
  coordinate_variables self' = coordinate_variables self /\
  ancil_variables self' = ancil_variables self /\
  _geometries self' = Some g.
Proof.
  unfold Field_geometries.
  destruct (_geometries self) as [g0|] eqn:Hcache.
  - intros [= <- <-]. auto.
  - destruct (latitudes self id) as [latv|]; [|discriminate].
    rewrite result_bind_Ok.
    destruct (longitudes self (S id)) as [lonv|]; [|discriminate].
    rewrite result_bind_Ok.
    match goal with
    | |- (?x ≫= _) = _ -> _ => destruct x as [vertical|]; [|discriminate]
    end.
    rewrite result_bind_Ok.
    match goal with
    | |- (?x ≫= _) = _ -> _ => destruct x as [res|]; [|discriminate]
    end.
    rewrite result_bind_Ok. intros [= <- <-]. auto.
Qed.

(** X10.  [geometries] computes the array once: the field that a call
    leaves behind holds the array that the call returned, and every later
    call on it returns that array and leaves the field as it is, whatever
    the memory of the new arrays holds by then.  The variables of the
    field are not touched. *)
Theorem geometries_cached {num T : Type} `{Numeric num} `{Array num T}
    (self self' : Field num T) (id : oid) (lat_junk lon_junk : grid2)
    (g : ndarray (option (geometry num))) :
  Field_geometries self id lat_junk lon_junk = Ok (self', g) ->
  _geometries self' = Some g /\
  variable self' = variable self /\
  coordinate_variables self' = coordinate_variables self /\
  ancil_variables self' = ancil_variables self /\
  forall id' lat_junk' lon_junk',
    Field_geometries self' id' lat_junk' lon_junk' = Ok (self', g).
Proof.
  intros Hrun. apply Field_geometries_inv in Hrun as (Hv & Hc & Ha & Hg).
  repeat split; auto.
  intros id' lat_junk' lon_junk'. unfold Field_geometries. now rewrite Hg.
Qed.

Lemma geometries_cached_witness :
  exists self' g,
    Field_geometries point_field 10 zero_junk zero_junk = Ok (self', g) /\
    nd_data g = [Some (Point [18; -34]); Some (Point [19; -33]);
                 Some (Point [28; -26])] /\
    Field_geometries self' 20 (fun _ _ => 1) (fun _ _ => 2) = Ok (self', g).
Proof.
  eexists _, _. split; [reflexivity|]. split; [reflexivity|].
  refine (proj2 (proj2 (proj2 (proj2
            (geometries_cached point_field _ 10 zero_junk zero_junk _ _)))) _ _ _).
  reflexivity.
Defined.

(** ** What [groupby] hands on *)

Section GroupByFacts.
Context {num T : Type} `{Numeric num} `{Array num T}.
Context {K W : Type} `{EqDecision K}.

(** What a call of [groupby] that returns has done. *)
Lemma Field_groupby_inv (self self' : Field num T) (coord : string)
    (func : coordinate_values num T -> result (dict K (list index) * W))
    (id : oid) (lat_junk lon_junk : grid2) (gb : GroupBy K W) :
  Field_groupby self coord func id lat_junk lon_junk = Ok (self', gb) ->
  exists m values grps,
    groupby_mapping self coord = Some m /\
    func values = Ok (grps, weights gb) /\
    groupby_loop m grps
      (replicate (length (Field_shape self)) slice_None) grps
      = Ok (groups gb) /\
    gb_coordinate gb = coord /\
    variable self' = variable self /\
    coordinate_variables self' = coordinate_variables self /\
    ancil_variables self' = ancil_variables self.
Proof.
  unfold Field_groupby, groupby_mapping. intros Hrun.
  destruct (dget (coordinate_variables self) coord) as [[m cv]|].
  - destruct (bool_decide (coord = "time")).
    + destruct (times self) as [ts|]; [simpl in Hrun|discriminate].
      destruct (func (TimeValues ts)) as [[grps wts]|] eqn:Hf;
        [simpl in Hrun|discriminate].
      destruct (groupby_loop m grps _ grps) as [grps'|] eqn:Hl;
        [simpl in Hrun|discriminate].
      injection Hrun as <- <-. exists m, (TimeValues ts), grps. auto 10.
    + destruct (Variable_getitem cv _ id) as [v|];
        [simpl in Hrun|discriminate].
      destruct (func (VariableValues v)) as [[grps wts]|] eqn:Hf;
        [simpl in Hrun|discriminate].
      destruct (groupby_loop m grps _ grps) as [grps'|] eqn:Hl;
        [simpl in Hrun|discriminate].
      injection Hrun as <- <-. exists m, (VariableValues v), grps. auto 10.
  - destruct (bool_decide (coord = "geometry")); [|discriminate].
    destruct (dget (coordinate_variables self) "latitude") as [lat|];
      [simpl in Hrun|discriminate].
    destruct (dget (coordinate_variables self) "longitude") as [lon|];
      [simpl in Hrun|discriminate].
    destruct (Field_geometries self id lat_junk lon_junk) as [[self1 g]|]
      eqn:Hgeo; [simpl in Hrun|discriminate].
    destruct (func (GeometryValues g)) as [[grps wts]|] eqn:Hf;
      [simpl in Hrun|discriminate].
    destruct (groupby_loop _ grps _ grps) as [grps'|] eqn:Hl;
      [simpl in Hrun|discriminate].
    injection Hrun as <- <-.
    apply Field_geometries_inv in Hgeo as (Hv & Hc & Ha & _).
    exists (lat.1 ++ lon.1), (GeometryValues g), grps. auto 10.
Qed.

Lemma keys_dset_present {V : Type} (d : dict K V) (k : K) (v : V) :
  k ∈ keys d -> keys (dset d k v) = keys d.
Proof.
  induction d as [|[k' v'] d IH]; simpl; intros Hin.
  - inversion Hin.
  - destruct (decide (k = k')) as [->|Hne]; simpl; [reflexivity|].
    f_equal. apply IH. apply elem_of_cons in Hin as [Heq|Hin]; [|exact Hin].
    congruence.
Qed.

Lemma groupby_loop_keys (m : mapping) (items : list (K * list index)) :
  forall (s : list index) (grps grps' : dict K (list index)),
  (forall k, k ∈ keys items -> k ∈ keys grps) ->
  groupby_loop m items s grps = Ok grps' ->
  keys grps' = keys grps.
Proof.
  induction items as [|[key group] items IH]; intros s grps grps' Hin; simpl.
  - now intros [= <-].
  - destruct (assign_group m m group s) as [s1|]; [simpl|discriminate].
    destruct (simplify_group m s1) as [s2|]; [simpl|discriminate].
    intros Hrest. apply IH in Hrest.
    + rewrite Hrest. apply keys_dset_present. apply Hin. left.
    + intros k Hk. rewrite keys_dset_present by (apply Hin; left).
      apply Hin. now right.
Qed.
End GroupByFacts.

(** X11.  The GroupBy that [groupby] returns names the coordinate of the
    call, carries the weights that the grouping function returned, and has
    the keys of the groups that the grouping function returned, in their
    order: no group is added, dropped or renamed.  The variables of the
    field are not touched. *)
Theorem groupby_keeps_keys {num T K W : Type}
    `{Numeric num} `{Array num T} `{EqDecision K}
    (self self' : Field num T) (coord : string)
    (func : coordinate_values num T -> result (dict K (list index) * W))
    (id : oid) (lat_junk lon_junk : grid2) (gb : GroupBy K W) :
  Field_groupby self coord func id lat_junk lon_junk = Ok (self', gb) ->
  gb_coordinate gb = coord /\
  (exists values grps,
     func values = Ok (grps, weights gb) /\ keys (groups gb) = keys grps) /\
  variable self' = variable self /\
  coordinate_variables self' = coordinate_variables self /\
  ancil_variables self' = ancil_variables self.
Proof.
  intros Hrun.
  apply Field_groupby_inv in Hrun
    as (m & values & grps & Hm & Hf & Hloop & Hc & Hv & Hcv & Ha).
  repeat split; auto.
  exists values, grps. split; [exact Hf|].
  now apply groupby_loop_keys in Hloop.
Qed.

Lemma groupby_keeps_keys_witness :
  exists self' gb,
    Field_groupby monthly_field "time" by_year 10 zero_junk zero_junk
      = Ok (self', gb) /\
    gb_coordinate gb = "time" /\
    (exists values grps,
       by_year values = Ok (grps, weights gb) /\
       keys (groups gb) = keys grps) /\
    variable self' = variable monthly_field /\
    coordinate_variables self' = coordinate_variables monthly_field /\
    ancil_variables self' = ancil_variables monthly_field.
Proof.
  exists monthly_field, yearly_groups.
  assert (Field_groupby monthly_field "time" by_year 10 zero_junk zero_junk
          = Ok (monthly_field, yearly_groups)) as Hrun by reflexivity.
  split; [exact Hrun|].
  exact (groupby_keeps_keys monthly_field monthly_field "time" by_year 10
                            zero_junk zero_junk yearly_groups Hrun).
Defined.

(** X12.  A GroupBy on the coordinate [geometry] cannot be applied: when
    the field has no coordinate variable of that name, [groupby] resolves
    [geometry] from latitude and longitude, but [apply] looks for a
    coordinate variable of the name, finds none, and raises NameError
    while it formats the message of the FieldError it means to raise (the
    message names [groups], which is not defined).  This is the sequence
    of calls of the script [areastats]. *)
Theorem apply_after_groupby_geometry {num T K W : Type}
    `{Numeric num} `{Array num T} `{EqDecision K}
    (self self' : Field num T)
    (func : coordinate_values num T -> result (dict K (list index) * W))
    (id : oid) (lat_junk lon_junk : grid2) (gb : GroupBy K W) :
  dget (coordinate_variables self) "geometry" = None ->
  Field_groupby self "geometry" func id lat_junk lon_junk = Ok (self', gb) ->
  forall reduce id',
    Field_apply self gb reduce id' = Raise NameError /\
    Field_apply self' gb reduce id' = Raise NameError.
Proof.
  intros Hnone Hrun reduce id'.
  apply Field_groupby_inv in Hrun
    as (m & values & grps & _ & _ & _ & Hc & _ & Hcv & _).
  unfold Field_apply. now rewrite Hcv, Hc, Hnone.
Qed.

Lemma apply_after_groupby_geometry_witness :
  exists self' gb,
    Field_groupby point_field "geometry" all_in_one 10 zero_junk zero_junk
      = Ok (self', gb) /\
    groups gb = [(0, [Slice (Some 0) (Some 3)])] /\
    Field_apply point_field gb sum_1d 30 = Raise NameError /\
    Field_apply self' gb sum_1d 30 = Raise NameError.
Proof.
  eexists _, _. split; [reflexivity|]. split; [reflexivity|].
  refine (apply_after_groupby_geometry point_field _ all_in_one 10 zero_junk
            zero_junk _ _ _ sum_1d 30); reflexivity.
Defined.

(** ** Runs of positions *)

Lemma sorted_run (l : list Z) :
  forall a b : Z,
  increasing (a :: l) -> list.last (a :: l) = Some b ->
  Z.of_nat (length (a :: l)) <= b - a + 1 /\
  (b - a + 1 = Z.of_nat (length (a :: l)) ->
   a :: l = (fun i => a + Z.of_nat i) <$> seq 0 (length (a :: l))).
Proof.
  induction l as [|a2 l IH]; intros a b Hsorted Hlast.
  - injection Hlast as <-. simpl. split; [lia|]. intros _. f_equal. lia.
  - destruct Hsorted as [Hlt Hsorted'].
    change (list.last (a2 :: l) = Some b) in Hlast.
    destruct (IH a2 b Hsorted' Hlast) as [Hspan Hrun].
    change (length (a :: a2 :: l)) with (S (length (a2 :: l))).
    split; [lia|]. intros Heq.
    assert (a2 = a + 1) as -> by lia.
    assert (b - (a + 1) + 1 = Z.of_nat (length (a + 1 :: l))) as Hlen by lia.
    apply Hrun in Hlen. rewrite Hlen at 1.
    rewrite <- (cons_seq (length (a + 1 :: l)) 0), <- fmap_S_seq.
    rewrite fmap_cons, <- list_fmap_compose. f_equal; [lia|].
    apply list_fmap_ext. intros _ i _. simpl. lia.
Qed.

Lemma positions_valid_list (n : nat) (l : list Z) :
  Forall (fun k => 0 <= k < Z.of_nat n) l ->
  positions n (List l) = Ok (Z.to_nat <$> l).
Proof.
  intros Hall. simpl.
  assert (mapM (norm_index n) l = Some (Z.to_nat <$> l)) as ->; [|reflexivity].
  apply mapM_Some, Forall2_fmap_r, Forall_Forall2_diag.
  eapply Forall_impl; [|exact Hall]. intros k Hk. simpl in Hk |- *.
  unfold norm_index.
  destruct (Z.leb_spec 0 k); [|lia].
  destruct (Z.ltb_spec k (Z.of_nat n)); [reflexivity|lia].
Qed.

Lemma positions_run (n : nat) (a b : Z) :
  0 <= a -> a <= b -> b < Z.of_nat n ->
  positions n (Slice (Some a) (Some (b + 1)))
  = Ok (seq (Z.to_nat a) (Z.to_nat (b - a + 1))).
Proof.
  intros Ha Hab Hb. simpl. unfold slice_positions, clip_bound.
  destruct (Z.ltb_spec a 0); [lia|].
  destruct (Z.ltb_spec (b + 1) 0); [lia|].
  do 2 f_equal; lia.
Qed.

(** X13.  The simplification of a group in [groupby] keeps the selection:
    for a list of valid positions in increasing order, the subscript that
    takes the place of the list, a slice when the list is a run without
    gaps and the list itself when it is not, selects the positions of the
    list, in the order of the list. *)
Theorem simplify_keeps_selection (s s' : list index) (dim n : nat)
    (l : list Z) :
  s !! dim = Some (List l) ->
  increasing l ->
  Forall (fun k => 0 <= k < Z.of_nat n) l ->
  simplify_dim s dim = Ok s' ->
  exists e,
    s' = <[dim := e]> s /\
    positions n e = Ok (Z.to_nat <$> l) /\
    positions n (List l) = Ok (Z.to_nat <$> l) /\
    (e = List l \/
     exists first last,
       l !! 0%nat = Some first /\ list.last l = Some last /\
       last - first + 1 = Z.of_nat (length l) /\
       e = Slice (Some first) (Some (last + 1))).
Proof.
  intros Hs Hinc Hvalid. unfold simplify_dim.
  apply py_index_nat in Hs as Hget. rewrite Hget, result_bind_Ok.
  destruct (py_index l (-1)) as [last|] eqn:Hlast; [|discriminate].
  rewrite result_bind_Ok.
  destruct (py_index l 0) as [first|] eqn:Hfirst; [|discriminate].
  rewrite result_bind_Ok.
  pose proof (positions_valid_list n l Hvalid) as Hlist.
  destruct (Z.eqb_spec (last - first + 1) (Z.of_nat (length l))) as [Hrun|Hgap].
  - intros Hset. apply py_setitem_nat in Hset as [-> _].
    exists (Slice (Some first) (Some (last + 1))).
    apply py_index_minus_one in Hlast.
    apply (py_index_nat l 0) in Hfirst.
    destruct l as [|a l']; [discriminate|]. injection Hfirst as ->.
    destruct (sorted_run l' first last Hinc Hlast) as [_ Heq].
    specialize (Heq Hrun).
    assert (0 <= first < Z.of_nat n) as Hf by (now inversion Hvalid).
    assert (0 <= last < Z.of_nat n) as Hl.
    { apply list.last_Some in Hlast as [l0 Hl0]. rewrite Hl0 in Hvalid.
      apply Forall_app in Hvalid as [_ Hv]. now inversion Hv. }
    assert (first <= last) as Hle
        by (change (length (first :: l')) with (S (length l')) in Hrun; lia).
    split; [reflexivity|]. split.
    + rewrite positions_run by lia. f_equal.
      replace (Z.to_nat (last - first + 1)) with (length (first :: l')) by lia.
      rewrite Heq at 2. rewrite <- list_fmap_compose.
      replace (Z.to_nat first) with (Z.to_nat first + 0)%nat at 1 by lia.
      rewrite <- fmap_add_seq.
      apply list_fmap_ext. intros _ i _. simpl. lia.
    + split; [exact Hlist|]. right. exists first, last. auto.
  - intros [= <-]. exists (List l). rewrite list_insert_id by exact Hs.
    auto.
Qed.

Lemma simplify_keeps_selection_witness :
  exists e,
    simplify_dim [slice_None; List [3; 4; 5]] 1
      = Ok (<[1%nat := e]> [slice_None; List [3; 4; 5]]) /\
    e = Slice (Some 3) (Some 6) /\
    positions 8 e = Ok [3; 4; 5]%nat /\
    positions 8 (List [3; 4; 5]) = Ok [3; 4; 5]%nat.
Proof.
  destruct (simplify_keeps_selection [slice_None; List [3; 4; 5]]
              [slice_None; Slice (Some 3) (Some 6)] 1 8 [3; 4; 5])
    as (e & He & Hsel & Hlist & _).
  - reflexivity.
  - simpl. lia.
  - repeat constructor; lia.
  - reflexivity.
  - exists e. assert (e = Slice (Some 3) (Some 6)) as Heq.
    { apply (f_equal (fun x => x !! 1%nat)) in He. simpl in He.
      now injection He. }
    split; [rewrite <- He; reflexivity|]. split; [exact Heq|].
    split; [exact Hsel|exact Hlist].
Defined.

(** ** The dataset that [apply] returns *)

Section ApplyResult.
Context {num T : Type} `{Numeric num} `{Array num T}.
Context {K W : Type} `{EqDecision K}.

Lemma init_dimensions_instances (dims : list Dimension) :
  init_dimensions (DimInstance <$> dims) = Ok dims.
Proof.
  induction dims as [|d dims IH]; [reflexivity|].
  rewrite fmap_cons. simpl. now rewrite IH.
Qed.

Lemma Variable_init_instances (dims : list Dimension) (dt : dtype)
    (nm : option string) (attrs : dict string string)
    (ds : option (dict string string)) (data : data_arg)
    (storage : storage_class) (id : oid) (v : Var T) :
  Variable_init (DimInstance <$> dims) dt nm (AttrDict attrs) ds data storage id
    = Ok v ->
  _dimensions v = dims /\ name v = nm /\ _dtype v = dt /\
  _attributes v = attrs /\ dataset v = ds.
Proof.
  unfold Variable_init. rewrite init_dimensions_instances, result_bind_Ok.
  match goal with
  | |- (?x ≫= _) = _ -> _ => destruct x as [d|]; [|discriminate]
  end.
  rewrite result_bind_Ok. intros [= <-]. auto.
Qed.

Lemma current_frame (st : store) (v : Var T) :
  _dimensions (current st v) = _dimensions v /\
  name (current st v) = name v.
Proof. unfold current. now destruct (dget st _). Qed.
End ApplyResult.

(** X14.  [apply] returns only for a coordinate variable of the field
    whose mapping has exactly one dimension.  The dimensions of the
    dataset it returns are those of the data variable but for that one,
    which is replaced by a fixed dimension of the same name whose size is
    the number of groups; the variable of the new field has these
    dimensions and the name of the data variable; the attributes of the
    dataset are those of the dataset of the data variable; the new field
    has no coordinate and no ancillary variables. *)
Theorem apply_replaces_dimension {num T K W : Type}
    `{Numeric num} `{Array num T} `{EqDecision K}
    (self fld : Field num T) (gb : GroupBy K W)
    (func : ndarray (scalar num) -> nat -> result (ndarray (scalar num)))
    (id : oid) (ds : Dataset T) (st : dict nat T) :
  Field_apply self gb func id = Ok (ds, fld, st) ->
  exists m0 cvar old,
    dget (coordinate_variables self) (gb_coordinate gb) = Some ([m0], cvar) /\
    dimensions (variable self) !! m0 = Some old /\
    ds_dimensions ds
    = <[m0 := mkDimension (dim_name old) (Z.of_nat (length (groups gb))) true]>
        (dimensions (variable self)) /\
    dimensions (variable fld) = ds_dimensions ds /\
    name (variable fld) = name (variable self) /\
    dataset (variable self) = Some (ds_attributes ds) /\
    coordinate_variables fld = [] /\ ancil_variables fld = [].
Proof.
  unfold Field_apply.
  destruct (dget (coordinate_variables self) (gb_coordinate gb))
    as [[m cvar]|]; [|discriminate].
  destruct (Nat.ltb_spec 1 (length m)) as [|Hm]; [discriminate|].
  destruct m as [|m0 [|m1 m]]; [discriminate| |simpl in Hm; lia].
  cbn [lookup list_lookup require]. rewrite result_bind_Ok.
  destruct (py_index (dimensions (variable self)) (Z.of_nat m0)) as [old|]
    eqn:Hold; [|discriminate].
  rewrite result_bind_Ok. apply py_index_nat in Hold.
  cbn [Dimension_init]. rewrite result_bind_Ok.
  set (dim := mkDimension (dim_name old) (Z.of_nat (length (groups gb))) true).
  destruct (py_setitem (dimensions (variable self)) _ dim) as [dims|] eqn:Hdims;
    [|discriminate].
  rewrite result_bind_Ok. apply py_setitem_nat in Hdims as [-> Hm0].
  destruct (Variable_init _ _ _ _ _ _ _ id) as [var|] eqn:Hvar; [|discriminate].
  rewrite result_bind_Ok.
  apply Variable_init_instances in Hvar as (Hvd & Hvn & _).
  destruct (py_index (<[m0:=dim]> _) (Z.of_nat m0)) as [dim'|];
    [|discriminate].
  rewrite result_bind_Ok.
  destruct (apply_coordinates _ _ _ _ _) as [vars|]; [|discriminate].
  rewrite result_bind_Ok.
  destruct (apply_loop _ _ _ _ _ _ _ _ _ _ _) as [st'|]; [|discriminate].
  rewrite result_bind_Ok.
  destruct (dataset (variable self)) as [attrs|]; [|discriminate].
  cbn [require]. rewrite result_bind_Ok. intros [= <- <- <-].
  exists m0, cvar, old. cbn [ds_dimensions ds_attributes].
  destruct (current_frame st' var) as [Hcd Hcn].
  unfold Field_init, dimensions. cbn [variable coordinate_variables ancil_variables].
  rewrite Hcd, Hcn, Hvd, Hvn. auto 10.
Qed.

Lemma apply_replaces_dimension_witness :
  exists ds fld st,
    Field_apply monthly_field yearly_groups sum_1d 20 = Ok (ds, fld, st) /\
    ds_dimensions ds = [mkDimension "time" 2 true] /\
    dimensions (variable fld) = ds_dimensions ds.
Proof.
  destruct (Field_apply monthly_field yearly_groups sum_1d 20)
    as [[[ds fld] st]|] eqn:Happly; [|vm_compute in Happly; discriminate].
  exists ds, fld, st. split; [reflexivity|].
  destruct (apply_replaces_dimension monthly_field fld yearly_groups sum_1d 20
              ds st Happly)
    as (m0 & cvar & old & Hc & Hold & Hdims & Hfld & _).
  injection Hc as <- <-. injection Hold as <-.
  split; [exact Hdims|exact Hfld].
Defined.

(** ** Cells of a grid *)

Section GridFacts.
Context {num T : Type} `{Numeric num} `{Array num T}.

Lemma grid_edges_stages (n m : nat) (b : grid2) :
  grid_edges n m b
  = if (S n <? 3)%nat || (S m <? 3)%nat then Raise IndexError
    else Ok (last_column n m (first_column n (last_row n m (first_row m b)))).
Proof. reflexivity. Qed.

Lemma midpoints_length (n m : nat) (a : list num) :
  length (nd_data (midpoints n m a)) = prod_shape (nd_shape (midpoints n m a)).
Proof.
  unfold midpoints. cbn [nd_data nd_shape prod_shape foldr].
  rewrite Nat.mul_1_r.
  assert (forall (B : Type) (l : list nat) (c : nat) (f : nat -> list B),
            (forall x, length (f x) = c) ->
            length (flat_map f l) = (length l * c)%nat) as Hflat.
  { intros B l c f Hf. induction l as [|x l IH]; [reflexivity|].
    cbn [flat_map]. rewrite length_app, IH, Hf. simpl. lia. }
  rewrite (Hflat _ _ (m - 1)%nat), length_seq; [reflexivity|].
  intros x. now rewrite length_map, length_seq.
Qed.

Lemma grid_interior_ok (n m : nat) (a : list num) (junk : grid2) :
  grid_interior n m [n; m] a junk
  = Ok (fun i j =>
          if inside 1 n i && inside 1 m j
          then at2 (m - 1) (nd_data (midpoints n m a)) (i - 1) (j - 1)
          else junk i j).
Proof.
  unfold grid_interior, assigned_values.
  assert (nd_shape (midpoints n m a) = [n - 1; m - 1]%nat) as Hshape
      by reflexivity.
  rewrite Hshape. cbn [length Nat.sub strip_ones].
  rewrite <- Hshape.
  now rewrite broadcast_same by apply midpoints_length.
Qed.

Lemma vertical_found (self : Field num T) :
  exists vertical,
    (if dmem (coordinate_variables self) "vertical"
     then v ← require (coordinate self "vertical") KeyError;
          Ok (Some (ndarray_of v))
     else Ok None) = Ok vertical.
Proof.
  unfold dmem, coordinate.
  destruct (dget (coordinate_variables self) "vertical") as [[m v]|]; simpl;
    eauto.
Qed.
End GridFacts.

Ltac split_inside :=
  unfold inside;
  repeat (case_bool_decide ||
          match goal with
          | |- context [(?a <=? ?b)%nat] => destruct (Nat.leb_spec a b)
          | |- context [(?a <? ?b)%nat] => destruct (Nat.ltb_spec a b)
          end);
  cbn [andb orb]; try lia.

Section GridMemory.
Context {num : Type} `{Numeric num}.
Variables (n m : nat).
Hypothesis Hn : (3 <= n)%nat.
Hypothesis Hm : (3 <= m)%nat.
Variables (b b' : @grid2 num).
Hypothesis Hinterior :
  forall i j, (1 <= i < n)%nat -> (1 <= j < m)%nat -> b i j = b' i j.

Lemma first_row_agree (i j : nat) :
  (i < n)%nat -> (1 <= j < m)%nat -> first_row m b i j = first_row m b' i j.
Proof.
  intros Hi Hj. unfold first_row. split_inside.
  - now rewrite !Hinterior by lia.
  - apply Hinterior; lia.
Qed.

Lemma last_row_agree (i j : nat) :
  (i <= n)%nat -> (1 <= j < m)%nat ->
  last_row n m (first_row m b) i j = last_row n m (first_row m b') i j.
Proof.
  intros Hi Hj. unfold last_row. split_inside.
  - now rewrite !first_row_agree by lia.
  - apply first_row_agree; lia.
Qed.

Lemma first_column_agree (i j : nat) :
  (i <= n)%nat -> (j < m)%nat ->
  first_column n (last_row n m (first_row m b)) i j
  = first_column n (last_row n m (first_row m b')) i j.
Proof.
  intros Hi Hj. unfold first_column. split_inside.
  - now rewrite !last_row_agree by lia.
  - apply last_row_agree; lia.
Qed.

Lemma last_column_agree (i j : nat) :
  (i <= n)%nat -> (j <= m)%nat ->
  last_column n m (first_column n (last_row n m (first_row m b))) i j
  = last_column n m (first_column n (last_row n m (first_row m b'))) i j.
Proof.
  intros Hi Hj. unfold last_column. split_inside.
  - now rewrite !first_column_agree by lia.
  - apply first_column_agree; lia.
Qed.

Lemma grid_edges_agree :
  exists c c',
    grid_edges n m b = Ok c /\ grid_edges n m b' = Ok c' /\
    forall i j, (i <= n)%nat -> (j <= m)%nat -> c i j = c' i j.
Proof.
  rewrite !grid_edges_stages.
  destruct (Nat.ltb_spec (S n) 3); [lia|].
  destruct (Nat.ltb_spec (S m) 3); [lia|].
  eexists _, _. split; [reflexivity|]. split; [reflexivity|].
  apply last_column_agree.
Qed.
End GridMemory.

Lemma flat_map_ext_in {A B : Type} (f g : A -> list B) (l : list A) :
  (forall x, x ∈ l -> f x = g x) -> flat_map f l = flat_map g l.
Proof.
  induction l as [|x l IH]; intros Hfg; [reflexivity|].
  cbn [flat_map]. rewrite Hfg by left. f_equal.
  apply IH. intros y Hy. apply Hfg. now right.
Qed.

Section GridCells.
Context {num T : Type} `{Numeric num} `{Array num T}.

Lemma grid_interior_agree (n m : nat) (shp : list nat) (a : list num)
    (junk junk' : grid2) :
  (exists e, grid_interior n m shp a junk = Raise e /\
             grid_interior n m shp a junk' = Raise e) \/
  (exists b b', grid_interior n m shp a junk = Ok b /\
                grid_interior n m shp a junk' = Ok b' /\
                forall i j, (1 <= i < n)%nat -> (1 <= j < m)%nat ->
                            b i j = b' i j).
Proof.
  unfold grid_interior.
  match goal with
  | |- context [?x ≫= _] => destruct x as [mid|e]
  end.
  - right. eexists _, _. split; [reflexivity|]. split; [reflexivity|].
    intros i j Hi Hj. cbv beta. split_inside. reflexivity.
  - left. now exists e.
Qed.

Lemma cells_agree (n m : nat) (lat_b lat_b' lon_b lon_b' : @grid2 num) :
  (forall i j, (i <= n)%nat -> (j <= m)%nat -> lat_b i j = lat_b' i j) ->
  (forall i j, (i <= n)%nat -> (j <= m)%nat -> lon_b i j = lon_b' i j) ->
  flat_map (fun i => map (fun j => Some (cell_polygon lat_b lon_b i j))
                         (seq 0 m)) (seq 0 n)
  = flat_map (fun i => map (fun j => Some (cell_polygon lat_b' lon_b' i j))
                           (seq 0 m)) (seq 0 n).
Proof.
  intros Hlat Hlon. apply flat_map_ext_in. intros i Hi.
  apply elem_of_seq in Hi.
  change (map ?f ?l) with (f <$> l). apply list_fmap_ext. intros k j Hj.
  apply list_elem_of_lookup_2, elem_of_seq in Hj.
  unfold cell_polygon. cbn [map].
  now rewrite !Hlat, !Hlon by lia.
Qed.
End GridCells.

(** X15.  On a grid of at least three rows and three columns of cells,
    and on a field that has no grid, what [geometries] returns does not
    depend on what the memory of the two new bounds arrays holds: every
    element of the bounds that a polygon uses is assigned before it is
    read. *)
Theorem geometries_ignores_memory {num T : Type} `{Numeric num} `{Array num T}
    (self : Field num T) (id : oid)
    (lat_junk lon_junk lat_junk' lon_junk' : grid2) :
  (forall latv n m,
     latitudes self id = Ok latv -> nd_shape (ndarray_of latv) = [n; m] ->
     (3 <= n)%nat /\ (3 <= m)%nat) ->
  Field_geometries self id lat_junk lon_junk
  = Field_geometries self id lat_junk' lon_junk'.
Proof.
  intros Hgrid. unfold Field_geometries.
  destruct (_geometries self); [reflexivity|].
  destruct (latitudes self id) as [latv|]; [|reflexivity].
  rewrite !result_bind_Ok.
  destruct (longitudes self (S id)) as [lonv|]; [|reflexivity].
  rewrite !result_bind_Ok.
  destruct (vertical_found self) as [vertical ->]. rewrite !result_bind_Ok.
  destruct (nd_shape (ndarray_of latv)) as [|n [|m [|c shp]]] eqn:Hshape;
    try reflexivity.
  destruct (Hgrid latv n m eq_refl Hshape) as [Hn Hm].
  destruct (mapM as_number (nd_data (ndarray_of latv))) as [lat|];
    [|reflexivity].
  rewrite !result_bind_Ok.
  destruct (grid_interior_agree n m [n; m] lat lat_junk lat_junk')
    as [(e & -> & ->)|(b & b' & -> & -> & Hlat)]; [reflexivity|].
  rewrite !result_bind_Ok.
  destruct (mapM as_number (nd_data (ndarray_of lonv))) as [lon|];
    [|reflexivity].
  rewrite !result_bind_Ok.
  destruct (grid_interior_agree n m (nd_shape (ndarray_of lonv)) lon
              lon_junk lon_junk')
    as [(e & -> & ->)|(c & c' & -> & -> & Hlon)]; [reflexivity|].
  rewrite !result_bind_Ok.
  destruct (grid_edges_agree n m Hn Hm b b' Hlat)
    as (lat_b & lat_b' & -> & -> & Hlat_b).
  rewrite !result_bind_Ok.
  destruct (grid_edges_agree n m Hn Hm c c' Hlon)
    as (lon_b & lon_b' & -> & -> & Hlon_b).
  rewrite !result_bind_Ok.
  now rewrite (cells_agree n m lat_b lat_b' lon_b lon_b' Hlat_b Hlon_b).
Qed.

Lemma geometries_ignores_memory_witness :
  Field_geometries grid_field 10 zero_junk zero_junk
  = Field_geometries grid_field 10 (fun i j => Z.of_nat (i + j))
                     (fun i j => Z.of_nat (i * j)).
Proof.
  apply (geometries_ignores_memory grid_field 10).
  intros latv n m Hlat Hshape.
  vm_compute in Hlat. injection Hlat as <-.
  vm_compute in Hshape. injection Hshape as <- <-. lia.
Defined.

(** With two rows of cells the first row of the bounds is extrapolated
    from the last row, which is not assigned by then: the polygons
    depend on what the memory held. *)
Example geometries_two_rows_read_memory :
  Field_geometries two_row_field 10 zero_junk zero_junk
  <> Field_geometries two_row_field 10 (fun _ _ => 1) zero_junk.
Proof. vm_compute. discriminate. Qed.

(** X16.  On a grid of fewer than two rows or fewer than two columns of
    cells [geometries] raises IndexError: the bounds arrays have fewer
    than three rows or columns, and the extrapolation of their edges
    reads the third. *)
Theorem geometries_narrow_grid {num T : Type} `{Numeric num} `{Array num T}
    (self : Field num T) (id : oid) (lat_junk lon_junk : grid2)
    (latv lonv : Var T) (n m : nat) (lat lon : list num) :
  _geometries self = None ->
  latitudes self id = Ok latv ->
  longitudes self (S id) = Ok lonv ->
  nd_shape (ndarray_of latv) = [n; m] ->
  nd_shape (ndarray_of lonv) = [n; m] ->
  mapM as_number (nd_data (ndarray_of latv)) = Ok lat ->
  mapM as_number (nd_data (ndarray_of lonv)) = Ok lon ->
  (n < 2)%nat \/ (m < 2)%nat ->
  Field_geometries self id lat_junk lon_junk = Raise IndexError.
Proof.
  intros Hcache Hlatv Hlonv Hshape Hshape' Hlat Hlon Hnarrow.
  unfold Field_geometries. rewrite Hcache, Hlatv, result_bind_Ok.
  rewrite Hlonv, result_bind_Ok.
  destruct (vertical_found self) as [vertical ->]. rewrite result_bind_Ok.
  rewrite Hshape, Hshape', Hlat, result_bind_Ok.
  rewrite grid_interior_ok, result_bind_Ok, Hlon, result_bind_Ok.
  rewrite grid_interior_ok, result_bind_Ok.
  rewrite !grid_edges_stages.
  destruct (Nat.ltb_spec (S n) 3); [reflexivity|].
  destruct (Nat.ltb_spec (S m) 3); [reflexivity|]. lia.
Qed.

Lemma geometries_narrow_grid_witness :
  Field_geometries strip_field 10 zero_junk zero_junk = Raise IndexError.
Proof.
  refine (geometries_narrow_grid strip_field 10 zero_junk zero_junk _ _ 1 3
            [0; 0; 0] [10; 12; 14] _ _ _ _ _ _ _ _); try reflexivity.
  left. lia.
Defined.

(** ** Points *)

Section PointFacts.
Context {num T : Type} `{Numeric num} `{Array num T}.

Lemma same_axis_latitudes (self : Field num T) (id : oid) (d : nat)
    (mlat mlon : mapping) (latv lonv : Var T) :
  dget (coordinate_variables self) "latitude" = Some (d :: mlat, latv) ->
  dget (coordinate_variables self) "longitude" = Some (d :: mlon, lonv) ->
  latitudes self id = Ok latv /\ longitudes self id = Ok lonv.
Proof.
  intros Hlat Hlon. unfold latitudes, longitudes, on_distinct_axes, coordinate.
  rewrite Hlat, Hlon. simpl.
  rewrite bool_decide_false by auto. simpl. auto.
Qed.

Lemma mapM_points (lons lats : list num) :
  mapM (fun loc : list (scalar num) => Point <$> mapM as_number loc)
       (zip_with (fun x y => [x; y]) (SNum <$> lons) (SNum <$> lats))
  = Ok (zip_with (fun x y => Point [x; y]) lons lats).
Proof.
  revert lats. induction lons as [|x lons IH]; intros [|y lats];
    try reflexivity.
  rewrite !fmap_cons. cbn [zip_with]. simpl. now rewrite IH.
Qed.
End PointFacts.

(** The points of a field whose latitude and longitude share their axis. *)
Lemma Field_geometries_points {num T : Type} `{Numeric num} `{Array num T}
    (self : Field num T) (id : oid) (lat_junk lon_junk : grid2) (d : nat)
    (mlat mlon : mapping) (latv lonv : Var T) (lats lons : list num) :
  _geometries self = None ->
  dget (coordinate_variables self) "latitude" = Some (d :: mlat, latv) ->
  dget (coordinate_variables self) "longitude" = Some (d :: mlon, lonv) ->
  dmem (coordinate_variables self) "vertical" = false ->
  ndarray_of latv = mkNd [length lats] (SNum <$> lats) ->
  ndarray_of lonv = mkNd [length lons] (SNum <$> lons) ->
  length lons = length lats ->
  let points :=
    mkNd [length lats] (zip_with (fun x y => Some (Point [x; y])) lons lats) in
  Field_geometries self id lat_junk lon_junk
  = Ok (mkField (variable self) (coordinate_variables self)
                (ancil_variables self) (Some points), points).
Proof.
  intros Hcache Hlat Hlon Hvert Hlats Hlons Hlen points.
  unfold Field_geometries. rewrite Hcache.
  destruct (same_axis_latitudes self id d mlat mlon latv lonv Hlat Hlon)
    as [-> _].
  destruct (same_axis_latitudes self (S id) d mlat mlon latv lonv Hlat Hlon)
    as [_ ->].
  rewrite !result_bind_Ok, Hvert, result_bind_Ok, Hlats, Hlons.
  cbn [nd_shape nd_data list_1d]. rewrite !result_bind_Ok.
  rewrite mapM_points, result_bind_Ok.
  unfold assign_points.
  rewrite bool_decide_true
    by (rewrite length_zip_with, Hlen; apply Nat.min_id).
  rewrite result_bind_Ok.
  assert (Some <$> zip_with (fun x y => Point [x; y]) lons lats
          = zip_with (fun x y => Some (Point [x; y])) lons lats) as ->.
  { clear. revert lats. induction lons as [|x lons IH]; intros [|y lats];
      try reflexivity.
    cbn [zip_with]. rewrite fmap_cons. now rewrite IH. }
  reflexivity.
Qed.

(** X17.  For a field whose latitude and longitude have one axis, the
    same dimension of the data, and that has no vertical coordinate,
    [geometries] returns one point for each position, with the longitude
    before the latitude, and keeps the array in the field. *)
Theorem geometries_points {num T : Type} `{Numeric num} `{Array num T}
    (self : Field num T) (id : oid) (lat_junk lon_junk : grid2) (d : nat)
    (mlat mlon : mapping) (latv lonv : Var T) (lats lons : list num) :
  _geometries self = None ->
  dget (coordinate_variables self) "latitude" = Some (d :: mlat, latv) ->
  dget (coordinate_variables self) "longitude" = Some (d :: mlon, lonv) ->
  dmem (coordinate_variables self) "vertical" = false ->
  ndarray_of latv = mkNd [length lats] (SNum <$> lats) ->
  ndarray_of lonv = mkNd [length lons] (SNum <$> lons) ->
  length lons = length lats ->
  let points :=
    mkNd [length lats] (zip_with (fun x y => Some (Point [x; y])) lons lats) in
  Field_geometries self id lat_junk lon_junk
  = Ok (mkField (variable self) (coordinate_variables self)
                (ancil_variables self) (Some points), points).
Proof. exact (Field_geometries_points self id lat_junk lon_junk d mlat mlon latv lonv lats lons). Qed.

Lemma geometries_points_witness :
  exists self',
    Field_geometries point_field 10 zero_junk zero_junk
    = Ok (self', mkNd [3%nat] [Some (Point [18; -34]); Some (Point [19; -33]);
                               Some (Point [28; -26])]).
Proof.
  eexists.
  refine (geometries_points point_field 10 zero_junk zero_junk 0 [] [] _ _
            [-34; -33; -26] [18; 19; 28] _ _ _ _ _ _ _); reflexivity.
Defined.

(** ** Assignments to a whole array *)

Section WholeArray.
Context {A : Type}.

Lemma flat_map_mjoin {B : Type} (f : B -> list A) (l : list B) :
  flat_map f l = mjoin (f <$> l).
Proof.
  induction l as [|x l IH]; [reflexivity|].
  rewrite fmap_cons. cbn [flat_map]. now rewrite IH.
Qed.

Lemma take_nd_whole (shp : list nat) :
  forall data : list A,
  length data = prod_shape shp ->
  take_nd shp ((fun n => seq 0 n) <$> shp) data = data.
Proof.
  induction shp as [|n shp IH]; intros data Hlen; [reflexivity|].
  rewrite fmap_cons. unfold take_nd. fold (@take_nd A).
  simpl in Hlen. fold (prod_shape shp) in Hlen.
  rewrite (flat_map_ext_in _
             (fun p => take (prod_shape shp) (drop (p * prod_shape shp) data))).
  - rewrite flat_map_mjoin. now apply chunks_join.
  - intros p Hp. apply elem_of_seq in Hp. apply IH.
    rewrite length_take, length_drop. nia.
Qed.

Lemma scatter_whole (vals : list A) :
  forall pre old : list A,
  length old = length vals ->
  scatter (pre ++ old) (seq (length pre) (length old)) vals = pre ++ vals.
Proof.
  induction vals as [|v vals IH]; intros pre [|o old] Hlen; try discriminate.
  - reflexivity.
  - cbn [length seq scatter].
    replace (<[length pre := v]> (pre ++ o :: old)) with ((pre ++ [v]) ++ old).
    + replace (S (length pre)) with (length (pre ++ [v]))
        by (rewrite length_app; simpl; lia).
      rewrite IH by (simpl in Hlen; lia). now rewrite <- app_assoc.
    + rewrite <- app_assoc. simpl.
      rewrite insert_app_r_alt, Nat.sub_diag by lia. reflexivity.
Qed.

Lemma selections_whole (n : nat) (shp : list nat) :
  selections (n :: shp) (key_of (Sub1 slice_None))
  = Ok ((fun k => seq 0 k) <$> n :: shp).
Proof.
  simpl. rewrite selections_rest. simpl.
  unfold slice_positions. simpl. now rewrite Nat.sub_0_r.
Qed.

Lemma lengths_whole (shp : list nat) :
  map length ((fun k => seq 0 k) <$> shp) = shp.
Proof.
  induction shp as [|k shp IH]; [reflexivity|].
  rewrite fmap_cons. cbn [map]. now rewrite length_seq, IH.
Qed.

End WholeArray.

Section WholeArrayAssignment.
Context {A : Type}.

(** [a[:] = v] for a [v] of the shape of [a] puts the elements of [v] in
    the place of those of [a]. *)
Lemma nd_setitem_whole (n : nat) (shp : list nat) (old vals : list A) :
  length old = prod_shape (n :: shp) ->
  length vals = prod_shape (n :: shp) ->
  nd_setitem (mkNd (n :: shp) old) (Sub1 slice_None) (mkNd (n :: shp) vals)
  = Ok (mkNd (n :: shp) vals).
Proof.
  intros Hold Hvals. unfold nd_setitem. cbn [nd_shape nd_data].
  rewrite selections_whole, result_bind_Ok, lengths_whole.
  unfold assigned_values. cbn [nd_shape nd_data].
  rewrite Nat.sub_diag. cbn [strip_ones].
  rewrite broadcast_same, result_bind_Ok by exact Hvals.
  rewrite take_nd_whole by (now rewrite length_seq).
  rewrite <- Hold.
  pose proof (scatter_whole vals [] old ltac:(congruence)) as Hs.
  cbn [app length] in Hs. now rewrite Hs.
Qed.

(** [a[:]] is [a]. *)
Lemma nd_getitem_whole (n : nat) (shp : list nat) (data : list A) :
  length data = prod_shape (n :: shp) ->
  nd_getitem (mkNd (n :: shp) data) (Sub1 slice_None)
  = Ok (mkNd (n :: shp) data).
Proof.
  intros Hlen. unfold nd_getitem. cbn [nd_shape nd_data].
  rewrite selections_whole, result_bind_Ok, lengths_whole.
  now rewrite take_nd_whole.
Qed.
End WholeArrayAssignment.

(** ** Rows and columns *)

Section RowsColumns.
Context {A : Type}.

Lemma bcast_rows (r : nat) (data : list A) :
  bcast [1%nat; length data] [r; length data] data
  = Some (mjoin (replicate r data)).
Proof.
  assert (forall d : list A, length d = length data ->
            bcast [length data] [length data] d = Some d) as Hrow.
  { intros d Hd. apply bcast_same. simpl. lia. }
  set (k := length data) in *.
  change (bcast [1%nat; k] [r; k] data)
    with (if decide (1%nat = r)
          then mjoin <$> mapM (fun p => bcast [k] [k]
                                 (take (prod_shape [k])
                                       (drop (p * prod_shape [k]) data)))
                              (seq 0 1)
          else if decide (1%nat = 1%nat)
               then b ← bcast [k] [k] data; Some (mjoin (replicate r b))
               else None).
  destruct (decide (1%nat = r)) as [<-|Hr].
  - assert (prod_shape [k] = k) as -> by (simpl; lia).
    cbn [seq mapM]. rewrite Nat.mul_0_l. change (drop 0 data) with data.
    assert (take k data = data) as -> by (apply take_ge; unfold k; lia).
    rewrite Hrow by reflexivity. simpl. reflexivity.
  - rewrite decide_True by reflexivity. now rewrite Hrow.
Qed.

Lemma lookup_mjoin_replicate (data : list A) (r : nat) :
  forall i j, (i < r)%nat -> (j < length data)%nat ->
  mjoin (replicate r data) !! (i * length data + j)%nat = data !! j.
Proof.
  induction r as [|r IH]; intros i j Hi Hj; [lia|].
  cbn [replicate mjoin list_join]. change (list_join A) with (@mjoin list _ A).
  destruct i as [|i].
  - simpl. now apply lookup_app_l.
  - rewrite lookup_app_r by (simpl; lia).
    replace (S i * length data + j - length data)%nat
      with (i * length data + j)%nat by (simpl; lia).
    apply IH; lia.
Qed.

Lemma omap_constant {B : Type} (f : B -> option A) (y : A) (l : list B) :
  (forall x, x ∈ l -> f x = Some y) -> omap f l = replicate (length l) y.
Proof.
  induction l as [|x l IH]; intros Hf; [reflexivity|].
  cbn [omap list_omap length replicate]. rewrite Hf by left.
  f_equal. apply IH. intros x' Hx'. apply Hf. now right.
Qed.

Lemma flat_map_positions {B : Type} (F : nat -> list B) (G : A -> list B)
    (data : list A) :
  forall start,
  (forall j y, data !! j = Some y -> F (start + j)%nat = G y) ->
  flat_map F (seq start (length data)) = flat_map G data.
Proof.
  induction data as [|y data IH]; intros start HFG; [reflexivity|].
  cbn [length seq flat_map]. f_equal.
  - rewrite <- (HFG 0%nat y eq_refl). f_equal. lia.
  - apply IH. intros j y' Hj. rewrite <- (HFG (S j) y' Hj). f_equal. lia.
Qed.

(** The transpose of [r] rows that are all [data] has, for each element
    of [data], a row of [r] copies of it. *)
Lemma transpose2_rows (r : nat) (data : list A) :
  transpose2 r (length data) (mjoin (replicate r data))
  = flat_map (fun y => replicate r y) data.
Proof.
  unfold transpose2.
  apply (flat_map_positions _ _ data 0). intros j y Hj. simpl.
  rewrite (omap_constant _ y), length_seq; [reflexivity|].
  intros i Hi. apply elem_of_seq in Hi.
  rewrite lookup_mjoin_replicate; [exact Hj|lia|].
  now apply lookup_lt_Some in Hj.
Qed.
End RowsColumns.

(** ** Latitudes and longitudes of a grid *)

Section GridCoordinates.
Context {num : Type} `{Numeric num}.

#[local] Abbreviation T := (numpyArray num).

Lemma length_rows {A : Type} (r : nat) (l : list A) :
  length (flat_map (fun y => replicate r y) l) = (length l * r)%nat.
Proof.
  induction l as [|y l IH]; [reflexivity|].
  cbn [flat_map]. rewrite length_app, length_replicate, IH. simpl. lia.
Qed.

Lemma length_copies {A : Type} (r : nat) (l : list A) :
  length (mjoin (replicate r l)) = (r * length l)%nat.
Proof.
  induction r as [|r IH]; [reflexivity|].
  cbn [replicate]. change (mjoin (l :: ?ls)) with (l ++ mjoin ls).
  rewrite length_app, IH. simpl. lia.
Qed.

(** The variable that [latitudes] and [longitudes] create, filled. *)
Lemma grid_variable_filled (latv lonv : Var T) (id : oid)
    (dlat dlon : Dimension) (nlat nlon : nat) (vals : list (scalar num)) :
  dimensions latv !! 0%nat = Some dlat -> size dlat = Z.of_nat nlat ->
  dimensions lonv !! 0%nat = Some dlon -> size dlon = Z.of_nat nlon ->
  length vals = (nlat * nlon)%nat ->
  (v ← grid_variable latv lonv id;
   Variable_setitem v (Sub1 slice_None) (mkNd [nlat; nlon] vals))
  = Ok (mkVariable [dlat; dlon] (_dtype latv) None [] None
                   (mkNumpyArray id (_dtype latv) (mkNd [nlat; nlon] vals))).
Proof.
  intros Hdlat Hnlat Hdlon Hnlon Hvals.
  unfold grid_variable. rewrite Hdlat, Hdlon. cbn [require].
  rewrite !result_bind_Ok.
  unfold Variable_init. cbn [init_dimensions init_dimension].
  rewrite !result_bind_Ok. cbn [map].
  cbn [arr_new numpyArray_Array]. unfold numpyArray_new.
  rewrite Hnlat, Hnlon. cbn [forallb].
  destruct (Z.leb_spec 0 (Z.of_nat nlat)); [|lia].
  destruct (Z.leb_spec 0 (Z.of_nat nlon)); [|lia].
  cbn [andb map]. rewrite !Nat2Z.id, !result_bind_Ok.
  unfold Variable_setitem. cbn [_data arr_setitem numpyArray_Array na_arr].
  rewrite nd_setitem_whole.
  - reflexivity.
  - apply length_replicate.
  - simpl. lia.
Qed.
End GridCoordinates.

(** The two variables that [latitudes] and [longitudes] build for a grid. *)
Lemma latitudes_longitudes_grid {num : Type} `{Numeric num}
    (self : Field num (numpyArray num)) (id : oid) (dl dn : nat)
    (ml mn : mapping) (latv lonv : Var (numpyArray num))
    (dlat dlon : Dimension) (lats lons : list (scalar num)) :
  dget (coordinate_variables self) "latitude" = Some (dl :: ml, latv) ->
  dget (coordinate_variables self) "longitude" = Some (dn :: mn, lonv) ->
  dl <> dn ->
  na_arr (_data latv) = mkNd [length lats] lats ->
  na_arr (_data lonv) = mkNd [length lons] lons ->
  dimensions latv !! 0%nat = Some dlat -> size dlat = Z.of_nat (length lats) ->
  dimensions lonv !! 0%nat = Some dlon -> size dlon = Z.of_nat (length lons) ->
  let shp := [length lats; length lons] in
  latitudes self id
  = Ok (mkVariable [dlat; dlon] (_dtype latv) None [] None
          (mkNumpyArray id (_dtype latv)
             (mkNd shp (flat_map (fun y => replicate (length lons) y) lats)))) /\
  longitudes self id
  = Ok (mkVariable [dlat; dlon] (_dtype latv) None [] None
          (mkNumpyArray id (_dtype latv)
             (mkNd shp (mjoin (replicate (length lats) lons))))).
Proof.
  intros Hlat Hlon Hne Hlats Hlons Hdlat Hnlat Hdlon Hnlon shp.
  assert (on_distinct_axes self = Ok true) as Hdistinct.
  { unfold on_distinct_axes. rewrite Hlat, Hlon. simpl.
    now rewrite bool_decide_true by exact Hne. }
  assert (shape latv = [Z.of_nat (length lats)]) as Hslat
      by (unfold shape; simpl; unfold shape_of_nd; now rewrite Hlats).
  assert (shape lonv = [Z.of_nat (length lons)]) as Hslon
      by (unfold shape; simpl; unfold shape_of_nd; now rewrite Hlons).
  assert (coordinate self "latitude" = Some latv) as Hclat
      by (unfold coordinate; now rewrite Hlat).
  assert (coordinate self "longitude" = Some lonv) as Hclon
      by (unfold coordinate; now rewrite Hlon).
  split.
  - unfold latitudes. rewrite Hdistinct, Hclat, Hclon. cbn [require].
    rewrite !result_bind_Ok, Hslat, Hslon.
    rewrite bool_decide_true by reflexivity. cbn [andb].
    (* the binds are reordered so that the variable is created last *)
    transitivity
      (v ← grid_variable latv lonv id;
       Variable_setitem v (Sub1 slice_None)
         (mkNd [length lats; length lons]
               (flat_map (fun y => replicate (length lons) y) lats))).
    + destruct (grid_variable latv lonv id) as [v|]; [|reflexivity].
      rewrite !result_bind_Ok. cbn [lookup list_lookup require fmap result_fmap].
      rewrite !result_bind_Ok, !Nat2Z.id.
      unfold broadcast_to, broadcast, ndarray_of.
      cbn [arr_ndarray numpyArray_Array]. rewrite Hlats.
      cbn [nd_shape nd_data length Nat.sub replicate app].
      rewrite bcast_rows, result_bind_Ok. now rewrite transpose2_rows.
    + apply grid_variable_filled; auto. apply length_rows.
  - unfold longitudes. rewrite Hdistinct, Hclat, Hclon. cbn [require].
    rewrite !result_bind_Ok, Hslat, Hslon.
    rewrite bool_decide_true by reflexivity. cbn [andb].
    transitivity
      (v ← grid_variable latv lonv id;
       Variable_setitem v (Sub1 slice_None)
         (mkNd [length lats; length lons]
               (mjoin (replicate (length lats) lons)))).
    + destruct (grid_variable latv lonv id) as [v|]; [|reflexivity].
      rewrite !result_bind_Ok. cbn [lookup list_lookup require fmap result_fmap].
      rewrite !result_bind_Ok, !Nat2Z.id.
      unfold broadcast_to, broadcast, ndarray_of.
      cbn [arr_ndarray numpyArray_Array]. rewrite Hlons.
      cbn [nd_shape nd_data length Nat.sub replicate app].
      now rewrite bcast_rows, result_bind_Ok.
    + apply grid_variable_filled; auto. apply length_copies.
Qed.

(** X18.  Latitudes and longitudes of a grid.  When latitude and longitude
    have one axis each, on different dimensions of the data, [latitudes]
    and [longitudes] return new variables on the two dimensions whose
    element at [(i, j)] is the latitude at [i] and the longitude at [j];
    both have the element type of the latitude. *)
Theorem grid_coordinates {num : Type} `{Numeric num}
    (self : Field num (numpyArray num)) (id : oid) (dl dn : nat)
    (ml mn : mapping) (latv lonv : Var (numpyArray num))
    (dlat dlon : Dimension) (lats lons : list (scalar num)) :
  dget (coordinate_variables self) "latitude" = Some (dl :: ml, latv) ->
  dget (coordinate_variables self) "longitude" = Some (dn :: mn, lonv) ->
  dl <> dn ->
  na_arr (_data latv) = mkNd [length lats] lats ->
  na_arr (_data lonv) = mkNd [length lons] lons ->
  dimensions latv !! 0%nat = Some dlat -> size dlat = Z.of_nat (length lats) ->
  dimensions lonv !! 0%nat = Some dlon -> size dlon = Z.of_nat (length lons) ->
  let shp := [length lats; length lons] in
  latitudes self id
  = Ok (mkVariable [dlat; dlon] (_dtype latv) None [] None
          (mkNumpyArray id (_dtype latv)
             (mkNd shp (flat_map (fun y => replicate (length lons) y) lats)))) /\
  longitudes self id
  = Ok (mkVariable [dlat; dlon] (_dtype latv) None [] None
          (mkNumpyArray id (_dtype latv)
             (mkNd shp (mjoin (replicate (length lats) lons))))).
Proof. exact (latitudes_longitudes_grid self id dl dn ml mn latv lonv dlat dlon lats lons). Qed.

Lemma grid_coordinates_witness :
  exists lat2 lon2,
    latitudes grid_field 10 = Ok lat2 /\ longitudes grid_field 11 = Ok lon2 /\
    nd_data (ndarray_of lat2)
      = SNum <$> [0; 0; 0; 0; 2; 2; 2; 2; 4; 4; 4; 4] /\
    nd_data (ndarray_of lon2)
      = SNum <$> [10; 12; 14; 16; 10; 12; 14; 16; 10; 12; 14; 16].
Proof.
  eexists _, _.
  split; [|split].
  - refine (proj1 (grid_coordinates grid_field 10 0 1 [] [] _ _ y_dim x_dim
                     (SNum <$> [0; 2; 4]) (SNum <$> [10; 12; 14; 16])
                     _ _ _ _ _ _ _ _ _)); try reflexivity. discriminate.
  - refine (proj2 (grid_coordinates grid_field 11 0 1 [] [] _ _ y_dim x_dim
                     (SNum <$> [0; 2; 4]) (SNum <$> [10; 12; 14; 16])
                     _ _ _ _ _ _ _ _ _)); try reflexivity. discriminate.
  - split; reflexivity.
Defined.

(** ** Features *)

(** X19.  [feature_collection] reports a grid, and lists no feature, for
    a field whose latitude and longitude have one axis each on different
    dimensions of the data: the latitudes it looks at are those of the
    grid, which have two axes. *)
Theorem feature_collection_gridded {num : Type} `{Numeric num}
    (self : Field num (numpyArray num)) (id : oid) (dl dn : nat)
    (ml mn : mapping) (latv lonv : Var (numpyArray num))
    (dlat dlon : Dimension) (lats lons : list (scalar num)) :
  dget (coordinate_variables self) "latitude" = Some (dl :: ml, latv) ->
  dget (coordinate_variables self) "longitude" = Some (dn :: mn, lonv) ->
  dl <> dn ->
  na_arr (_data latv) = mkNd [length lats] lats ->
  na_arr (_data lonv) = mkNd [length lons] lons ->
  dimensions latv !! 0%nat = Some dlat -> size dlat = Z.of_nat (length lats) ->
  dimensions lonv !! 0%nat = Some dlon -> size dlon = Z.of_nat (length lons) ->
  Field_feature_collection self id = Ok Gridded.
Proof.
  intros Hlat Hlon Hne Hlats Hlons Hdlat Hnlat Hdlon Hnlon.
  destruct (latitudes_longitudes_grid self id dl dn ml mn latv lonv dlat dlon
              lats lons Hlat Hlon Hne Hlats Hlons Hdlat Hnlat Hdlon Hnlon)
    as [Hgrid _].
  unfold Field_feature_collection, discrete_points.
  rewrite Hgrid, result_bind_Ok. reflexivity.
Qed.

Lemma feature_collection_gridded_witness :
  Field_feature_collection grid_field 10 = Ok Gridded.
Proof.
  refine (feature_collection_gridded grid_field 10 0 1 [] [] _ _ y_dim x_dim
            (SNum <$> [0; 2; 4]) (SNum <$> [10; 12; 14; 16])
            _ _ _ _ _ _ _ _ _); try reflexivity. discriminate.
Defined.

Section PointFeatures.
Context {num T : Type} `{Numeric num} `{Array num T}.
Variables (self : Field num T) (m : mapping) (latv lonv : Var T).
Variables (lats lons : list num).
Hypothesis Hlat :
  dget (coordinate_variables self) "latitude" = Some (m, latv).
Hypothesis Hlon :
  dget (coordinate_variables self) "longitude" = Some (m, lonv).
Hypothesis Hm : m <> [].
Hypothesis Hvert : dmem (coordinate_variables self) "vertical" = false.
Hypothesis Hlats : ndarray_of latv = mkNd [length lats] (SNum <$> lats).
Hypothesis Hlons : ndarray_of lonv = mkNd [length lons] (SNum <$> lons).

Lemma point_latitudes (id : oid) :
  latitudes self id = Ok latv /\ longitudes self id = Ok lonv.
Proof.
  destruct m as [|d m']; [congruence|].
  exact (same_axis_latitudes self id d m' m' latv lonv Hlat Hlon).
Qed.

Lemma nd_item_number (ys : list num) (k : nat) (y : num) :
  ys !! k = Some y ->
  exists a, nd_item (mkNd [length ys] (SNum <$> ys)) (Z.of_nat k) = Ok a /\
            float_of a = Ok y.
Proof.
  intros Hk. unfold nd_item. cbn [nd_shape nd_data].
  rewrite norm_index_nat.
  destruct (Nat.ltb_spec k (length ys)) as [_|Hge];
    [|apply lookup_lt_Some in Hk; lia].
  eexists. split; [reflexivity|].
  unfold float_of. cbn [nd_data prod_shape foldr].
  rewrite Nat.mul_1_r.
  rewrite (take_1_drop (SNum <$> ys) k (SNum y))
    by (now rewrite list_lookup_fmap, Hk).
  reflexivity.
Qed.

Lemma feature_coordinates_point (k : nat) (id : oid) (x y : num) :
  lons !! k = Some x -> lats !! k = Some y ->
  feature_coordinates self k id = Ok [x; y].
Proof.
  intros Hx Hy. unfold feature_coordinates.
  destruct (point_latitudes id) as [-> ->].
  rewrite result_bind_Ok, Hlons.
  destruct (nd_item_number lons k x Hx) as (a & -> & Hfa).
  rewrite result_bind_Ok, Hfa, !result_bind_Ok, Hlats.
  destruct (nd_item_number lats k y Hy) as (b & -> & Hfb).
  now rewrite result_bind_Ok, Hfb, result_bind_Ok, Hvert.
Qed.

Lemma features_loop_points (k : nat) :
  forall (a : nat) (id : oid) (acc fs : list (feature num)),
  (a + k <= length lons)%nat -> (a + k <= length lats)%nat ->
  features_loop self (seq a k) id acc = Ok fs ->
  exists new,
    fs = acc ++ new /\
    ft_coordinates <$> new
    = zip_with (fun x y => [x; y]) (take k (drop a lons)) (take k (drop a lats)).
Proof.
  induction k as [|k IH]; intros a id acc fs Hklon Hklat.
  - intros [= <-]. exists []. now rewrite app_nil_r.
  - cbn [seq features_loop].
    destruct (lookup_lt_is_Some_2 lons a ltac:(lia)) as [x Hx].
    destruct (lookup_lt_is_Some_2 lats a ltac:(lia)) as [y Hy].
    rewrite (feature_coordinates_point a id x y Hx Hy), result_bind_Ok.
    destruct (feature_properties _ _ _ _) as [props|]; [|discriminate].
    rewrite result_bind_Ok. intros Hloop.
    apply IH in Hloop as (new & -> & Hnew); [|lia|lia].
    exists (mkFeature [x; y] props :: new). split.
    + now rewrite <- app_assoc.
    + rewrite fmap_cons, Hnew.
      rewrite (drop_S lons x a Hx), (drop_S lats y a Hy). reflexivity.
Qed.
End PointFeatures.

Lemma fmap_zip_with {A B C D : Type} (f : C -> D) (g : A -> B -> C)
    (l : list A) (k : list B) :
  f <$> zip_with g l k = zip_with (fun x y => f (g x y)) l k.
Proof.
  revert k. induction l as [|x l IH]; intros [|y k]; try reflexivity.
  cbn [zip_with]. now rewrite fmap_cons, IH.
Qed.

(** X20.  For a field whose numeric latitude and longitude have one
    axis with the same mapping and equally many values, and that has no
    vertical coordinate, the collection that [feature_collection]
    returns has one feature for each position, whose coordinates are the
    longitude and the latitude of the position, in this order: they are
    the coordinates of the points that [geometries] returns for the
    field. *)
Theorem features_are_the_points {num T : Type} `{Numeric num} `{Array num T}
    (self : Field num T) (id id' : oid) (lat_junk lon_junk : grid2)
    (m : mapping) (latv lonv : Var T) (lats lons : list num)
    (r : feature_collection num) :
  dget (coordinate_variables self) "latitude" = Some (m, latv) ->
  dget (coordinate_variables self) "longitude" = Some (m, lonv) ->
  m <> [] ->
  dmem (coordinate_variables self) "vertical" = false ->
  ndarray_of latv = mkNd [length lats] (SNum <$> lats) ->
  ndarray_of lonv = mkNd [length lons] (SNum <$> lons) ->
  shape latv = [Z.of_nat (length lats)] ->
  shape lonv = [Z.of_nat (length lons)] ->
  length lons = length lats ->
  _geometries self = None ->
  Field_feature_collection self id = Ok r ->
  exists features,
    r = FeatureCollection features /\
    ft_coordinates <$> features = zip_with (fun x y => [x; y]) lons lats /\
    exists self',
      Field_geometries self id' lat_junk lon_junk
      = Ok (self', mkNd [length lats]
                        ((fun f => Some (Point (ft_coordinates f)))
                           <$> features)).
Proof.
  intros Hlat Hlon Hm Hvert Hlats Hlons Hslat Hslon Hlen Hcache.
  unfold Field_feature_collection, discrete_points.
  destruct (point_latitudes self m latv lonv Hlat Hlon Hm id) as [-> _].
  destruct (point_latitudes self m latv lonv Hlat Hlon Hm (S id)) as [_ ->].
  destruct (point_latitudes self m latv lonv Hlat Hlon Hm (S (S id)))
    as [_ ->].
  rewrite !result_bind_Ok, Hslat, Hslon.
  rewrite !bool_decide_true by reflexivity.
  rewrite Hlat, Hlon. cbn [require].
  rewrite !result_bind_Ok. rewrite ?bool_decide_true by reflexivity.
  rewrite ?result_bind_Ok.
  destruct m as [|d m']; [congruence|].
  cbn [fst lookup list_lookup require]. rewrite !result_bind_Ok, Nat2Z.id.
  destruct (features_loop _ _ _ _) as [fs|] eqn:Hloop; [|discriminate].
  rewrite result_bind_Ok. intros [= <-].
  apply (features_loop_points self (d :: m') latv lonv lats lons Hlat Hlon
           ltac:(discriminate) Hvert Hlats Hlons) in Hloop
    as (new & -> & Hnew); [|lia|lia].
  change (drop 0 lons) with lons in Hnew.
  change (drop 0 lats) with lats in Hnew.
  rewrite !take_ge in Hnew by lia. cbn [app].
  exists new. split; [reflexivity|]. split; [exact Hnew|].
  eexists.
  rewrite (Field_geometries_points self id' lat_junk lon_junk d m' m' latv lonv
             lats lons Hcache Hlat Hlon Hvert Hlats Hlons Hlen).
  do 3 f_equal.
  rewrite <- (fmap_zip_with (fun c => Some (Point c)) (fun x y => [x; y])).
  rewrite <- Hnew. now rewrite <- list_fmap_compose.
Qed.

Lemma features_are_the_points_witness :
  exists features self',
    Field_feature_collection point_field 10 = Ok (FeatureCollection features) /\
    ft_coordinates <$> features = [[18; -34]; [19; -33]; [28; -26]] /\
    (fun f => dget (ft_properties f) "name") <$> features
      = [Some (mkNd [] [SStr "a"]); Some (mkNd [] [SStr "b"]);
         Some (mkNd [] [SStr "c"])] /\
    Field_geometries point_field 20 zero_junk zero_junk
    = Ok (self', mkNd [3%nat] ((fun f => Some (Point (ft_coordinates f)))
                                 <$> features)).
Proof.
  destruct (Field_feature_collection point_field 10) as [r|] eqn:Hrun;
    [|vm_compute in Hrun; discriminate].
  destruct (features_are_the_points point_field 10 20 zero_junk zero_junk
              [0%nat]
              (example_variable 1 "lat" [station_dim] (numbers [-34; -33; -26]))
              (example_variable 2 "lon" [station_dim] (numbers [18; 19; 28]))
              [-34; -33; -26] [18; 19; 28] r)
    as (features & -> & Hcoords & self' & Hgeo); try reflexivity.
  - discriminate.
  - exact Hrun.
  - exists features, self'. split; [reflexivity|]. split; [exact Hcoords|].
    split; [|exact Hgeo].
    vm_compute in Hrun. injection Hrun as <-. reflexivity.
Defined.

(** ** The values of the groups *)

Lemma nd_setitem_scalar {A : Type} (n : nat) (data : list A) (i : nat) (x : A) :
  length data = n -> (i < n)%nat ->
  nd_setitem (mkNd [n] data) (Sub1 (Int (Z.of_nat i))) (mkNd [] [x])
  = Ok (mkNd [n] (<[i := x]> data)).
Proof.
  intros Hlen Hi. unfold nd_setitem. simpl.
  rewrite norm_index_nat.
  destruct (Nat.ltb_spec i n); [simpl|lia].
  rewrite take_nd_one_axis. simpl. rewrite Nat.mul_1_r.
  assert (seq 0 n !! i = Some i) as Hseq by (now apply lookup_seq_lt).
  now rewrite (take_1_drop _ _ _ Hseq).
Qed.

Section ApplyData.
Context {num : Type} `{Numeric num} {K W : Type} `{EqDecision K}.

#[local] Abbreviation T := (numpyArray num).

Lemma write_scalar (st st' : store) (v : Var T) (n i : nat) (x : scalar num) :
  nd_shape (array_in st v) = [n] -> length (nd_data (array_in st v)) = n ->
  (i < n)%nat ->
  write st v (Sub1 (Int (Z.of_nat i))) (mkNd [] [x]) = Ok st' ->
  array_in st' v = mkNd [n] (<[i := x]> (nd_data (array_in st v))).
Proof.
  intros Hshape Hlen Hi. unfold write, Variable_setitem. simpl.
  fold (array_in st v).
  destruct (array_in st v) as [shp data] eqn:Harr. simpl in Hshape, Hlen.
  subst shp. rewrite (nd_setitem_scalar n data i x Hlen Hi). simpl.
  intros [= <-]. unfold array_in, current. simpl.
  now rewrite dget_dset_eq.
Qed.

Lemma write_keeps_shape (st st' : store) (v : Var T) (s : subscript)
    (vals : ndarray (scalar num)) :
  write st v s vals = Ok st' ->
  nd_shape (array_in st' v) = nd_shape (array_in st v).
Proof.
  unfold write, Variable_setitem. simpl. fold (array_in st v).
  unfold nd_setitem.
  destruct (selections _ _) as [sel|]; [|discriminate].
  rewrite result_bind_Ok.
  destruct (assigned_values _ _) as [xs|]; [|discriminate].
  rewrite !result_bind_Ok. intros [= <-].
  unfold array_in, current. simpl. now rewrite dget_dset_eq.
Qed.
End ApplyData.

Section ApplyDataLoop.
Context {num : Type} `{Numeric num} {K W : Type} `{EqDecision K}.

#[local] Abbreviation T := (numpyArray num).

Variables (self : Field num T) (coord : string) (m0 : nat).
Variables (cvar new_variable target : Var T).
Variable variables : dict (option string) (Var T).
Variable func : ndarray (scalar num) -> nat -> result (ndarray (scalar num)).
Variables (id G : nat).

Hypothesis Htarget : dget variables (Some coord) = Some target.
Hypothesis Htv : na_id (_data new_variable) <> na_id (_data target).
Hypothesis Hdn :
  na_id (_data (variable self)) <> na_id (_data new_variable).
Hypothesis Hdt : na_id (_data (variable self)) <> na_id (_data target).
Hypothesis Hscalar :
  forall a r, func a m0 = Ok r -> exists x, r = mkNd [] [x].

(** The loop writes, at the position of each group, the value that the
    function returns for the data of the group. *)
Lemma apply_loop_data (items : list (K * list index)) :
  forall (i : nat) (st st' : store),
  apply_loop self coord m0 cvar new_variable variables func id items i st
    = Ok st' ->
  dget st (na_id (_data (variable self))) = None ->
  nd_shape (array_in st new_variable) = [G] ->
  length (nd_data (array_in st new_variable)) = G ->
  (i + length items <= G)%nat ->
  nd_shape (array_in st' new_variable) = [G] /\
  length (nd_data (array_in st' new_variable)) = G /\
  (forall j, (j < i)%nat ->
     nd_data (array_in st' new_variable) !! j
     = nd_data (array_in st new_variable) !! j) /\
  (forall j key group, items !! j = Some (key, group) ->
     exists sub x,
       Variable_getitem (variable self) (SubSeq group) id = Ok sub /\
       func (ndarray_of sub) m0 = Ok (mkNd [] [x]) /\
       nd_data (array_in st' new_variable) !! (i + j)%nat = Some x).
Proof.
  induction items as [|[key group] items IH]; intros i st st'; simpl.
  - intros [= <-] _ Hs Hl _. repeat split; auto.
    intros j key group Hj. discriminate.
  - intros Hloop Hst Hs Hl Hbound. revert Hloop.
    rewrite (current_untouched _ _ Hst).
    destruct (Variable_getitem _ (SubSeq group) id) as [sub|] eqn:Hsub;
      [simpl|discriminate].
    destruct (func _ m0) as [r|] eqn:Hr; [simpl|discriminate].
    destruct (Hscalar _ _ Hr) as [x ->].
    destruct (write st new_variable _ _) as [st1|] eqn:Hw1;
      [simpl|discriminate].
    destruct (py_index group (Z.of_nat m0)) as [g|]; [simpl|discriminate].
    destruct (last_coordinate st1 cvar g id) as [c|]; [simpl|discriminate].
    rewrite Htarget. simpl.
    destruct (write st1 target _ c) as [st2|] eqn:Hw2; [simpl|discriminate].
    intros Hloop.
    assert (array_in st1 new_variable
            = mkNd [G] (<[i := x]> (nd_data (array_in st new_variable))))
      as Harr1.
    { apply (write_scalar st st1 new_variable G i x); auto. lia. }
    assert (array_in st2 new_variable = array_in st1 new_variable) as Harr2.
    { exact (array_in_other _ _ _ _ _ _ Hw2 Htv). }
    assert (dget st2 (na_id (_data (variable self))) = None) as Hst2.
    { rewrite (write_other _ _ _ _ _ _ Hw2 Hdt).
      now rewrite (write_other _ _ _ _ _ _ Hw1 Hdn). }
    destruct (IH (S i) st2 st' Hloop Hst2) as (Hs' & Hl' & Hkeep & Hnew).
    { now rewrite Harr2, Harr1. }
    { rewrite Harr2, Harr1. simpl. now rewrite length_insert. }
    { lia. }
    split; [assumption|]. split; [assumption|]. split.
    + intros j Hj. rewrite Hkeep by lia. rewrite Harr2, Harr1. simpl.
      apply list_lookup_insert_ne. lia.
    + intros [|j] key' group' Hj; simpl in Hj.
      * injection Hj as <- <-. exists sub, x. repeat split; auto.
        rewrite Nat.add_0_r, Hkeep by lia. rewrite Harr2, Harr1. simpl.
        apply list_lookup_insert_eq. lia.
      * destruct (Hnew j key' group' Hj) as (sub' & x' & ? & ? & Hx').
        exists sub', x'. repeat split; auto.
        now replace (i + S j)%nat with (S i + j)%nat by lia.
Qed.
End ApplyDataLoop.

Lemma Variable_init_one_axis {num : Type} (dim : Dimension) (dt : dtype)
    (nm : option string) (attrs : dict string string)
    (ds : option (dict string string)) (id G : nat)
    (v : Var (numpyArray num)) :
  Variable_init [DimInstance dim] dt nm (AttrDict attrs) ds DataNone
                numpyArray_class id = Ok v ->
  size dim = Z.of_nat G ->
  na_id (_data v) = id /\ na_arr (_data v) = mkNd [G] (replicate G SEmpty).
Proof.
  intros Hinit Hsize. split; [exact (Variable_init_new_id _ _ _ _ _ _ _ Hinit)|].
  revert Hinit. unfold Variable_init. simpl. unfold numpyArray_new. simpl.
  rewrite Hsize.
  replace (0 <=? Z.of_nat G) with true by (symmetry; apply Z.leb_le; lia).
  simpl. intros [= <-]. simpl. now rewrite Nat2Z.id, Nat.mul_1_r.
Qed.

(** X21.  The values of the groups.  For a data variable of one
    dimension, grouped along it, and a function that reduces an array to
    a scalar, the variable of the field that [apply] returns holds, at
    the position of each group, the value of the function on the data
    that the subscripts of the group select.  The coordinate variable of
    the grouped role carries the name of the role. *)
Theorem apply_values_of_groups {num K W : Type}
    `{Numeric num} `{EqDecision K}
    (self fld : Field num (numpyArray num)) (gb : GroupBy K W)
    (func : ndarray (scalar num) -> nat -> result (ndarray (scalar num)))
    (id : nat) (cvar : Var (numpyArray num)) (old : Dimension)
    (ds : Dataset (numpyArray num)) (st : dict nat (numpyArray num)) :
  dget (coordinate_variables self) (gb_coordinate gb) = Some ([0%nat], cvar) ->
  stored_under_role self (gb_coordinate gb) = true ->
  dimensions (variable self) = [old] ->
  (na_id (_data (variable self)) < id)%nat ->
  (forall a r, func a 0%nat = Ok r -> exists x, r = mkNd [] [x]) ->
  Field_apply self gb func id = Ok (ds, fld, st) ->
  forall i key group, groups gb !! i = Some (key, group) ->
    exists sub x,
      Variable_getitem (variable self) (SubSeq group) (S (S id)) = Ok sub /\
      func (ndarray_of sub) 0%nat = Ok (mkNd [] [x]) /\
      nd_data (na_arr (_data (variable fld))) !! i = Some x.
Proof.
  intros Hcoord Hrole Hdims Hold Hscalar.
  destruct (stored_under_role_spec _ _ Hrole) as [Hnames Hancil].
  unfold Field_apply.
  rewrite Hcoord, Hdims. simpl.
  set (G := length (groups gb)).
  set (dim := mkDimension (dim_name old) (Z.of_nat G) true).
  destruct (Variable_init _ _ _ _ _ _ _ id) as [var|] eqn:Hvar;
    [simpl|discriminate].
  destruct (apply_coordinates _ dim _ _ (S id)) as [vars|] eqn:Hvars;
    [simpl|discriminate].
  destruct (apply_loop _ _ _ _ _ _ _ _ _ _ _) as [st'|] eqn:Hloop;
    [simpl|discriminate].
  destruct (dataset (variable self)) as [attrs|]; [simpl|discriminate].
  intros [= <- <- <-].
  destruct (apply_coordinates_label (gb_coordinate gb) dim (S id) G
              (coordinate_variables self) eq_refl Hnames _ _ Hvars)
    as (target & Htarget & Hid & Harr).
  { right. eapply dget_Some_keys; eauto. }
  assert (dget (apply_ancil (ancil_variables self) vars)
               (Some (gb_coordinate gb)) = Some target) as Htarget'.
  { now rewrite apply_ancil_other. }
  destruct (Variable_init_one_axis dim _ _ _ _ id G var Hvar eq_refl)
    as [Hvid Hvarr].
  destruct (apply_loop_data self (gb_coordinate gb) 0%nat cvar var target _
              func (S (S id)) G Htarget' ltac:(lia) ltac:(lia) ltac:(lia)
              Hscalar (groups gb) 0%nat [] st' Hloop)
    as (_ & _ & _ & Hnew).
  { reflexivity. }
  { unfold array_in, current. simpl. now rewrite Hvarr. }
  { unfold array_in, current. simpl. rewrite Hvarr. simpl.
    apply length_replicate. }
  { simpl. unfold G. lia. }
  intros i key group Hi. exact (Hnew i key group Hi).
Qed.

Lemma apply_values_of_groups_witness :
  match Field_apply monthly_field yearly_groups sum_1d 20 with
  | Ok (_, fld, _) =>
      forall i key group, groups yearly_groups !! i = Some (key, group) ->
        exists sub x,
          Variable_getitem (variable monthly_field) (SubSeq group) 22 = Ok sub /\
          sum_1d (ndarray_of sub) 0%nat = Ok (mkNd [] [x]) /\
          nd_data (na_arr (_data (variable fld))) !! i = Some x
  | Raise _ => False
  end.
Proof.
  destruct (Field_apply monthly_field yearly_groups sum_1d 20)
    as [[[ds fld] st]|] eqn:Happly; [|vm_compute in Happly; discriminate].
  apply (apply_values_of_groups monthly_field fld yearly_groups sum_1d 20
           (example_variable 1 "time" [time_dim] (numbers (zrange 0 24)))
           time_dim ds st); try reflexivity.
  - simpl. lia.
  - intros a r. unfold sum_1d.
    destruct (nd_shape a) as [|n [|? ?]]; try discriminate.
    destruct (mapM as_number (nd_data a)) as [xs|]; [simpl|discriminate].
    intros [= <-]. eauto.
  - exact Happly.
Defined.

(** ** Positions that are not excluded *)

Lemma flat_nonzero_from (l : list bool) :
  forall off : nat,
  let nz := omap (fun p : nat * bool => if p.2 then None else Some p.1)
                 (imap (fun i b => ((off + i)%nat, b)) l) in
  NoDup nz /\
  forall p, p ∈ nz <-> exists i, p = (off + i)%nat /\ l !! i = Some false.
Proof.
  induction l as [|b l IH]; intros off nz; subst nz.
  - split; [constructor|]. intros p. split.
    + intros Hp. inversion Hp.
    + intros (i & _ & Hi). discriminate.
  - rewrite imap_cons.
    assert (imap ((fun i b0 => ((off + i)%nat, b0)) ∘ S) l
            = imap (fun i b0 => ((S off + i)%nat, b0)) l) as ->.
    { apply imap_ext. intros i x _. simpl. f_equal. lia. }
    destruct (IH (S off)) as [Hnodup Hin].
    cbn [omap list_omap snd fst]. destruct b.
    + split; [exact Hnodup|]. intros p. rewrite Hin. split.
      * intros (i & -> & Hi). exists (S i). split; [lia|exact Hi].
      * intros ([|i] & -> & Hi); [discriminate|].
        exists i. split; [lia|exact Hi].
    + split.
      * apply NoDup_cons_2; [|exact Hnodup].
        rewrite Hin. intros (i & Heq & _). lia.
      * intros p. rewrite elem_of_cons, Hin. split.
        -- intros [->|(i & -> & Hi)].
           ++ exists 0%nat. split; [lia|reflexivity].
           ++ exists (S i). split; [lia|exact Hi].
        -- intros ([|i] & -> & Hi); [left; lia|right].
           exists i. split; [lia|exact Hi].
Qed.

Lemma flat_nonzero_spec (l : list bool) :
  NoDup (flat_nonzero l) /\
  forall p, p ∈ flat_nonzero l <-> l !! p = Some false.
Proof.
  destruct (flat_nonzero_from l 0) as [Hnodup Hin]. split; [exact Hnodup|].
  intros p. unfold flat_nonzero. rewrite (Hin p). split.
  - now intros (i & -> & Hi).
  - intros Hp. now exists p.
Qed.

Lemma np_nonzero_not_one_axis (n : nat) (data : list bool) :
  np_nonzero_not (mkNd [n] data) = [flat_nonzero data].
Proof.
  unfold np_nonzero_not. cbn [nd_shape nd_data length seq map].
  f_equal. rewrite map_map.
  rewrite <- (map_id (flat_nonzero data)) at 2.
  apply map_ext. intros p. simpl. apply Nat.div_1_r.
Qed.

(** X22.  Positions with a gap.  For a mask of one axis in which an
    excluded position lies between two positions that are not excluded,
    the loop over the masks of [subset] puts, in the place of the
    dimension of the mapping, the array of the positions that are not
    excluded: each of them once, and no other. *)
Theorem subset_positions_with_gap (d n : nat) (data : list bool)
    (items : list (mapping * ndarray bool)) (subset : list index)
    (p1 p2 p3 : nat) :
  (d < length subset)%nat ->
  data !! p1 = Some false -> data !! p2 = Some true ->
  data !! p3 = Some false ->
  (p1 < p2 < p3)%nat ->
  exists nz,
    subset_masks (([d], mkNd [n] data) :: items) subset
    = subset_masks items (<[d := Arr (map Z.of_nat nz)]> subset) /\
    NoDup nz /\
    forall p, p ∈ nz <-> data !! p = Some false.
Proof.
  intros Hd H1 H2 H3 Horder.
  destruct (flat_nonzero_spec data) as [Hnodup Hin].
  exists (flat_nonzero data). split; [|split; [exact Hnodup|exact Hin]].
  cbn [subset_masks]. rewrite np_nonzero_not_one_axis.
  cbn [length seq subset_axes]. unfold subset_axis.
  cbn [lookup list_lookup from_option id].
  set (nz := flat_nonzero data) in *.
  assert (p1 ∈ nz) as Hp1 by (now apply Hin).
  assert (p3 ∈ nz) as Hp3 by (now apply Hin).
  destruct (np_min nz) as [start|] eqn:Hmin;
    [|destruct nz; [inversion Hp1|discriminate]].
  destruct (np_max nz) as [stop|] eqn:Hmax;
    [|destruct nz; [inversion Hp1|discriminate]].
  rewrite !result_bind_Ok. rewrite bool_decide_true by reflexivity.
  pose proof (np_min_max nz start stop Hmin Hmax) as Hbounds.
  assert (length nz <= stop - start)%nat as Hcount.
  { pose proof (Hbounds p1 Hp1). pose proof (Hbounds p3 Hp3).
    assert (nz ⊆+ seq start (p2 - start) ++ seq (S p2) (stop - p2)) as Hsub.
    { apply NoDup_submseteq; [exact Hnodup|]. intros p Hp.
      pose proof (Hbounds p Hp). apply Hin in Hp.
      assert (p <> p2) by congruence.
      apply elem_of_app. rewrite !elem_of_seq. lia. }
    apply submseteq_length in Hsub.
    rewrite length_app, !length_seq in Hsub. lia. }
  destruct (Nat.ltb_spec (length nz) (stop - start + 1)); [|lia].
  rewrite (py_setitem_nat_ok subset d _ Hd). now rewrite result_bind_Ok.
Qed.

Lemma subset_positions_with_gap_witness :
  exists nz,
    subset_masks [([0%nat], mkNd [5%nat] [false; true; true; false; true])]
                 [Slice (Some 0) (Some 5)]
    = Ok [Arr (map Z.of_nat nz)] /\
    NoDup nz /\
    forall p, p ∈ nz <-> [false; true; true; false; true] !! p = Some false.
Proof.
  apply (subset_positions_with_gap 0 5 [false; true; true; false; true] []
           [Slice (Some 0) (Some 5)] 0 1 3); try reflexivity; simpl; lia.
Defined.

(** ** The box around the cells that are not excluded *)

Lemma subset_axes_box (m : mapping) (nonzero : list (list nat)) :
  length nonzero <> 1%nat -> NoDup m ->
  forall (range : list nat) (s s' : list index),
  NoDup range ->
  subset_axes m nonzero range s = Ok s' ->
  (forall d, (forall i, i ∈ range -> m !! i <> Some d) -> s' !! d = s !! d) /\
  (forall i, i ∈ range ->
     exists d nz start stop,
       m !! i = Some d /\ nonzero !! i = Some nz /\
       np_min nz = Ok start /\ np_max nz = Ok stop /\
       s' !! d = Some (Slice (Some (Z.of_nat start))
                             (Some (Z.of_nat stop + 1)))).
Proof.
  intros Hlen Hm. induction range as [|i range IH]; intros s s' Hrange.
  - intros [= <-]. split; [reflexivity|]. intros i Hi. inversion Hi.
  - pose proof (NoDup_cons_1_1 _ _ Hrange) as Hi.
    apply NoDup_cons_1_2 in Hrange. cbn [subset_axes].
    destruct (subset_axis m nonzero s i) as [s1|] eqn:Haxis; [|discriminate].
    rewrite result_bind_Ok. intros Hrest.
    destruct (IH s1 s' Hrange Hrest) as [Hkeep Hset].
    unfold subset_axis in Haxis.
    destruct (nonzero !! i) as [nz|] eqn:Hnz; [|discriminate].
    destruct (np_min nz) as [start|] eqn:Hmin; [|discriminate].
    destruct (np_max nz) as [stop|] eqn:Hmax; [|discriminate].
    rewrite !result_bind_Ok in Haxis.
    rewrite bool_decide_false in Haxis by exact Hlen.
    destruct (m !! i) as [d|] eqn:Hd; [|discriminate].
    apply py_setitem_nat in Haxis as [-> Hlt].
    assert (forall j, j ∈ range -> m !! j <> Some d) as Hother.
    { intros j Hj Hjd. apply Hi.
      now rewrite (NoDup_lookup m i j d Hm Hd Hjd). }
    split.
    + intros d' Hd'. rewrite Hkeep.
      * apply list_lookup_insert_ne. intros <-. now apply (Hd' i); [left|].
      * intros j Hj. apply Hd'. now right.
    + intros j Hj. apply elem_of_cons in Hj as [->|Hj]; [|now apply Hset].
      exists d, nz, start, stop. repeat split; auto.
      rewrite (Hkeep d Hother). now apply list_lookup_insert_eq.
Qed.

Lemma np_nonzero_not_axis (mask : ndarray bool) (i p : nat) :
  (i < length (nd_shape mask))%nat ->
  nd_data mask !! p = Some false ->
  exists nz, np_nonzero_not mask !! i = Some nz /\
             nth i (unravel (nd_shape mask) p) 0%nat ∈ nz.
Proof.
  intros Hi Hp. unfold np_nonzero_not.
  change (map ?f ?l) with (f <$> l) at 1.
  rewrite list_lookup_fmap, lookup_seq_lt by exact Hi.
  eexists. split; [reflexivity|].
  apply list_elem_of_In, in_map_iff.
  exists (unravel (nd_shape mask) p). split; [reflexivity|].
  apply in_map_iff. exists p. split; [reflexivity|].
  apply list_elem_of_In. now apply flat_nonzero_spec.
Qed.

(** X23.  The box.  For a mask of two axes or more, on a mapping without
    repeated dimension, the loop over the masks of [subset] puts at the
    dimension of each axis a slice, and every cell that is not excluded
    has its index along the axis within the slice (the slice goes from
    the smallest to the largest such index; excluded cells inside the
    box are selected too). *)
Theorem subset_bounding_box (m : mapping) (mask : ndarray bool)
    (subset s' : list index) :
  (2 <= length (nd_shape mask))%nat ->
  NoDup m ->
  subset_masks [(m, mask)] subset = Ok s' ->
  forall i, (i < length (nd_shape mask))%nat ->
    exists d start stop,
      m !! i = Some d /\
      s' !! d = Some (Slice (Some (Z.of_nat start)) (Some (Z.of_nat stop + 1))) /\
      forall p, nd_data mask !! p = Some false ->
        (start <= nth i (unravel (nd_shape mask) p) 0 <= stop)%nat.
Proof.
  intros Hrank Hm. cbn [subset_masks].
  assert (length (np_nonzero_not mask) = length (nd_shape mask)) as Hlen.
  { unfold np_nonzero_not. now rewrite length_map, length_seq. }
  destruct (subset_axes m _ _ subset) as [s1|] eqn:Haxes; [|discriminate].
  rewrite result_bind_Ok. intros [= <-] i Hi.
  destruct (subset_axes_box m (np_nonzero_not mask) ltac:(lia) Hm _ _ _
              (NoDup_seq 0 _) Haxes) as [_ Hset].
  destruct (Hset i) as (d & nz & start & stop & Hd & Hnz & Hmin & Hmax & Hs).
  { apply elem_of_seq. lia. }
  exists d, start, stop. split; [exact Hd|]. split; [exact Hs|].
  intros p Hp.
  destruct (np_nonzero_not_axis mask i p Hi Hp) as (nz' & Hnz' & Hin).
  rewrite Hnz in Hnz'. injection Hnz' as <-.
  now apply (np_min_max nz start stop Hmin Hmax).
Qed.

Lemma subset_bounding_box_witness :
  exists s',
    subset_masks [([0; 1]%nat,
                   mkNd [2; 3]%nat [true; false; true; true; false; false])]
                 [Slice (Some 0) (Some 2); Slice (Some 0) (Some 3)] = Ok s' /\
    s' = [Slice (Some 0) (Some 2); Slice (Some 1) (Some 3)] /\
    forall i, (i < 2)%nat ->
      exists d start stop,
        [0; 1]%nat !! i = Some d /\
        s' !! d = Some (Slice (Some (Z.of_nat start))
                              (Some (Z.of_nat stop + 1))) /\
        forall p,
          [true; false; true; true; false; false] !! p = Some false ->
          (start <= nth i (unravel [2; 3]%nat p) 0 <= stop)%nat.
Proof.
  eexists. split; [reflexivity|]. split; [reflexivity|].
  apply (subset_bounding_box [0; 1]%nat
           (mkNd [2; 3]%nat [true; false; true; true; false; false])
           [Slice (Some 0) (Some 2); Slice (Some 0) (Some 3)]).
  - simpl. lia.
  - exact (NoDup_seq 0 2).
  - reflexivity.
Defined.

(** ** Assignment and reading of a whole variable *)

(** X24.  What is assigned to a whole variable is what is read from it:
    after [v[:] = a], for an [a] of the shape of [v], the variable has
    the dimensions and the storage object it had, and [v[:]] returns a
    variable on a new storage object that holds [a]. *)
Theorem Variable_assign_then_read {num : Type} (v : Var (numpyArray num))
    (n : nat) (shp : list nat) (old vals : list (scalar num)) (id : oid) :
  na_arr (_data v) = mkNd (n :: shp) old ->
  length old = prod_shape (n :: shp) ->
  length vals = prod_shape (n :: shp) ->
  length (dimensions v) = S (length shp) ->
  exists v' r,
    Variable_setitem v (Sub1 slice_None) (mkNd (n :: shp) vals) = Ok v' /\
    dimensions v' = dimensions v /\
    na_id (_data v') = na_id (_data v) /\
    Variable_getitem v' (Sub1 slice_None) id = Ok r /\
    na_arr (_data r) = mkNd (n :: shp) vals /\
    na_id (_data r) = id /\
    size <$> dimensions r = Z.of_nat <$> n :: shp.
Proof.
  intros Harr Hold Hvals Hdims.
  unfold Variable_setitem. cbn [arr_setitem numpyArray_Array].
  rewrite Harr, (nd_setitem_whole n shp old vals Hold Hvals).
  rewrite !result_bind_Ok.
  eexists _, _. split; [reflexivity|]. split; [reflexivity|].
  split; [reflexivity|].
  set (v' := mkVariable _ _ _ _ _ _).
  assert (arr_getitem (_data v') (Sub1 slice_None) id
          = Ok (mkNumpyArray id (na_dtype (_data v)) (mkNd (n :: shp) vals)))
    as Hget.
  { unfold v'. cbn [arr_getitem numpyArray_Array _data na_arr na_dtype].
    now rewrite (nd_getitem_whole n shp vals Hvals). }
  rewrite (Variable_getitem_ok v' _ id _ Hget).
  - split; [reflexivity|]. split; [reflexivity|]. split; [reflexivity|].
    cbn [dimensions _dimensions arr_shape numpyArray_Array na_arr].
    unfold shape_of_nd. cbn [nd_shape].
    change (map Z.of_nat (n :: shp)) with (Z.of_nat <$> n :: shp).
    rewrite sizes_resized. apply take_ge.
    rewrite length_fmap. unfold v', dimensions in *. simpl. lia.
  - cbn [arr_shape numpyArray_Array na_arr]. unfold shape_of_nd.
    cbn [nd_shape]. rewrite length_map. unfold v', dimensions in *.
    simpl. lia.
Qed.

Lemma Variable_assign_then_read_witness :
  exists v' r,
    Variable_setitem (variable station_field) (Sub1 slice_None)
                     (numbers [1; 2; 3]) = Ok v' /\
    Variable_getitem v' (Sub1 slice_None) 9 = Ok r /\
    na_arr (_data r) = numbers [1; 2; 3].
Proof.
  destruct (Variable_assign_then_read (variable station_field) 3 []
              [SNum 5; SNum 6; SNum 7] [SNum 1; SNum 2; SNum 3] 9)
    as (v' & r & Hset & _ & _ & Hget & Harr & _); try reflexivity.
  exists v', r. auto.
Defined.

(** ** Coordinates and groups that cannot be used *)

(** X25.  [groupby] on a name that is no coordinate variable of the
    field raises FieldError, unless the name is [geometry]; for
    [geometry] it raises KeyError when the field lacks the latitude or
    the longitude from which the geometries are derived.  The grouping
    function is not called in either case. *)
Theorem groupby_unknown_coordinate {num T K W : Type}
    `{Numeric num} `{Array num T} `{EqDecision K}
    (self : Field num T) (coord : string)
    (func : coordinate_values num T -> result (dict K (list index) * W))
    (id : oid) (lat_junk lon_junk : grid2) :
  dget (coordinate_variables self) coord = None ->
  (coord <> "geometry" ->
   Field_groupby self coord func id lat_junk lon_junk = Raise FieldError) /\
  (coord = "geometry" ->
   dget (coordinate_variables self) "latitude" = None \/
   dget (coordinate_variables self) "longitude" = None ->
   Field_groupby self coord func id lat_junk lon_junk = Raise KeyError).
Proof.
  intros Hnone. unfold Field_groupby. rewrite Hnone. split.
  - intros Hne. now rewrite bool_decide_false by exact Hne.
  - intros -> Hmissing. rewrite bool_decide_true by reflexivity.
    destruct Hmissing as [Hlat|Hlon].
    + now rewrite Hlat.
    + rewrite Hlon.
      now destruct (dget (coordinate_variables self) "latitude").
Qed.

Lemma groupby_unknown_coordinate_witness :
  Field_groupby monthly_field "depth" by_year 10 zero_junk zero_junk
    = Raise FieldError /\
  Field_groupby monthly_field "geometry" by_year 10 zero_junk zero_junk
    = Raise KeyError.
Proof.
  split.
  - refine (proj1 (groupby_unknown_coordinate monthly_field "depth" by_year 10
                     zero_junk zero_junk _) _); [reflexivity|discriminate].
  - refine (proj2 (groupby_unknown_coordinate monthly_field "geometry" by_year
                     10 zero_junk zero_junk _) _ _);
      [reflexivity|reflexivity|now left].
Defined.

(** X26.  A group without position.  When the grouping function gives,
    for the dimension of a coordinate of one axis, an empty list of
    positions, the loop over the groups of [groupby] raises IndexError:
    the test for a run reads the last element of the list. *)
Theorem groupby_empty_group {K : Type} `{EqDecision K} (d : nat) (key : K)
    (items : list (K * list index)) (s : list index)
    (grps : dict K (list index)) :
  (d < length s)%nat ->
  groupby_loop [d] ((key, [List []]) :: items) s grps = Raise IndexError.
Proof.
  intros Hd. cbn [groupby_loop assign_group tuple_index].
  rewrite decide_True by reflexivity. cbn [require].
  rewrite result_bind_Ok.
  change (py_index [List []] (Z.of_nat 0)) with (Ok (A:=index) (List [])).
  rewrite result_bind_Ok, (py_setitem_nat_ok s d _ Hd), !result_bind_Ok.
  cbn [simplify_group]. unfold simplify_dim.
  assert (py_index (<[d := List []]> s) (Z.of_nat d) = Ok (List [])) as ->.
  { apply py_index_nat. now apply list_lookup_insert_eq. }
  reflexivity.
Qed.

Lemma groupby_empty_group_witness :
  groupby_loop [0%nat] [(1980, [List []]); (1981, [List [0; 1]])]
               [slice_None] [] = Raise IndexError.
Proof.
  apply (groupby_empty_group 0 1980 [(1981, [List [0; 1]])] [slice_None] []).
  simpl. lia.
Defined.
